(** * Hebrew recipe extractor: the extraction and normalisation pipeline

    A shallow embedding of
      - src/schemas/recipe.ts        (the lookup tables and the record types),
      - src/lib/json-ld-parser.ts    (parseHebrewNumber, parseUnit,
                                      parseIngredient, isValidRecipe),
      - src/lib/format.ts            (formatQuantity),
      - src/services/llm-parser.ts   (parseWithLLM, refineRecipe),
      - src/services/extractor.ts    (RecipeExtractor.extract),
    followed by the properties of the pipeline.

    Conventions.  A JavaScript string is the list of its UTF-16 code units;
    [null] and [undefined] of a nullable field are both [None]; a JavaScript
    number is a double, held as the rational it stands for, or one of the
    special values (see [number] and [roundToDouble]); a call that may throw
    returns in the [Exc] monad. *)

From Stdlib Require Import List NArith ZArith QArith Qabs Qround Bool String Ascii Lia.
From Stdlib Require Import DecimalPos.
Import ListNotations.

Set Implicit Arguments.
Close Scope Q_scope.

(* ================================================================= *)
(** ** JavaScript strings *)

Module JS.

Definition jsstring := list N.

(** Literals are written as UTF-8 text and decoded to code units. *)
Fixpoint bytes (s : string) : list N :=
  match s with
  | EmptyString => []
  | String a r => N_of_ascii a :: bytes r
  end.

Definition emit (cp : N) : list N :=
  if (cp <? 65536)%N then [cp]
  else [(55296 + (cp - 65536) / 1024)%N; (56320 + (cp - 65536) mod 1024)%N].

Fixpoint decode (acc : N) (need : nat) (l : list N) : list N :=
  match l with
  | [] => []
  | b :: tl =>
      match need with
      | O => if (b <? 128)%N then b :: decode 0%N 0 tl
             else if (b <? 224)%N then decode (b - 192)%N 1 tl
             else if (b <? 240)%N then decode (b - 224)%N 2 tl
             else decode (b - 240)%N 3 tl
      | S O => emit (acc * 64 + (b - 128))%N ++ decode 0%N 0 tl
      | S n => decode (acc * 64 + (b - 128))%N n tl
      end
  end.

Definition js (s : string) : jsstring := decode 0%N 0 (bytes s).

Definition str_eqb (a b : jsstring) : bool :=
  if list_eq_dec N.eq_dec a b then true else false.

(** WhiteSpace and LineTerminator code points: what [String.prototype.trim]
    strips and what [\s] matches. *)
Definition isWhiteSpace (c : N) : bool :=
  ((9 <=? c) && (c <=? 13) || (c =? 32) || (c =? 160) || (c =? 5760)
   || (8192 <=? c) && (c <=? 8202) || (c =? 8232) || (c =? 8233)
   || (c =? 8239) || (c =? 8287) || (c =? 12288) || (c =? 65279))%N.

(** [\d] *)
Definition isDigit (c : N) : bool := ((48 <=? c) && (c <=? 57))%N.

(** [\w], without the unicode flag *)
Definition isWordChar (c : N) : bool :=
  (isDigit c || (65 <=? c) && (c <=? 90) || (97 <=? c) && (c <=? 122) || (c =? 95))%N.

Fixpoint dropWhile (p : N -> bool) (s : jsstring) : jsstring :=
  match s with
  | [] => []
  | c :: tl => if p c then dropWhile p tl else s
  end.

Fixpoint takeWhile (p : N -> bool) (s : jsstring) : jsstring :=
  match s with
  | [] => []
  | c :: tl => if p c then c :: takeWhile p tl else []
  end.

Definition trimStart (s : jsstring) : jsstring := dropWhile isWhiteSpace s.
Definition trimEnd (s : jsstring) : jsstring := rev (dropWhile isWhiteSpace (rev s)).
Definition trim (s : jsstring) : jsstring := trimEnd (trimStart s).

Fixpoint startsWith (s w : jsstring) : bool :=
  match w, s with
  | [], _ => true
  | _ :: _, [] => false
  | x :: w', c :: s' => (x =? c)%N && startsWith s' w'
  end.

(** [s.includes(w)] *)
Fixpoint includes (s w : jsstring) : bool :=
  startsWith s w ||
  match s with
  | [] => false
  | _ :: tl => includes tl w
  end.

(** [s.replace(w, r)] with a string pattern: the first occurrence only.
    Every call site passes the empty replacement, so the [$] patterns of
    a replacement string do not arise. *)
Fixpoint replace (s w r : jsstring) : jsstring :=
  if startsWith s w then r ++ skipn (List.length w) s
  else match s with
       | [] => []
       | c :: tl => c :: replace tl w r
       end.

(** [c.toLowerCase()] on Basic Latin; other code units are left as they are. *)
Definition lowerBasicLatin (c : N) : N :=
  if ((65 <=? c) && (c <=? 90))%N then (c + 32)%N else c.

(** Two code units match under the [i] flag (no [u] flag): canonicalisation
    maps a code unit to its upper case unless that would turn a non-ASCII
    unit into an ASCII one, so an ASCII letter of a pattern matches exactly
    its two cases. *)
Definition eq_ignoreCase (p c : N) : bool := (lowerBasicLatin p =? lowerBasicLatin c)%N.

Fixpoint startsWith_i (s w : jsstring) : bool :=
  match w, s with
  | [], _ => true
  | _ :: _, [] => false
  | x :: w', c :: s' => eq_ignoreCase x c && startsWith_i s' w'
  end.

End JS.
Import JS.

(* ================================================================= *)
(** ** JavaScript numbers *)

(** Numbers are IEEE 754 doubles in the program.  [Finite q] is the double
    whose value is the rational [q], kept in lowest terms; the other
    constructors are the special values.  Literals, parsed numerals and the
    results of arithmetic are rounded to the nearest double by
    [roundToDouble].  The sign of zero is not kept: the functions embedded
    here print, compare and test both zeros alike. *)
Inductive number :=
  | Finite (q : Q)
  | PosInfinity
  | NegInfinity
  | NaN.

(** *** Rounding to a double *)

(** The integer nearest to [n / d], for a positive [d]; of two equally
    near, the even one. *)
Definition roundHalfEven (n d : Z) : Z :=
  let q := (n / d)%Z in
  match (2 * (n mod d) ?= d)%Z with
  | Lt => q
  | Gt => (q + 1)%Z
  | Eq => if Z.even q then q else (q + 1)%Z
  end.

(** [a / b] divided by [2 ^ e], as a numerator and a denominator. *)
Definition scaled (a b e : Z) : Z * Z :=
  if (0 <=? e)%Z then (a, (b * 2 ^ e)%Z) else ((a * 2 ^ (- e))%Z, b).

(** The [k] with [2 ^ k <= a / b < 2 ^ (k + 1)]. *)
Definition binaryExponent (a b : positive) : Z :=
  let k := (Z.log2 (Zpos a) - Z.log2 (Zpos b))%Z in
  let '(n, d) := scaled (Zpos a) (Zpos b) k in
  if (n <? d)%Z then (k - 1)%Z else k.

(** [m * 2 ^ e], in lowest terms. *)
Definition dyadic (m e : Z) : Q :=
  Qred (if (0 <=? e)%Z then inject_Z (m * 2 ^ e)
        else Qmake m (Z.to_pos (2 ^ (- e)))).

(** The double nearest to the positive rational [a / b]: 53 significant
    bits, the unit in the last place no smaller than [2 ^ -1074], ties to
    the even significand, and Infinity from [2 ^ 1024] on. *)
Definition roundPositive (a b : positive) : number :=
  let e := Z.max (binaryExponent a b - 52) (-1074) in
  let '(n, d) := scaled (Zpos a) (Zpos b) e in
  let m := roundHalfEven n d in
  if ((971 <? e) || (e =? 971) && (m =? 2 ^ 53))%Z then PosInfinity
  else Finite (dyadic m e).

Definition roundToDouble (q : Q) : number :=
  match Qnum q with
  | Z0 => Finite 0
  | Zpos a => roundPositive a (Qden q)
  | Zneg a =>
      match roundPositive a (Qden q) with
      | Finite x => Finite (- x)
      | _ => NegInfinity
      end
  end.

(** A decimal literal of the source. *)
Definition lit (q : Q) : number := roundToDouble q.

Definition num_isNaN (x : number) : bool :=
  match x with NaN => true | _ => false end.

(** [x === y] on numbers *)
Definition num_eqb (x y : number) : bool :=
  match x, y with
  | Finite a, Finite b => Qeq_bool a b
  | PosInfinity, PosInfinity => true
  | NegInfinity, NegInfinity => true
  | _, _ => false
  end.

(** [x > y] *)
Definition num_gtb (x y : number) : bool :=
  match x, y with
  | Finite a, Finite b => negb (Qle_bool a b)
  | PosInfinity, Finite _ => true
  | PosInfinity, NegInfinity => true
  | Finite _, NegInfinity => true
  | _, _ => false
  end.

Definition num_neg (x : number) : number :=
  match x with
  | Finite a => Finite (- a)
  | PosInfinity => NegInfinity
  | NegInfinity => PosInfinity
  | NaN => NaN
  end.

Definition num_add (x y : number) : number :=
  match x, y with
  | NaN, _ | _, NaN => NaN
  | PosInfinity, NegInfinity | NegInfinity, PosInfinity => NaN
  | PosInfinity, _ | _, PosInfinity => PosInfinity
  | NegInfinity, _ | _, NegInfinity => NegInfinity
  | Finite a, Finite b => roundToDouble (a + b)
  end.

Definition num_sub (x y : number) : number := num_add x (num_neg y).

Definition num_div (x y : number) : number :=
  match x, y with
  | NaN, _ | _, NaN => NaN
  | Finite a, Finite b =>
      if Qeq_bool b 0 then
        if Qeq_bool a 0 then NaN
        else if Qle_bool 0 a then PosInfinity else NegInfinity
      else roundToDouble (a / b)
  | Finite _, _ => Finite 0
  | PosInfinity, Finite b => if Qle_bool 0 b then PosInfinity else NegInfinity
  | NegInfinity, Finite b => if Qle_bool 0 b then NegInfinity else PosInfinity
  | _, _ => NaN
  end.

(** [Math.floor] *)
Definition num_floor (x : number) : number :=
  match x with
  | Finite a => Finite (inject_Z (Qfloor a))
  | _ => x
  end.

(** [Number.isInteger] *)
Definition num_isInteger (x : number) : bool :=
  match x with
  | Finite a => Qeq_bool a (inject_Z (Qfloor a))
  | _ => false
  end.

(** An optional sign in front of a numeral: whether it is "-", and the
    text after it. *)
Definition stripSign (t : jsstring) : bool * jsstring :=
  match t with
  | c :: r => if (c =? 45)%N then (true, r)
              else if (c =? 43)%N then (false, r)
              else (false, t)
  | [] => (false, t)
  end.

Definition digitsValue (ds : jsstring) : N :=
  fold_left (fun a c => (10 * a + (c - 48))%N) ds 0%N.

(** [parseInt(s, 10)]: leading white space, an optional sign, then the
    longest run of decimal digits, as the nearest double; [NaN] when that
    run is empty.  (Past 20 significant digits the standard lets an engine
    round from a shortened numeral; the nearest double is what V8 gives.) *)
Definition parseInt10 (s : jsstring) : number :=
  let '(neg, u) := stripSign (trimStart s) in
  match takeWhile isDigit u with
  | [] => NaN
  | ds => let v := Z.of_N (digitsValue ds) in
          roundToDouble (inject_Z (if neg then - v else v))
  end.

(** The exponent part [e|E] [+|-]? digits of a decimal literal, 0 when
    there is no complete one. *)
Definition exponentPart (s : jsstring) : Z :=
  match s with
  | c :: r =>
      if eq_ignoreCase 101%N c then
        let '(neg, u) := stripSign r in
        match takeWhile isDigit u with
        | [] => 0%Z
        | ds => let v := Z.of_N (digitsValue ds) in if neg then (- v)%Z else v
        end
      else 0%Z
  | [] => 0%Z
  end.

(** The fraction digits after a decimal point, and the text after them. *)
Definition fractionDigits (r1 : jsstring) : jsstring * jsstring :=
  match r1 with
  | c :: r => if (c =? 46)%N then (takeWhile isDigit r, dropWhile isDigit r)
              else ([], r1)
  | [] => ([], r1)
  end.

(** [parseFloat(s)]: the double nearest to the value of the longest prefix
    of the trimmed text that is a StrDecimalLiteral (sign, digits, point,
    digits, exponent, or a signed "Infinity"), [NaN] when there is none. *)
Definition parseFloat (s : jsstring) : number :=
  let '(neg, u) := stripSign (trimStart s) in
  if startsWith u (js "Infinity") then (if neg then NegInfinity else PosInfinity)
  else
    let ip := takeWhile isDigit u in
    let '(fp, r2) := fractionDigits (dropWhile isDigit u) in
    match ip ++ fp with
    | [] => NaN
    | ds =>
        let m := Z.of_N (digitsValue ds) in
        let e := (exponentPart r2 - Z.of_nat (List.length fp))%Z in
        let v := if (0 <=? e)%Z then inject_Z (m * 10 ^ e)
                 else Qmake m (Z.to_pos (10 ^ (- e))) in
        roundToDouble (if neg then - v else v)
    end.

(* ================================================================= *)
(** ** The lookup tables of src/schemas/recipe.ts *)

(** The codes are short words ([g], [l], ...): they live in a module of
    their own and are written qualified. *)
Module Units.
Inductive UnitCode :=
  | cup | tbsp | tsp | ml | l | fl_oz
  | g | kg | oz | lb
  | piece | slice | clove | bunch | package | can | jar | bag
  | pinch | dash | to_taste | as_needed | unknown.
End Units.
Definition UnitCode := Units.UnitCode.

(** An object literal used as a table is the list of its entries in
    insertion order, the order [Object.entries] enumerates them in. *)
Definition table (V : Type) := list (jsstring * V).

Definition dquote : jsstring := [34%N].

Definition HEBREW_UNIT_MAP : table UnitCode :=
  [ (js "כוס", Units.cup); (js "כוסות", Units.cup);
    (js "כף", Units.tbsp); (js "כפות", Units.tbsp); (js "כף גדושה", Units.tbsp);
    (js "כפית", Units.tsp); (js "כפיות", Units.tsp);
    (js "מ" ++ dquote ++ js "ל", Units.ml); (js "מיליליטר", Units.ml);
    (js "ליטר", Units.l); (js "ל'", Units.l);
    (js "גרם", Units.g); (js "ג'", Units.g); (js "ג" ++ dquote ++ js "ר", Units.g);
    (js "קילו", Units.kg); (js "ק" ++ dquote ++ js "ג", Units.kg); (js "קילוגרם", Units.kg);
    (js "יחידה", Units.piece); (js "יחידות", Units.piece);
    (js "פרוסה", Units.slice); (js "פרוסות", Units.slice);
    (js "שן", Units.clove); (js "שיני", Units.clove); (js "שיניים", Units.clove);
    (js "צרור", Units.bunch); (js "אגודה", Units.bunch);
    (js "חבילה", Units.package);
    (js "שקית", Units.bag); (js "שקיות", Units.bag);
    (js "פחית", Units.can); (js "קופסה", Units.can);
    (js "צנצנת", Units.jar);
    (js "קורט", Units.pinch); (js "קמצוץ", Units.pinch);
    (js "מעט", Units.dash);
    (js "לפי הטעם", Units.to_taste); (js "לטעימה", Units.to_taste);
    (js "כנדרש", Units.as_needed); (js "לפי הצורך", Units.as_needed) ].

Definition HEBREW_FRACTION_MAP : table number :=
  [ (js "חצי", lit 0.5);
    (js "רבע", lit 0.25);
    (js "שליש", lit 0.333);
    (js "שני שליש", lit 0.667);
    (js "שלושת רבעי", lit 0.75);
    (js "שמינית", lit 0.125) ].

Definition HEBREW_NUMBER_MAP : table number :=
  [ (js "אחד", Finite 1); (js "אחת", Finite 1);
    (js "שניים", Finite 2); (js "שתיים", Finite 2);
    (js "שלוש", Finite 3); (js "שלושה", Finite 3);
    (js "ארבע", Finite 4); (js "ארבעה", Finite 4);
    (js "חמש", Finite 5); (js "חמישה", Finite 5);
    (js "שש", Finite 6); (js "שישה", Finite 6);
    (js "שבע", Finite 7); (js "שבעה", Finite 7);
    (js "שמונה", Finite 8);
    (js "תשע", Finite 9); (js "תשעה", Finite 9);
    (js "עשר", Finite 10); (js "עשרה", Finite 10) ].

(** The first entry, in table order, whose key satisfies [p]: the loop
    [for (const [word, value] of Object.entries(T)) if (p(word)) ...]
    leaving at its first hit. *)
Definition firstEntry (V : Type) (p : jsstring -> bool) (T : table V)
  : option (jsstring * V) :=
  find (fun e => p (fst e)) T.

(* ================================================================= *)
(** ** The quantity and unit normaliser of src/lib/json-ld-parser.ts *)

Record Ingredient := {
  original : jsstring;
  item : jsstring;
  quantity : option number;
  unit : option UnitCode;
  comments : option jsstring
}.

(** The table local to [parseUnit]. *)
Definition englishUnits : table UnitCode :=
  [ (js "cup", Units.cup); (js "cups", Units.cup);
    (js "tablespoon", Units.tbsp); (js "tablespoons", Units.tbsp); (js "tbsp", Units.tbsp);
    (js "teaspoon", Units.tsp); (js "teaspoons", Units.tsp); (js "tsp", Units.tsp);
    (js "gram", Units.g); (js "grams", Units.g); (js "g", Units.g);
    (js "kilogram", Units.kg); (js "kilograms", Units.kg); (js "kg", Units.kg);
    (js "ml", Units.ml); (js "milliliter", Units.ml); (js "milliliters", Units.ml);
    (js "liter", Units.l); (js "liters", Units.l); (js "l", Units.l);
    (js "ounce", Units.oz); (js "ounces", Units.oz); (js "oz", Units.oz);
    (js "pound", Units.lb); (js "pounds", Units.lb); (js "lb", Units.lb); (js "lbs", Units.lb);
    (js "piece", Units.piece); (js "pieces", Units.piece);
    (js "slice", Units.slice); (js "slices", Units.slice);
    (js "clove", Units.clove); (js "cloves", Units.clove);
    (js "bunch", Units.bunch); (js "package", Units.package);
    (js "can", Units.can); (js "jar", Units.jar); (js "bag", Units.bag);
    (js "pinch", Units.pinch); (js "dash", Units.dash) ].

(** The array local to [parseIngredient]. *)
Definition englishUnitWords : list jsstring :=
  [ js "cup"; js "cups"; js "tablespoon"; js "tablespoons"; js "tbsp";
    js "teaspoon"; js "teaspoons"; js "tsp"; js "gram"; js "grams"; js "g";
    js "kilogram"; js "kilograms"; js "kg"; js "ml"; js "milliliter";
    js "milliliters"; js "liter"; js "liters"; js "l"; js "ounce"; js "ounces";
    js "oz"; js "pound"; js "pounds"; js "lb"; js "lbs"; js "piece"; js "pieces";
    js "slice"; js "slices"; js "clove"; js "cloves"; js "bunch"; js "package";
    js "can"; js "jar"; js "bag"; js "pinch"; js "dash" ].

(** *** The regular expressions, each as the matcher it denotes *)

(** [/\(([^)]+)\)/]: the leftmost "(" followed by a non-empty run of
    characters other than ")" and then ")".  The run is maximal, and no
    shorter run can be followed by ")", so backtracking adds nothing.
    Returns the whole match and the group. *)
Fixpoint commentMatch (s : jsstring) : option (jsstring * jsstring) :=
  match s with
  | [] => None
  | c :: tl =>
      if (c =? 40)%N then
        let run := takeWhile (fun x => negb (x =? 41)%N) tl in
        match run, dropWhile (fun x => negb (x =? 41)%N) tl with
        | _ :: _, _ :: _ => Some (c :: run ++ [41%N], run)
        | _, _ => commentMatch tl
        end
      else commentMatch tl
  end.

(** [/^([\d\s/.]+)/]: the non-empty maximal prefix of digits, white space,
    slashes and dots. *)
Definition isNumeralRunChar (c : N) : bool :=
  isDigit c || isWhiteSpace c || (c =? 47)%N || (c =? 46)%N.

Definition numMatch (s : jsstring) : option jsstring :=
  match takeWhile isNumeralRunChar s with
  | [] => None
  | run => Some run
  end.

(** [(\d+)\s*\/\s*(\d+)] tried at the head of [s].  Each greedy run is
    followed by a character outside its class, so the maximal runs are the
    only way to match. *)
Definition fractionAt (s : jsstring) : option (jsstring * jsstring) :=
  match takeWhile isDigit s with
  | [] => None
  | a =>
      match dropWhile isWhiteSpace (dropWhile isDigit s) with
      | c :: r =>
          if (c =? 47)%N then
            match takeWhile isDigit (dropWhile isWhiteSpace r) with
            | [] => None
            | b => Some (a, b)
            end
          else None
      | [] => None
      end
  end.

(** [/(\d+)\s*\/\s*(\d+)/], leftmost match. *)
Fixpoint fractionMatch (s : jsstring) : option (jsstring * jsstring) :=
  match fractionAt s with
  | Some m => Some m
  | None => match s with
            | [] => None
            | _ :: tl => fractionMatch tl
            end
  end.

(** [(\d+)\s+(\d+)\s*\/\s*(\d+)] tried at the head of [s]. *)
Definition mixedAt (s : jsstring) : option (jsstring * jsstring * jsstring) :=
  match takeWhile isDigit s with
  | [] => None
  | a =>
      let r := dropWhile isDigit s in
      match takeWhile isWhiteSpace r with
      | [] => None
      | _ => match fractionAt (dropWhile isWhiteSpace r) with
             | Some (b, c) => Some (a, b, c)
             | None => None
             end
      end
  end.

(** [/(\d+)\s+(\d+)\s*\/\s*(\d+)/], leftmost match. *)
Fixpoint mixedMatch (s : jsstring) : option (jsstring * jsstring * jsstring) :=
  match mixedAt s with
  | Some m => Some m
  | None => match s with
            | [] => None
            | _ :: tl => mixedMatch tl
            end
  end.

(** [\b] between two neighbouring positions: exactly one side is a word
    character; beyond either end of the text there is none. *)
Definition isWordAt (c : option N) : bool :=
  match c with Some x => isWordChar x | None => false end.

Definition wordBoundary (before after : option N) : bool :=
  xorb (isWordAt before) (isWordAt after).

(** [\b<w>s?\b] with the [i] flag, tried at the head of [s], [prev] being
    the character before it.  Returns the length of the match: with the
    optional "s" when that leads to a boundary, otherwise without it. *)
Definition unitWordAt (prev : option N) (s w : jsstring) : option nat :=
  if wordBoundary prev (hd_error s) && startsWith_i s w then
    let n := List.length w in
    let lastc := last (map Some (firstn n s)) prev in
    let rest := skipn n s in
    let without := if wordBoundary lastc (hd_error rest) then Some n else None in
    match rest with
    | c :: rest' =>
        if eq_ignoreCase 115%N c && wordBoundary (Some c) (hd_error rest')
        then Some (S n) else without
    | [] => without
    end
  else None.

(** [s.replace(new RegExp(`\b${w}s?\b`, 'gi'), '')]: every match, scanning
    left to right and resuming after each match, is deleted.  [skip] counts
    the characters of the current match still to be dropped. *)
Fixpoint removeUnitWord_from (w : jsstring) (prev : option N) (skip : nat)
    (s : jsstring) : jsstring :=
  match s with
  | [] => []
  | c :: tl =>
      match skip with
      | S k => removeUnitWord_from w (Some c) k tl
      | O =>
          match unitWordAt prev s w with
          | Some (S k) => removeUnitWord_from w (Some c) k tl
          | _ => c :: removeUnitWord_from w (Some c) 0 tl
          end
      end
  end.

Definition removeUnitWord (s w : jsstring) : jsstring :=
  removeUnitWord_from w None 0 s.

(** [.replace(/^(של|of)\s+/i, '')] *)
Definition connectorAt (s w : jsstring) : option jsstring :=
  if startsWith_i s w then
    let r := skipn (List.length w) s in
    match takeWhile isWhiteSpace r with
    | [] => None
    | _ => Some (dropWhile isWhiteSpace r)
    end
  else None.

Definition stripConnector (s : jsstring) : jsstring :=
  match connectorAt s (js "של") with
  | Some r => r
  | None => match connectorAt s (js "of") with
            | Some r => r
            | None => s
            end
  end.

(** [.replace(/^\s*[-–—]\s*/, '')] *)
Definition isDash (c : N) : bool := ((c =? 45) || (c =? 8211) || (c =? 8212))%N.

Definition stripLeadingDash (s : jsstring) : jsstring :=
  match dropWhile isWhiteSpace s with
  | c :: r => if isDash c then dropWhile isWhiteSpace r else s
  | [] => s
  end.

(** [.replace(/\s+/g, ' ')]; [inRun] tells that the previous character was
    white space already replaced. *)
Fixpoint collapse_from (inRun : bool) (s : jsstring) : jsstring :=
  match s with
  | [] => []
  | c :: tl =>
      if isWhiteSpace c
      then (if inRun then collapse_from true tl else 32%N :: collapse_from true tl)
      else c :: collapse_from false tl
  end.

Definition collapseWhitespace (s : jsstring) : jsstring := collapse_from false s.

(** [a || b] on strings *)
Definition orElse (a b : jsstring) : jsstring :=
  match a with [] => b | _ => a end.

Section Normalizer.

(** [String.prototype.toLowerCase], left abstract: the general theorems
    hold for every such function, and [toLowerCaseBasic] below is what it
    does on text made of Basic Latin and Hebrew. *)
Variable toLowerCase : jsstring -> jsstring.

(** Parse Hebrew number words to numeric values *)
Definition parseHebrewNumber (text : jsstring) : option number :=
  let trimmed := toLowerCase (trim text) in
  (* Check for fraction words *)
  match firstEntry (fun word => includes trimmed word) HEBREW_FRACTION_MAP with
  | Some (_, value) => Some value
  | None =>
  (* Check for number words *)
  match firstEntry (fun word => str_eqb trimmed word) HEBREW_NUMBER_MAP with
  | Some (_, value) => Some value
  | None =>
  (* Try parsing as number *)
  let num := parseFloat trimmed in
  if negb (num_isNaN num) then Some num
  else
  (* Handle fractions like 1/2 *)
  match fractionMatch trimmed with
  | Some (a, b) => Some (num_div (parseInt10 a) (parseInt10 b))
  | None =>
  (* Handle mixed fractions like 1 1/2 *)
  match mixedMatch trimmed with
  | Some (a, b, c) =>
      Some (num_add (parseInt10 a) (num_div (parseInt10 b) (parseInt10 c)))
  | None => None
  end end end end.

(** Parse Hebrew/English unit to standard code *)
Definition parseUnit (text : jsstring) : option UnitCode :=
  let trimmed := toLowerCase (trim text) in
  (* Check Hebrew units first *)
  match firstEntry (fun hebrewUnit => includes trimmed hebrewUnit) HEBREW_UNIT_MAP with
  | Some (_, code) => Some code
  | None =>
  (* English units *)
  match firstEntry (fun unit => includes trimmed unit) englishUnits with
  | Some (_, code) => Some code
  | None => None
  end end.

(** The comment step of [parseIngredient]: the comment and the text left. *)
Definition extractComment (original : jsstring) : option jsstring * jsstring :=
  match commentMatch original with
  | Some (whole, inner) => (Some inner, trim (replace original whole []))
  | None => (None, original)
  end.

(** The quantity steps: Hebrew fractions first, then numeric quantities. *)
Definition extractQuantity (item : jsstring) : option number * jsstring :=
  match firstEntry (fun word => includes item word) HEBREW_FRACTION_MAP with
  | Some (word, value) => (Some value, trim (replace item word []))
  | None =>
      match numMatch item with
      | Some run =>
          match parseHebrewNumber run with
          | Some q => (Some q, trim (skipn (List.length run) item))
          | None => (None, item)
          end
      | None => (None, item)
      end
  end.

(** Removal of the unit from the item, done when a unit was found: the
    first Hebrew unit word, in table order, that occurs in the item, then
    every whole-word occurrence of each English unit word. *)
Definition removeHebrewUnit (item : jsstring) : jsstring :=
  match firstEntry (fun unitWord => includes item unitWord) HEBREW_UNIT_MAP with
  | Some (unitWord, _) => trim (replace item unitWord [])
  | None => item
  end.

Definition removeEnglishUnits (item : jsstring) : jsstring :=
  fold_left (fun it unitWord => trim (removeUnitWord it unitWord))
            englishUnitWords item.

(** Clean up the item name *)
Definition cleanItem (item : jsstring) : jsstring :=
  trim (collapseWhitespace (stripLeadingDash (stripConnector item))).

(** The value of the local [item] of [parseIngredient] at its [return]. *)
Definition parsedItem (ingredientStr : jsstring) : jsstring :=
  let original := trim ingredientStr in
  let '(_, item0) := extractComment original in
  let '(_, item1) := extractQuantity item0 in
  let item2 := match parseUnit item1 with
               | Some _ => removeEnglishUnits (removeHebrewUnit item1)
               | None => item1
               end in
  cleanItem item2.

(** Parse a single ingredient string into structured format *)
Definition parseIngredient (ingredientStr : jsstring) : Ingredient :=
  let original := trim ingredientStr in
  let '(comments, item0) := extractComment original in
  let '(quantity, item1) := extractQuantity item0 in
  {| original := original;
     item := orElse (parsedItem ingredientStr) original;
     quantity := quantity;
     unit := parseUnit item1;
     comments := comments |}.

End Normalizer.

(** [toLowerCase] on text whose cased letters are all Basic Latin. *)
Definition toLowerCaseBasic (s : jsstring) : jsstring := map lowerBasicLatin s.

(* ================================================================= *)
(** ** Quantity formatting, src/lib/format.ts *)

Fixpoint uintChars (u : Decimal.uint) : jsstring :=
  match u with
  | Decimal.Nil => []
  | Decimal.D0 r => 48%N :: uintChars r
  | Decimal.D1 r => 49%N :: uintChars r
  | Decimal.D2 r => 50%N :: uintChars r
  | Decimal.D3 r => 51%N :: uintChars r
  | Decimal.D4 r => 52%N :: uintChars r
  | Decimal.D5 r => 53%N :: uintChars r
  | Decimal.D6 r => 54%N :: uintChars r
  | Decimal.D7 r => 55%N :: uintChars r
  | Decimal.D8 r => 56%N :: uintChars r
  | Decimal.D9 r => 57%N :: uintChars r
  end.

(** The decimal digits of a natural number, "0" for zero. *)
Definition digitsOf (n : N) : jsstring := uintChars (N.to_uint n).

Definition integerToString (z : Z) : jsstring :=
  if (z <? 0)%Z then 45%N :: digitsOf (Z.abs_N z) else digitsOf (Z.abs_N z).

(** *** Number::toString on whole numbers

    The standard prints the decimal with the fewest significant digits that
    rounds to the number, and of several such the one nearest to it (the
    even one on a tie).  Below 2^53 every whole number is a double, so the
    digits are its own. *)

(** The decimal that rounds to the whole number [a] among the multiples of
    the power of ten [p], if there is one: the nearer of the two around
    [a]. *)
Definition shortestAt (a p : Z) : option Z :=
  if (a <? p)%Z then None
  else
    let lo := (a / p * p)%Z in
    let hi := (lo + p)%Z in
    let isA (v : Z) :=
      num_eqb (roundToDouble (inject_Z v)) (Finite (inject_Z a)) in
    match isA lo, isA hi with
    | true, true =>
        match (a - lo ?= hi - a)%Z with
        | Lt => Some lo
        | Gt => Some hi
        | Eq => if Z.even (a / p) then Some lo else Some hi
        end
    | true, false => Some lo
    | false, true => Some hi
    | false, false => None
    end.

Fixpoint firstSome (A B : Type) (f : A -> option B) (l : list A) : option B :=
  match l with
  | [] => None
  | x :: tl => match f x with Some y => Some y | None => firstSome f tl end
  end.

(** The powers of ten a double can reach, the largest first: the fewer the
    significant digits, the earlier the candidate. *)
Definition powersOfTen : list Z :=
  map (fun j => (10 ^ Z.of_nat j)%Z) (rev (seq 0 309)).

(** The decimal Number::toString prints for the positive whole number [a]. *)
Definition shortestDecimal (a : Z) : Z :=
  if (a <? 2 ^ 53)%Z then a
  else
    match firstSome (shortestAt a) powersOfTen with
    | Some v => v
    | None => a
    end.

Definition dropTrailingZeros (ds : jsstring) : jsstring :=
  rev (dropWhile (fun c => (c =? 48)%N) (rev ds)).

(** How the decimal is written: its digits below 10^21, exponent notation
    from there on. *)
Definition decimalNotation (v : Z) : jsstring :=
  let ds := digitsOf (Z.to_N v) in
  if (v <? 10 ^ 21)%Z then ds
  else
    let exponent := js "e+" ++ digitsOf (N.of_nat (List.length ds - 1)) in
    match dropTrailingZeros ds with
    | [] => ds
    | [d] => d :: exponent
    | d :: more => d :: 46%N :: more ++ exponent
    end.

(** [String(x)] for the numbers [formatQuantity] converts, which are whole,
    and the special values. *)
Definition numberToString (x : number) : jsstring :=
  match x with
  | Finite q =>
      let z := Qfloor q in
      if (z <? 0)%Z then 45%N :: decimalNotation (shortestDecimal (- z))
      else decimalNotation (shortestDecimal z)
  | PosInfinity => js "Infinity"
  | NegInfinity => js "-Infinity"
  | NaN => js "NaN"
  end.

(** [x.toFixed(1)]: below 10^21 in size, the integer n nearest to 10*|x|,
    the larger one on a tie, printed with one digit after the point and at
    least one before it, with "-" in front when [x] is negative; from 10^21
    on, where every double is whole, [String(x)]. *)
Definition pad2 (ds : jsstring) : jsstring :=
  match ds with
  | [d] => [48%N; d]
  | _ => ds
  end.

Definition toFixed1 (x : number) : jsstring :=
  match x with
  | Finite q =>
      if Qle_bool (inject_Z (10 ^ 21)) (Qabs q) then numberToString x
      else
      let n := Z.to_N (Qfloor (Qabs q * 10 + (1 # 2))) in
      let m := pad2 (digitsOf n) in
      let body := removelast m ++ [46%N] ++ [last m 48%N] in
      if Qle_bool 0 q then body else 45%N :: body
  | PosInfinity => js "Infinity"
  | NegInfinity => js "-Infinity"
  | NaN => js "NaN"
  end.

(** [.replace(/\.0$/, '')] *)
Fixpoint dropDotZero (s : jsstring) : jsstring :=
  match s with
  | [] => []
  | c :: tl => if str_eqb s (js ".0") then [] else c :: dropDotZero tl
  end.

(** The "Mixed numbers" block, entered when [quantity > 1]. *)
Definition mixedNumber (quantity : number) : option jsstring :=
  let whole := num_floor quantity in
  let frac := num_sub quantity whole in
  if num_eqb frac (lit 0.25) then Some (numberToString whole ++ js "¼")
  else if num_eqb frac (lit 0.5) then Some (numberToString whole ++ js "½")
  else if num_eqb frac (lit 0.75) then Some (numberToString whole ++ js "¾")
  else None.

(** Format quantity for display (handles fractions) *)
Definition formatQuantity (quantity : option number) : jsstring :=
  match quantity with
  | None => []
  | Some q =>
      (* Common fractions *)
      if num_eqb q (lit 0.25) then js "¼"
      else if num_eqb q (lit 0.333) || num_eqb q (lit 0.33) then js "⅓"
      else if num_eqb q (lit 0.5) then js "½"
      else if num_eqb q (lit 0.667) || num_eqb q (lit 0.66) then js "⅔"
      else if num_eqb q (lit 0.75) then js "¾"
      else
        (* Mixed numbers *)
        match (if num_gtb q (Finite 1) then mixedNumber q else None) with
        | Some s => s
        | None =>
            (* Regular numbers *)
            if num_isInteger q then numberToString q
            else dropDotZero (toFixed1 q)
        end
  end.

(* ================================================================= *)
(** ** The record types of src/schemas/recipe.ts *)

Inductive Difficulty := easy | medium | hard | unknown_difficulty.
Inductive Language := he | en | mixed.
(** ['json-ld' | 'llm' | 'hybrid'] *)
Inductive ExtractionMethod := json_ld | llm | hybrid.
Inductive Kashrut := parve | dairy | meat | not_kosher | unknown_kashrut.

Record RecipeMeta := {
  prepTime : option number;
  cookTime : option number;
  totalTime : option number;
  servings : option number;
  difficulty : Difficulty;
  cuisine : option jsstring;
  category : option jsstring;
  dietary : list jsstring
}.

Record Nutrition := {
  calories : option number;
  protein : option number;
  carbohydrates : option number;
  fat : option number;
  fiber : option number;
  sodium : option number
}.

Record Recipe := {
  title : jsstring;
  description : option jsstring;
  language : Language;
  sourceUrl : jsstring;
  imageUrl : option jsstring;
  author : option jsstring;
  datePublished : option jsstring;
  ingredients : list Ingredient;
  steps : list jsstring;
  tips : list jsstring;
  meta : RecipeMeta;
  nutrition : option Nutrition;
  extractionMethod : ExtractionMethod;
  confidence : Q;
  kashrut : option Kashrut;
  rawText : option jsstring
}.

(** [Partial<Recipe>]: every field may be absent.  The fields the pipeline
    reads are kept, under the names of [Recipe] with the prefix [p_]. *)
Record PartialRecipe := {
  p_title : option jsstring;
  p_description : option jsstring;
  p_language : option Language;
  p_imageUrl : option jsstring;
  p_author : option jsstring;
  p_datePublished : option jsstring;
  p_ingredients : option (list Ingredient);
  p_steps : option (list jsstring);
  p_tips : option (list jsstring);
  p_meta : option RecipeMeta;
  p_nutrition : option Nutrition
}.

Record ExtractionResult := {
  success : bool;
  recipe : option Recipe;
  error : option jsstring;
  warnings : list jsstring;
  processingTimeMs : Z
}.

(** [s || null] on a nullable string: the empty string is falsy too. *)
Definition orNull (s : option jsstring) : option jsstring :=
  match s with
  | Some [] => None
  | _ => s
  end.

(** [a || d] on an optional field whose values are all truthy. *)
Definition orDefault (A : Type) (a : option A) (d : A) : A :=
  match a with Some x => x | None => d end.

(** Truthiness of an optional string. *)
Definition truthy (s : option jsstring) : bool :=
  match s with
  | Some (_ :: _) => true
  | _ => false
  end.

(** [xs && xs.length > n] and [xs && xs.length >= n] on an optional array. *)
Definition longerThan (A : Type) (n : nat) (xs : option (list A)) : bool :=
  match xs with Some l => n <? List.length l | None => false end.

Definition atLeast (A : Type) (n : nat) (xs : option (list A)) : bool :=
  match xs with Some l => n <=? List.length l | None => false end.

(** Validate if parsed recipe has minimum required fields
    (src/lib/json-ld-parser.ts) *)
Definition isValidRecipe (recipe : option PartialRecipe) : bool :=
  match recipe with
  | None => false
  | Some r =>
      truthy (p_title r)
      && longerThan 0 (p_ingredients r)
      && longerThan 0 (p_steps r)
  end.

(* ================================================================= *)
(** ** Calls that may throw *)

(** What a [catch] clause receives: an [Error] with its message, or any
    other value. *)
Inductive thrown :=
  | ErrorObject (message : jsstring)
  | OtherValue.

(** [error instanceof Error ? error.message : 'Unknown error'] *)
Definition errorMessage (e : thrown) : jsstring :=
  match e with
  | ErrorObject m => m
  | OtherValue => js "Unknown error"
  end.

Inductive Exc (A : Type) :=
  | Returned (a : A)
  | Threw (e : thrown).

Arguments Returned {A} a.
Arguments Threw {A} e.

Definition bind (A B : Type) (c : Exc A) (k : A -> Exc B) : Exc B :=
  match c with
  | Returned a => k a
  | Threw e => Threw e
  end.

(** [try { c } catch (error) { h(error) }] *)
Definition tryCatch (A : Type) (c : Exc A) (h : thrown -> Exc A) : Exc A :=
  match c with
  | Returned a => Returned a
  | Threw e => h e
  end.

Notation "x <- c ;; k" := (bind c (fun x => k))
  (at level 61, c at next level, right associativity).

(* ================================================================= *)
(** ** The AI-assisted extractor, src/services/llm-parser.ts *)

(** The object [generateObject] returns, of the shape [LLMRecipeSchema]. *)
Record LLMObject := {
  o_title : jsstring;
  o_description : option jsstring;
  o_language : Language;
  o_ingredients : list Ingredient;
  o_steps : list jsstring;
  o_tips : list jsstring;
  o_kashrut : Kashrut;
  o_meta : RecipeMeta
}.

(** What the user prompt is built from: the partial data, when there is
    some, and the possibly truncated text. *)
Record LLMRequest := {
  req_partialData : option PartialRecipe;
  req_text : jsstring
}.

Definition maxTextLength : nat := N.to_nat 15000.

Definition truncate (rawText : jsstring) : jsstring :=
  if maxTextLength <? List.length rawText
  then firstn maxTextLength rawText ++ [10%N; 10%N] ++ js "[Content truncated...]"
  else rawText.

(** [partialData?.f || null] *)
Definition partialField (A : Type) (partialData : option PartialRecipe)
    (f : PartialRecipe -> option A) : option A :=
  match partialData with
  | Some p => f p
  | None => None
  end.

Section LLMParser.

(** The schema-constrained generation call of the AI SDK: it returns an
    object of the declared schema or throws. *)
Variable generateObject : LLMRequest -> Exc LLMObject.

(** Parse recipe content using Claude LLM *)
Definition parseWithLLM (rawText sourceUrl : jsstring)
    (partialData : option PartialRecipe) : Exc Recipe :=
  let truncatedText := truncate rawText in
  tryCatch
    (object <- generateObject {| req_partialData := partialData;
                                 req_text := truncatedText |} ;;
     Returned
       {| title := o_title object;
          description := o_description object;
          language := o_language object;
          sourceUrl := sourceUrl;
          imageUrl := orNull (partialField partialData p_imageUrl);
          author := orNull (partialField partialData p_author);
          datePublished := orNull (partialField partialData p_datePublished);
          ingredients := o_ingredients object;
          steps := o_steps object;
          tips := o_tips object;
          meta := o_meta object;
          nutrition := partialField partialData p_nutrition;
          extractionMethod := match partialData with Some _ => hybrid | None => llm end;
          confidence := match partialData with Some _ => 0.85 | None => 0.75 end;
          kashrut := Some (o_kashrut object);
          rawText := Some truncatedText |})
    (fun error =>
       Threw (ErrorObject (js "Failed to parse recipe with LLM: " ++ errorMessage error))).

(** Check if the existing data is good enough *)
Definition hasGoodData (recipe : PartialRecipe) : bool :=
  truthy (p_title recipe)
  && atLeast 2 (p_ingredients recipe)
  && atLeast 2 (p_steps recipe).

(** Validate and refine an existing recipe using LLM *)
Definition refineRecipe (recipe : PartialRecipe) (rawText sourceUrl : jsstring)
  : Exc Recipe :=
  if hasGoodData recipe then
    (* Validate and enhance with LLM *)
    parseWithLLM rawText sourceUrl (Some recipe)
  else
    (* Full LLM extraction *)
    parseWithLLM rawText sourceUrl None.

End LLMParser.

(* ================================================================= *)
(** ** The extraction orchestrator, src/services/extractor.ts *)

(** The fields of the fetcher's result that [extract] reads. *)
Record FetchResult := {
  html : jsstring;
  cleanedText : jsstring
}.

(** The options of the extractor after the defaults were merged in. *)
Record ExtractorOptions := {
  useLlm : bool;
  timeout : Z
}.

Definition DEFAULT_OPTIONS : ExtractorOptions :=
  {| useLlm := true; timeout := 30000 |}.

Definition emptyMeta : RecipeMeta :=
  {| prepTime := None; cookTime := None; totalTime := None; servings := None;
     difficulty := unknown_difficulty; cuisine := None; category := None;
     dietary := [] |}.

(** Return JSON-LD data without LLM refinement: the record [extract]
    builds from the structured partial alone. *)
Definition structuredOnly (jsonLdRecipe : PartialRecipe) (url : jsstring) : Recipe :=
  {| title := orElse (orDefault (p_title jsonLdRecipe) []) (js "Untitled Recipe");
     description := orNull (p_description jsonLdRecipe);
     language := orDefault (p_language jsonLdRecipe) en;
     sourceUrl := url;
     imageUrl := orNull (p_imageUrl jsonLdRecipe);
     author := orNull (p_author jsonLdRecipe);
     datePublished := orNull (p_datePublished jsonLdRecipe);
     ingredients := orDefault (p_ingredients jsonLdRecipe) [];
     steps := orDefault (p_steps jsonLdRecipe) [];
     tips := orDefault (p_tips jsonLdRecipe) [];
     meta := orDefault (p_meta jsonLdRecipe) emptyMeta;
     nutrition := p_nutrition jsonLdRecipe;
     extractionMethod := json_ld;
     confidence := 0.9;
     kashrut := None;
     rawText := None |}.

Section Orchestrator.

(** The collaborators of one run of [extract], as the run sees them:
    - [newURL]: the [URL] constructor, which throws on a malformed address;
    - [smartFetch]: the content fetcher, which returns or throws;
    - [parseRecipeFromHtml]: the structured-data extractor, which returns
      a partial record or null, or throws on structured data of a shape
      it does not expect (it rests on the HTML and JSON parsers of the
      platform; what it does with the parsed data is [parseRecipeFromHtml]
      further down);
    - [hasApiKey]: whether the credential is in the environment;
    - [generateObject]: the generation call;
    - [extractImageFromHtml]: the scan of the page for a meta image;
    - [startTime], [finishTime]: the readings of [Date.now()] on entry and
      at the [return] taken.
    The [log] calls write to the console only and are left out. *)
Variable options : ExtractorOptions.
Variable newURL : jsstring -> Exc Datatypes.unit.
Variable smartFetch : jsstring -> Z -> Exc FetchResult.
Variable parseRecipeFromHtml : jsstring -> jsstring -> Exc (option PartialRecipe).
Variable hasApiKey : bool.
Variable generateObject : LLMRequest -> Exc LLMObject.
Variable extractImageFromHtml : jsstring -> option jsstring.
Variables startTime finishTime : Z.

Definition failed (message : jsstring) (warnings : list jsstring) : ExtractionResult :=
  {| success := false;
     recipe := None;
     error := Some message;
     warnings := warnings;
     processingTimeMs := finishTime - startTime |}.

Definition succeeded (r : Recipe) (warnings : list jsstring) : ExtractionResult :=
  {| success := true;
     recipe := Some r;
     error := None;
     warnings := warnings;
     processingTimeMs := finishTime - startTime |}.

(** The refinement attempt of the valid branch: either the result to
    return, or the warnings list as it stands when the attempt is over. *)
Definition tryRefine (jsonLdRecipe : PartialRecipe) (fetchResult : FetchResult)
    (url : jsstring) (warnings : list jsstring)
  : ExtractionResult + list jsstring :=
  if useLlm options && hasApiKey then
    match refineRecipe generateObject jsonLdRecipe (cleanedText fetchResult) url with
    | Returned refinedRecipe => inl (succeeded refinedRecipe warnings)
    | Threw error =>
        inr (warnings ++ [js "LLM refinement failed: " ++ errorMessage error])
    end
  else inr warnings.

(** Step 2: Fallback to LLM extraction *)
Definition fullExtraction (jsonLdRecipe : option PartialRecipe)
    (fetchResult : FetchResult) (url : jsstring) (warnings : list jsstring)
  : ExtractionResult :=
  if negb (useLlm options) then
    failed (js "No structured data found and LLM extraction is disabled") warnings
  else if negb hasApiKey then
    failed (js "No structured data found and ANTHROPIC_API_KEY is not set") warnings
  else
    match parseWithLLM generateObject (cleanedText fetchResult) url jsonLdRecipe with
    | Returned r =>
        (* Try to get image URL from HTML if not in LLM result *)
        let r' := match orNull (imageUrl r) with
                  | Some _ => r
                  | None =>
                      {| title := title r; description := description r;
                         language := language r; sourceUrl := sourceUrl r;
                         imageUrl := extractImageFromHtml (html fetchResult);
                         author := author r; datePublished := datePublished r;
                         ingredients := ingredients r; steps := steps r;
                         tips := tips r; meta := meta r; nutrition := nutrition r;
                         extractionMethod := extractionMethod r;
                         confidence := confidence r; kashrut := kashrut r;
                         rawText := rawText r |}
                  end in
        succeeded r' warnings
    | Threw error =>
        failed (js "LLM extraction failed: " ++ errorMessage error) warnings
    end.

(** Extract recipe from URL *)
Definition extract (url : jsstring) : Exc ExtractionResult :=
  let warnings : list jsstring := [] in
  match newURL url with
  | Threw _ => Returned (failed (js "Invalid URL provided") [])
  | Returned _ =>
  match smartFetch url (timeout options) with
  | Threw error =>
      Returned (failed (js "Failed to fetch URL: " ++ errorMessage error) [])
  | Returned fetchResult =>
  (* Step 1: Try JSON-LD extraction (fast & free).  The call stands
     outside every [try]: what it throws leaves [extract]. *)
  jsonLdRecipe <- parseRecipeFromHtml (html fetchResult) url ;;
  match (if isValidRecipe jsonLdRecipe then jsonLdRecipe else None) with
  | Some valid =>
      match tryRefine valid fetchResult url warnings with
      | inl result => Returned result
      | inr warnings' => Returned (succeeded (structuredOnly valid url) warnings')
      end
  | None => Returned (fullExtraction jsonLdRecipe fetchResult url warnings)
  end end end.

(** The five ways a run of [extract] fails, each with the message the
    result then carries. *)
Inductive FailureCase (url : jsstring) : jsstring -> Prop :=
  | MalformedURL e :
      newURL url = Threw e ->
      FailureCase url (js "Invalid URL provided")
  | FetchError u e :
      newURL url = Returned u ->
      smartFetch url (timeout options) = Threw e ->
      FailureCase url (js "Failed to fetch URL: " ++ errorMessage e)
  | NoDataAIDisabled u fetched parsed :
      newURL url = Returned u ->
      smartFetch url (timeout options) = Returned fetched ->
      parseRecipeFromHtml (html fetched) url = Returned parsed ->
      isValidRecipe parsed = false ->
      useLlm options = false ->
      FailureCase url (js "No structured data found and LLM extraction is disabled")
  | NoDataNoKey u fetched parsed :
      newURL url = Returned u ->
      smartFetch url (timeout options) = Returned fetched ->
      parseRecipeFromHtml (html fetched) url = Returned parsed ->
      isValidRecipe parsed = false ->
      useLlm options = true ->
      hasApiKey = false ->
      FailureCase url (js "No structured data found and ANTHROPIC_API_KEY is not set")
  | AIExtractionFailure u fetched parsed e :
      newURL url = Returned u ->
      smartFetch url (timeout options) = Returned fetched ->
      parseRecipeFromHtml (html fetched) url = Returned parsed ->
      isValidRecipe parsed = false ->
      useLlm options = true ->
      hasApiKey = true ->
      parseWithLLM generateObject (cleanedText fetched) url parsed = Threw e ->
      FailureCase url (js "LLM extraction failed: " ++ errorMessage e).

End Orchestrator.

(* ================================================================= *)
(** ** The other field parsers of src/lib/json-ld-parser.ts *)

Definition num_mul (x y : number) : number :=
  match x, y with
  | NaN, _ | _, NaN => NaN
  | Finite a, Finite b => roundToDouble (a * b)
  | Finite a, PosInfinity | PosInfinity, Finite a =>
      if Qeq_bool a 0 then NaN
      else if Qle_bool 0 a then PosInfinity else NegInfinity
  | Finite a, NegInfinity | NegInfinity, Finite a =>
      if Qeq_bool a 0 then NaN
      else if Qle_bool 0 a then NegInfinity else PosInfinity
  | PosInfinity, PosInfinity | NegInfinity, NegInfinity => PosInfinity
  | PosInfinity, NegInfinity | NegInfinity, PosInfinity => NegInfinity
  end.

(** [Math.round]: the nearest integer, the larger one on a tie. *)
Definition num_round (x : number) : number :=
  match x with
  | Finite a => Finite (inject_Z (Qfloor (a + (1 # 2))))
  | _ => x
  end.

(** The falsy numbers: zero and [NaN]. *)
Definition num_falsy (x : number) : bool :=
  match x with
  | Finite a => Qeq_bool a 0
  | NaN => true
  | _ => false
  end.

(** [(?:(\d+)X)?] at the head of [s], the letter [x] matched in either
    case: the digits captured and the text after the letter, or no capture
    and [s] itself.  The digit run is maximal: after a shorter run comes a
    digit, not the letter. *)
Definition durationPart (x : N) (s : jsstring) : option jsstring * jsstring :=
  match takeWhile isDigit s, dropWhile isDigit s with
  | [], _ => (None, s)
  | ds, c :: r => if eq_ignoreCase x c then (Some ds, r) else (None, s)
  | _, [] => (None, s)
  end.

(** [PT(?:(\d+)H)?(?:(\d+)M)?(?:(\d+)S)?] with the [i] flag, tried at the
    head of [s]: the three captures.  Everything after "PT" is optional,
    so the attempt succeeds as soon as "PT" is there. *)
Definition durationAt (s : jsstring) :
    option (option jsstring * option jsstring * option jsstring) :=
  if startsWith_i s (js "PT") then
    let '(h, r1) := durationPart 72%N (skipn 2 s) in
    let '(m, r2) := durationPart 77%N r1 in
    let '(sec, _) := durationPart 83%N r2 in
    Some (h, m, sec)
  else None.

(** [duration.match(/PT(?:(\d+)H)?(?:(\d+)M)?(?:(\d+)S)?/i)], leftmost. *)
Fixpoint durationMatch (s : jsstring) :
    option (option jsstring * option jsstring * option jsstring) :=
  match durationAt s with
  | Some m => Some m
  | None => match s with
            | [] => None
            | _ :: tl => durationMatch tl
            end
  end.

(** [parseInt(match[i] || '0', 10)] *)
Definition captureValue (capture : option jsstring) : number :=
  parseInt10 (match capture with Some (c :: r) => c :: r | _ => js "0" end).

(** Parse ISO 8601 duration to minutes.  Examples: PT30M, PT1H30M, PT2H *)
Definition parseDuration (duration : option jsstring) : option number :=
  match duration with
  | None | Some [] => None
  | Some d =>
      match durationMatch d with
      | None => None
      | Some (h, m, sec) =>
          let hours := captureValue h in
          let minutes := captureValue m in
          let seconds := captureValue sec in
          Some (num_add (num_add (num_mul hours (Finite 60)) minutes)
                        (num_round (num_div seconds (Finite 60))))
      end
  end.

(** [(text.match(/re/g) || []).length] for a one-character class. *)
Definition countIf (p : N -> bool) (text : jsstring) : nat :=
  List.length (filter p text).

(** [֐-׿] *)
Definition isHebrewChar (c : N) : bool := ((1424 <=? c) && (c <=? 1535))%N.

(** [a-zA-Z] *)
Definition isLatinLetter (c : N) : bool :=
  ((65 <=? c) && (c <=? 90) || (97 <=? c) && (c <=? 122))%N.

(** Detect if text is primarily Hebrew (json-ld-parser.ts) *)
Definition isHebrew (text : jsstring) : bool :=
  countIf isLatinLetter text <? countIf isHebrewChar text.

(** [/([\d.]+)/]: the leftmost maximal run of digits and dots. *)
Definition isDigitOrDot (c : N) : bool := isDigit c || (c =? 46)%N.

Definition firstRun (p : N -> bool) (s : jsstring) : option jsstring :=
  match takeWhile p (dropWhile (fun c => negb (p c)) s) with
  | [] => None
  | run => Some run
  end.

(** Parse number from nutrition string (e.g., "250 calories" -> 250) *)
Definition parseNutritionValue (value : option jsstring) : option number :=
  match value with
  | None | Some [] => None
  | Some v =>
      match firstRun isDigitOrDot v with
      | Some run => Some (parseFloat run)
      | None => None
      end
  end.

(** *** Values read from JSON-LD *)

(** What [JSON.parse] returns, plus [undefined] for a property that is not
    there.  An object is the list of its own properties, each key once (a
    repeated key of the text keeps its last value, as [JSON.parse] does). *)
#[local] Unset Elimination Schemes.
Inductive json :=
  | JUndefined
  | JNull
  | JBool (b : bool)
  | JNumber (x : number)
  | JString (s : jsstring)
  | JArray (items : list json)
  | JObject (fields : list (jsstring * json)).
#[local] Set Elimination Schemes.

(** [!!v] *)
Definition json_truthy (v : json) : bool :=
  match v with
  | JUndefined | JNull => false
  | JBool b => b
  | JNumber x => negb (num_falsy x)
  | JString s => match s with [] => false | _ => true end
  | JArray _ | JObject _ => true
  end.

(** [typeof v === 'object' && v !== null] *)
Definition json_isObject (v : json) : bool :=
  match v with
  | JArray _ | JObject _ => true
  | _ => false
  end.

(** [key in v], for a key that no prototype defines. *)
Definition json_has (v : json) (key : jsstring) : bool :=
  match v with
  | JObject fields => existsb (fun f => str_eqb (fst f) key) fields
  | _ => false
  end.

(** [v[key]], for such a key and [v] not null. *)
Definition json_get (v : json) (key : jsstring) : json :=
  match v with
  | JObject fields =>
      match find (fun f => str_eqb (fst f) key) fields with
      | Some f => snd f
      | None => JUndefined
      end
  | _ => JUndefined
  end.

(** Parse servings from various formats: recipeYield can be a string, a
    number, an array of strings, or undefined. *)
Fixpoint parseServings (yield_ : json) : option number :=
  match yield_ with
  | JNumber x => if num_falsy x then None else Some x
  | JArray items =>
      (fix firstParsed (l : list json) : option number :=
         match l with
         | [] => None
         | i :: r => match parseServings i with
                     | Some parsed => Some parsed
                     | None => firstParsed r
                     end
         end) items
  | JString s =>
      match s with
      | [] => None
      | _ => match firstRun isDigit s with
             | Some run => Some (parseInt10 run)
             | None => None
             end
      end
  | _ => None
  end.

(** [\d+\.\s] at the head of [s], the lookahead of the split pattern. *)
Definition ordinalAhead (s : jsstring) : bool :=
  match takeWhile isDigit s, dropWhile isDigit s with
  | _ :: _, dot :: w :: _ => (dot =? 46)%N && isWhiteSpace w
  | _, _ => false
  end.

(** [instructions.split(/\n|(?=\d+\.\s)/)]: a line feed ends the current
    piece and is dropped; a position in front of an ordinal ends it too,
    unless the piece is still empty (an empty match at the start of a piece
    is passed over).  [piece] holds the current piece, last character
    first. *)
Fixpoint splitSteps_from (piece : jsstring) (s : jsstring) : list jsstring :=
  match s with
  | [] => [rev piece]
  | c :: tl =>
      if (c =? 10)%N then rev piece :: splitSteps_from [] tl
      else if match piece with [] => false | _ => ordinalAhead s end
      then rev piece :: splitSteps_from [c] tl
      else splitSteps_from (c :: piece) tl
  end.

Definition splitSteps (s : jsstring) : list jsstring := splitSteps_from [] s.

(** [s.replace(/^\d+\.\s*/, '')] *)
Definition stripOrdinal (s : jsstring) : jsstring :=
  match takeWhile isDigit s, dropWhile isDigit s with
  | _ :: _, dot :: r => if (dot =? 46)%N then dropWhile isWhiteSpace r else s
  | _, _ => s
  end.

Definition nonEmpty (s : jsstring) : bool :=
  match s with [] => false | _ => true end.

(** The steps one element of an instructions array contributes.  Reading
    [.trim] off a [text] that is not a string throws a TypeError. *)
Definition subItemSteps (subItem : json) : Exc (list jsstring) :=
  if json_isObject subItem && json_has subItem (js "text") then
    match json_get subItem (js "text") with
    | JString t => Returned [trim t]
    | _ => Threw (ErrorObject (js "subItem.text.trim is not a function"))
    end
  else Returned [].

Fixpoint subItemsSteps (subItems : list json) : Exc (list jsstring) :=
  match subItems with
  | [] => Returned []
  | i :: r =>
      a <- subItemSteps i ;;
      b <- subItemsSteps r ;;
      Returned (a ++ b)
  end.

Definition itemSteps (item : json) : Exc (list jsstring) :=
  match item with
  | JString s => Returned [trim s]
  | _ =>
      if json_isObject item then
        match json_get item (js "text") with
        | JString t => Returned [trim t]
        | _ =>
            match json_get item (js "itemListElement") with
            | JArray subItems => subItemsSteps subItems
            | _ => Returned []
            end
        end
      else Returned []
  end.

Fixpoint itemsSteps (items : list json) : Exc (list jsstring) :=
  match items with
  | [] => Returned []
  | i :: r =>
      a <- itemSteps i ;;
      b <- itemsSteps r ;;
      Returned (a ++ b)
  end.

(** Extract instructions from various formats *)
Definition extractInstructions (instructions : json) : Exc (list jsstring) :=
  if negb (json_truthy instructions) then Returned []
  else
    match instructions with
    | JString s =>
        (* Split by newlines or numbered steps *)
        Returned (filter nonEmpty (map (fun p => trim (stripOrdinal p)) (splitSteps s)))
    | JArray items =>
        steps <- itemsSteps items ;;
        Returned (filter nonEmpty steps)
    | _ => Returned []
    end.

Section StructuredData.

Variable toLowerCase : jsstring -> jsstring.

Definition isRecipeString (t : json) : bool :=
  match t with
  | JString s => str_eqb (toLowerCase s) (js "recipe")
  | _ => false
  end.

Definition isRecipeType (obj : json) : bool :=
  if negb (json_truthy obj) || negb (json_isObject obj) then false
  else
    match json_get obj (js "@type") with
    | JString s => str_eqb (toLowerCase s) (js "recipe")
    | JArray ts => existsb isRecipeString ts
    | _ => false
    end.

(** The body of the [try] block of [extractJsonLd] for one parsed script:
    the recipe found in it, none, or a TypeError (reading a property of
    null, iterating a [@graph] that is not iterable). *)
Definition recipeInScript (data : json) : Exc (option json) :=
  match data with
  | JNull | JUndefined =>
      Threw (ErrorObject (js "Cannot read properties of null"))
  | _ =>
      graphHit <-
        (let graph := json_get data (js "@graph") in
         if json_truthy graph then
           match graph with
           | JArray items => Returned (find isRecipeType items)
           | JString _ => Returned None
           | _ => Threw (ErrorObject (js "data['@graph'] is not iterable"))
           end
         else Returned None) ;;
      match graphHit with
      | Some item => Returned (Some item)
      | None =>
          if isRecipeType data then Returned (Some data)
          else match data with
               | JArray items => Returned (find isRecipeType items)
               | _ => Returned None
               end
      end
  end.

(** Extract JSON-LD structured data from HTML, given the JSON-LD scripts
    of the page in document order, each with the value [JSON.parse] gave
    for its content, [None] when the script is empty or does not parse. *)
Fixpoint extractJsonLd_from (scripts : list (option json)) : option json :=
  match scripts with
  | [] => None
  | None :: rest => extractJsonLd_from rest
  | Some data :: rest =>
      match recipeInScript data with
      | Returned (Some found) => Some found
      | _ => extractJsonLd_from rest
      end
  end.

End StructuredData.

(* ================================================================= *)
(** ** The record built from the structured data, src/lib/json-ld-parser.ts *)

(** The item [extractJsonLd] returns is what [JSON.parse] made of the page's
    markup, cast to [SchemaRecipe] without a check: every field is read
    here as the JSON value it is.  Calling a string method on a value that
    is no string throws a TypeError; its message is the engine's, and
    nothing below depends on it. *)
Definition typeError (message : string) : thrown := ErrorObject (js message).

(** [jsonLd.name || ''] followed by [isHebrew(title)], which calls
    [text.match]: the title, once the language test has passed. *)
Definition titleOf (name : json) : Exc jsstring :=
  if json_truthy name then
    match name with
    | JString s => Returned s
    | _ => Threw (typeError "text.match is not a function")
    end
  else Returned [].

(** [parseDuration(v)] on any value: [!duration] first, then
    [duration.match]. *)
Definition durationOf (v : json) : Exc (option number) :=
  if json_truthy v then
    match v with
    | JString d => Returned (parseDuration (Some d))
    | _ => Threw (typeError "duration.match is not a function")
    end
  else Returned None.

(** [parseNutritionValue(v)] on any value: [!value] first, then
    [value.match]. *)
Definition nutritionValueOf (v : json) : Exc (option number) :=
  if json_truthy v then
    match v with
    | JString t => Returned (parseNutritionValue (Some t))
    | _ => Threw (typeError "value.match is not a function")
    end
  else Returned None.

(** [Array.isArray(x) ? x[0] : x || null] *)
Definition firstOrNull (x : json) : json :=
  match x with
  | JArray items => List.hd JUndefined items
  | _ => if json_truthy x then x else JNull
  end.

(** [x ? (Array.isArray(x) ? x : [x]) : []] *)
Definition asArray (x : json) : list json :=
  if json_truthy x then
    match x with
    | JArray items => items
    | _ => [x]
    end
  else [].

(** [v || null] *)
Definition json_orNull (v : json) : json :=
  if json_truthy v then v else JNull.

(** Extract image URL from various formats *)
Definition extractImage (image : json) : json :=
  if negb (json_truthy image) then JNull
  else
    match image with
    | JString _ => image
    | JArray items =>
        let first := List.hd JUndefined items in
        match first with
        | JString _ => first
        | _ =>
            if json_truthy first && json_isObject first
               && json_has first (js "url")
            then json_get first (js "url")
            else JNull
        end
    | _ => JNull
    end.

(** Extract author name from various formats *)
Definition extractAuthor (author : json) : json :=
  if negb (json_truthy author) then JNull
  else
    match author with
    | JString _ => author
    | _ =>
        if json_isObject author && json_has author (js "name")
        then json_get author (js "name")
        else
          match author with
          | JArray items =>
              let first := List.hd JUndefined items in
              match first with
              | JString _ => first
              | _ =>
                  if json_truthy first && json_isObject first
                     && json_has first (js "name")
                  then json_get first (js "name")
                  else JNull
              end
          | _ => JNull
          end
    end.

(** The [meta] of the record: the fields read with [parseDuration] and
    [parseServings] have their declared types, the three copied from the
    markup hold whatever it held. *)
Record StructuredMeta := {
  s_prepTime : option number;
  s_cookTime : option number;
  s_totalTime : option number;
  s_servings : option number;
  s_difficulty : Difficulty;
  s_cuisine : json;
  s_category : json;
  s_dietary : list json
}.

(** The object [parseRecipeFromHtml] returns, under the names of [Recipe]
    with the prefix [s_]: typed [Partial<Recipe>] by the source, with the
    fields copied from the markup holding whatever it held. *)
Record StructuredRecipe := {
  s_title : jsstring;
  s_description : json;
  s_language : Language;
  s_sourceUrl : jsstring;
  s_imageUrl : json;
  s_author : json;
  s_datePublished : json;
  s_ingredients : list Ingredient;
  s_steps : list jsstring;
  s_tips : list jsstring;
  s_meta : StructuredMeta;
  s_nutrition : option Nutrition;
  s_extractionMethod : ExtractionMethod;
  s_confidence : Q
}.

Section RecipeFromJsonLd.

Variable toLowerCase : jsstring -> jsstring.

(** The [application/ld+json] scripts of the page in document order, each
    as [JSON.parse] gives it, [None] for one that is empty or does not
    parse: the work of cheerio and [JSON.parse]. *)
Variable jsonLdScripts : jsstring -> list (option json).

Definition extractJsonLd (html : jsstring) : option json :=
  extractJsonLd_from toLowerCase (jsonLdScripts html).

(** [parseIngredient(ing)] on any value: [ingredientStr.trim()] first. *)
Definition ingredientOf (ing : json) : Exc Ingredient :=
  match ing with
  | JString s => Returned (parseIngredient toLowerCase s)
  | _ => Threw (typeError "ingredientStr.trim is not a function")
  end.

Fixpoint ingredientsOf (items : list json) : Exc (list Ingredient) :=
  match items with
  | [] => Returned []
  | ing :: rest =>
      first <- ingredientOf ing ;;
      others <- ingredientsOf rest ;;
      Returned (first :: others)
  end.

(** [(jsonLd.recipeIngredient || []).map(ing => parseIngredient(ing))] *)
Definition parseIngredients (recipeIngredient : json) : Exc (list Ingredient) :=
  if json_truthy recipeIngredient then
    match recipeIngredient with
    | JArray items => ingredientsOf items
    | _ => Threw (typeError "(jsonLd.recipeIngredient || []).map is not a function")
    end
  else Returned [].

(** [jsonLd.nutrition ? { calories: ..., ... } : null] *)
Definition parseNutrition (nutrition : json) : Exc (option Nutrition) :=
  if json_truthy nutrition then
    calories <- nutritionValueOf (json_get nutrition (js "calories")) ;;
    protein <- nutritionValueOf (json_get nutrition (js "proteinContent")) ;;
    carbohydrates <- nutritionValueOf (json_get nutrition (js "carbohydrateContent")) ;;
    fat <- nutritionValueOf (json_get nutrition (js "fatContent")) ;;
    fiber <- nutritionValueOf (json_get nutrition (js "fiberContent")) ;;
    sodium <- nutritionValueOf (json_get nutrition (js "sodiumContent")) ;;
    Returned (Some {| calories := calories; protein := protein;
                      carbohydrates := carbohydrates; fat := fat;
                      fiber := fiber; sodium := sodium |})
  else Returned None.

(** The part of [parseRecipeFromHtml] that follows [extractJsonLd], in the
    order the source evaluates it. *)
Definition recipeOfJsonLd (jsonLd : json) (sourceUrl : jsstring)
  : Exc StructuredRecipe :=
  title <- titleOf (json_get jsonLd (js "name")) ;;
  let language := if isHebrew title then he else en in
  (* Parse ingredients *)
  ingredients <- parseIngredients (json_get jsonLd (js "recipeIngredient")) ;;
  (* Parse instructions *)
  steps <- extractInstructions (json_get jsonLd (js "recipeInstructions")) ;;
  (* Parse metadata *)
  prepTime <- durationOf (json_get jsonLd (js "prepTime")) ;;
  cookTime <- durationOf (json_get jsonLd (js "cookTime")) ;;
  totalTime <- durationOf (json_get jsonLd (js "totalTime")) ;;
  let meta :=
    {| s_prepTime := prepTime;
       s_cookTime := cookTime;
       s_totalTime := totalTime;
       s_servings := parseServings (json_get jsonLd (js "recipeYield"));
       s_difficulty := unknown_difficulty;
       s_cuisine := firstOrNull (json_get jsonLd (js "recipeCuisine"));
       s_category := firstOrNull (json_get jsonLd (js "recipeCategory"));
       s_dietary := asArray (json_get jsonLd (js "suitableForDiet")) |} in
  (* Parse nutrition if available *)
  nutrition <- parseNutrition (json_get jsonLd (js "nutrition")) ;;
  Returned
    {| s_title := title;
       s_description := json_orNull (json_get jsonLd (js "description"));
       s_language := language;
       s_sourceUrl := sourceUrl;
       s_imageUrl := extractImage (json_get jsonLd (js "image"));
       s_author := extractAuthor (json_get jsonLd (js "author"));
       s_datePublished := json_orNull (json_get jsonLd (js "datePublished"));
       s_ingredients := ingredients;
       s_steps := steps;
       s_tips := [];
       s_meta := meta;
       s_nutrition := nutrition;
       s_extractionMethod := json_ld;
       s_confidence := 0.9 |}.

(** Main function to parse recipe from HTML using JSON-LD *)
Definition parseRecipeFromHtml (html sourceUrl : jsstring)
  : Exc (option StructuredRecipe) :=
  match extractJsonLd html with
  | None => Returned None
  | Some jsonLd =>
      recipe <- recipeOfJsonLd jsonLd sourceUrl ;;
      Returned (Some recipe)
  end.

(** The collaborator of [extract]: [parseRecipeFromHtml] with its result
    read as the [Partial<Recipe>] it is declared to be, by any [view] of
    the record. *)
Definition structuredParse (view : StructuredRecipe -> PartialRecipe)
    (html sourceUrl : jsstring) : Exc (option PartialRecipe) :=
  found <- parseRecipeFromHtml html sourceUrl ;;
  Returned (option_map view found).

End RecipeFromJsonLd.

(* ================================================================= *)
(** ** More of src/lib/format.ts *)

Module Format.

(** Detect if text contains Hebrew characters (format.ts) *)
Definition isHebrew (text : jsstring) : bool := existsb isHebrewChar text.

End Format.

(** The labels of a unit: English, Hebrew. *)
Definition UNIT_DISPLAY : table (jsstring * jsstring) :=
  [ (js "cup", (js "cup", js "כוס"));
    (js "tbsp", (js "tbsp", js "כף"));
    (js "tsp", (js "tsp", js "כפית"));
    (js "g", (js "g", js "גרם"));
    (js "kg", (js "kg", js "ק" ++ dquote ++ js "ג"));
    (js "ml", (js "ml", js "מ" ++ dquote ++ js "ל"));
    (js "l", (js "l", js "ליטר"));
    (js "piece", (js "pc", js "יח'"));
    (js "slice", (js "slice", js "פרוסה"));
    (js "clove", (js "clove", js "שן"));
    (js "bunch", (js "bunch", js "צרור"));
    (js "package", (js "pkg", js "חבילה"));
    (js "bag", (js "bag", js "שקית"));
    (js "can", (js "can", js "פחית"));
    (js "jar", (js "jar", js "צנצנת"));
    (js "pinch", (js "pinch", js "קורט"));
    (js "dash", (js "dash", js "מעט"));
    (js "to_taste", (js "to taste", js "לפי הטעם"));
    (js "as_needed", (js "as needed", js "לפי הצורך")) ].

(** Format unit for display in the appropriate language.  A key that is
    not in the table, one found on the prototype included, has no label
    and the unit itself is returned. *)
Definition formatUnit (unit : option jsstring) (isHeb : bool) : jsstring :=
  match unit with
  | None | Some [] => []
  | Some u =>
      match firstEntry (fun key => str_eqb key u) UNIT_DISPLAY with
      | Some (_, (english, hebrew)) => orElse (if isHeb then hebrew else english) u
      | None => u
      end
  end.

(** The string a unit code is in the program. *)
Definition unitName (u : UnitCode) : jsstring :=
  match u with
  | Units.cup => js "cup" | Units.tbsp => js "tbsp" | Units.tsp => js "tsp"
  | Units.ml => js "ml" | Units.l => js "l" | Units.fl_oz => js "fl_oz"
  | Units.g => js "g" | Units.kg => js "kg" | Units.oz => js "oz"
  | Units.lb => js "lb" | Units.piece => js "piece" | Units.slice => js "slice"
  | Units.clove => js "clove" | Units.bunch => js "bunch"
  | Units.package => js "package" | Units.can => js "can"
  | Units.jar => js "jar" | Units.bag => js "bag" | Units.pinch => js "pinch"
  | Units.dash => js "dash" | Units.to_taste => js "to_taste"
  | Units.as_needed => js "as_needed" | Units.unknown => js "unknown"
  end.

(** Get confidence color class based on confidence score *)
Definition getConfidenceColor (confidence : Q) : jsstring :=
  if Qle_bool 0.9 confidence then js "text-olive-600"
  else if Qle_bool 0.75 confidence then js "text-honey-600"
  else js "text-terracotta-600".

(** Format relative time (e.g., "2 hours ago"), src/lib/format.ts.  Of the
    two [Date]s the function reads [date.getTime()], which is NaN ([None])
    for a text that is no date, [now.getTime()], and
    [date.toLocaleDateString()].  Every comparison with NaN is false, which
    leaves the last [return].  Time values are whole numbers of
    milliseconds and the quotients are taken exactly; the rounding of
    doubles can change a quotient only for differences of thousands of
    years, where every test has the same outcome. *)
Definition formatRelativeTime (dateTime : option Z) (now : Z)
    (localeDateString : jsstring) : jsstring :=
  match dateTime with
  | None => localeDateString
  | Some date =>
      let diffMs := (now - date)%Z in
      let diffMins := (diffMs / (1000 * 60))%Z in
      let diffHours := (diffMs / (1000 * 60 * 60))%Z in
      let diffDays := (diffMs / (1000 * 60 * 60 * 24))%Z in
      if (diffMins <? 1)%Z then js "just now"
      else if (diffMins <? 60)%Z then integerToString diffMins ++ js "m ago"
      else if (diffHours <? 24)%Z then integerToString diffHours ++ js "h ago"
      else if (diffDays =? 1)%Z then js "yesterday"
      else if (diffDays <? 7)%Z then integerToString diffDays ++ js "d ago"
      else localeDateString
  end.

(* ================================================================= *)
(** ** The command-line program *)

(** [.replace(/\s+/g, '-')] *)
Fixpoint dashRuns_from (inRun : bool) (s : jsstring) : jsstring :=
  match s with
  | [] => []
  | c :: tl =>
      if isWhiteSpace c
      then (if inRun then dashRuns_from true tl else 45%N :: dashRuns_from true tl)
      else c :: dashRuns_from false tl
  end.

(** [[\w֐-׿\s-]], the characters [sanitizeFilename] keeps. *)
Definition isFilenameChar (c : N) : bool :=
  isWordChar c || isHebrewChar c || isWhiteSpace c || (c =? 45)%N.

Section CommandLine.

Variable toLowerCase : jsstring -> jsstring.

(** Keep Hebrew, alphanumeric, space, dash *)
Definition sanitizeFilename (name : jsstring) : jsstring :=
  firstn 100 (dashRuns_from false (filter isFilenameChar (toLowerCase name))).

End CommandLine.

(** The loop of the [batch] command.  [successCount] and [failCount] are the
    counters of the source; [written] lists the calls of [fs.writeFileSync]
    that returned, in order, each with its path and the recipe serialised.
    The [console.log] calls are left out. *)
Record BatchState := {
  successCount : N;
  failCount : N;
  written : list (jsstring * Recipe)
}.

Section Batch.

Variable toLowerCase : jsstring -> jsstring.

(** The collaborators of the loop:
    - [extractOne]: [extractor.extract(url)];
    - [join]: [path.join];
    - [writeFileSync]: the write of the serialised recipe, which returns or
      throws. *)
Variable extractOne : jsstring -> Exc ExtractionResult.
Variable join : jsstring -> jsstring -> jsstring.
Variable writeFileSync : jsstring -> Recipe -> Exc Datatypes.unit.

(** The [try] block of one iteration: the file written, if any. *)
Definition processUrl (outputDir url : jsstring) : Exc (option (jsstring * Recipe)) :=
  result <- extractOne url ;;
  match success result, recipe result with
  | true, Some r =>
      let filename := sanitizeFilename toLowerCase (title r) ++ js ".json" in
      let filepath := join outputDir filename in
      _ <- writeFileSync filepath r ;;
      Returned (Some (filepath, r))
  | _, _ => Returned None
  end.

Definition batchStep (outputDir : jsstring) (st : BatchState) (url : jsstring)
  : BatchState :=
  match processUrl outputDir url with
  | Returned (Some file) =>
      {| successCount := successCount st + 1;
         failCount := failCount st;
         written := written st ++ [file] |}
  | Returned None | Threw _ =>
      {| successCount := successCount st;
         failCount := failCount st + 1;
         written := written st |}
  end.

Definition batch (outputDir : jsstring) (urls : list jsstring) : BatchState :=
  fold_left (batchStep outputDir) urls
            {| successCount := 0; failCount := 0; written := [] |}.

End Batch.

(* ================================================================= *)
(** ** Vocabulary of the further statements *)

(** An ISO 8601 duration "PT#H#M#S" with any of its components left out. *)
Definition durationComponent (letter : N) (v : option N) : jsstring :=
  match v with
  | Some n => digitsOf n ++ [letter]
  | None => []
  end.

Definition isoDuration (h m s : option N) : jsstring :=
  js "PT" ++ durationComponent 72%N h ++ durationComponent 77%N m
          ++ durationComponent 83%N s.

Definition orZero (v : option N) : Z :=
  match v with Some n => Z.of_N n | None => 0%Z end.

(** A whole number that is not negative, or Infinity. *)
Definition isCount (x : number) : Prop :=
  x = PosInfinity \/ exists n : N, x = Finite (inject_Z (Z.of_N n)).

(** [s.toLowerCase().includes(w)] for a lower-case Basic Latin [w]. *)
Fixpoint includes_i (s w : jsstring) : bool :=
  startsWith_i s w ||
  match s with
  | [] => false
  | _ :: tl => includes_i tl w
  end.

(** The characters of a file name made by [sanitizeFilename]. *)
Definition isSafeFilenameChar (c : N) : bool :=
  (isWordChar c || isHebrewChar c || (c =? 45)%N) && negb (isWhiteSpace c).

(** A text with no white space at either end. *)
Definition isTrimmed (s : jsstring) : bool :=
  match s with
  | [] => true
  | c :: _ => negb (isWhiteSpace c) && negb (isWhiteSpace (last s 0%N))
  end.

(** A number that is not below zero ([NaN] is not). *)
Definition notNegative (x : number) : bool :=
  match x with
  | Finite q => Qle_bool 0 q
  | NegInfinity => false
  | PosInfinity | NaN => true
  end.

(** [toLowerCase] leaves a text of digits, white space, "/" and "." as it
    is, as every lower-casing of Unicode does. *)
Definition keepsNumerals (toLowerCase : jsstring -> jsstring) : Prop :=
  forall s, forallb isNumeralRunChar s = true -> toLowerCase s = s.

(** Not an opening parenthesis. *)
Definition notOpening (c : N) : bool := negb (c =? 40)%N.

(** Some fraction word of [HEBREW_FRACTION_MAP] occurs in the text. *)
Definition hasFractionWord (text : jsstring) : bool :=
  existsb (fun e => includes text (fst e)) HEBREW_FRACTION_MAP.

(** A path the [batch] command writes to: a safe file name of at most 100
    characters with the extension, joined to the output directory. *)
Definition isBatchPath (join : jsstring -> jsstring -> jsstring)
    (outputDir path : jsstring) : Prop :=
  exists name,
    path = join outputDir (name ++ js ".json")
    /\ List.length name <= 100
    /\ forallb isSafeFilenameChar name = true.

(** A step object as publishers write it. *)
Definition howToStep (t : jsstring) : json :=
  JObject [(js "@type", JString (js "HowToStep")); (js "text", JString t)].

(** Not a closing parenthesis. *)
Definition notClosing (c : N) : bool := negb (c =? 41)%N.

(** A view of the record [parseRecipeFromHtml] returns as a
    [Partial<Recipe>]: it agrees with the record on the fields whose types
    the parser ensures. *)
Definition agreesOnTypedFields (view : StructuredRecipe -> PartialRecipe) : Prop :=
  forall r,
    p_title (view r) = Some (s_title r)
    /\ p_language (view r) = Some (s_language r)
    /\ p_ingredients (view r) = Some (s_ingredients r)
    /\ p_steps (view r) = Some (s_steps r)
    /\ p_tips (view r) = Some (s_tips r)
    /\ p_nutrition (view r) = s_nutrition r.

(** A text, or a falsy value: what a field read with a string method may
    hold without a TypeError. *)
Definition textOrFalsy (v : json) : bool :=
  match v with
  | JString _ => true
  | _ => negb (json_truthy v)
  end.

Definition isText (v : json) : bool :=
  match v with JString _ => true | _ => false end.

(** An array of texts, or a falsy value. *)
Definition textsOrFalsy (v : json) : bool :=
  match v with
  | JArray items => forallb isText items
  | _ => negb (json_truthy v)
  end.

(** The texts of an array of texts. *)
Definition textsOf (v : json) : list jsstring :=
  match v with
  | JArray items =>
      flat_map (fun i => match i with JString s => [s] | _ => [] end) items
  | _ => []
  end.

(** The six fields [parseNutritionValue] reads, when [nutrition] is
    truthy. *)
Definition nutritionFields : list jsstring :=
  [js "calories"; js "proteinContent"; js "carbohydrateContent";
   js "fatContent"; js "fiberContent"; js "sodiumContent"].

Definition nutritionReadable (nutrition : json) : bool :=
  negb (json_truthy nutrition)
  || forallb (fun k => textOrFalsy (json_get nutrition k)) nutritionFields.

(** The markup that [parseRecipeFromHtml] reads without a TypeError: a
    text, or nothing, wherever it calls a string method; an array of
    texts, or nothing, for the ingredients; and instructions that
    [extractInstructions] reads. *)
Definition isReadable (jsonLd : json) : Prop :=
  textOrFalsy (json_get jsonLd (js "name")) = true
  /\ textsOrFalsy (json_get jsonLd (js "recipeIngredient")) = true
  /\ (exists steps,
        extractInstructions (json_get jsonLd (js "recipeInstructions"))
        = Returned steps)
  /\ textOrFalsy (json_get jsonLd (js "prepTime")) = true
  /\ textOrFalsy (json_get jsonLd (js "cookTime")) = true
  /\ textOrFalsy (json_get jsonLd (js "totalTime")) = true
  /\ nutritionReadable (json_get jsonLd (js "nutrition")) = true.

(** The record read field by field as a [Partial<Recipe>], a field that
    holds no text read as an absent one. *)
Definition textOf (v : json) : option jsstring :=
  match v with JString s => Some s | _ => None end.

Definition typedView (r : StructuredRecipe) : PartialRecipe :=
  {| p_title := Some (s_title r);
     p_description := textOf (s_description r);
     p_language := Some (s_language r);
     p_imageUrl := textOf (s_imageUrl r);
     p_author := textOf (s_author r);
     p_datePublished := textOf (s_datePublished r);
     p_ingredients := Some (s_ingredients r);
     p_steps := Some (s_steps r);
     p_tips := Some (s_tips r);
     p_meta :=
       Some {| prepTime := s_prepTime (s_meta r);
               cookTime := s_cookTime (s_meta r);
               totalTime := s_totalTime (s_meta r);
               servings := s_servings (s_meta r);
               difficulty := s_difficulty (s_meta r);
               cuisine := textOf (s_cuisine (s_meta r));
               category := textOf (s_category (s_meta r));
               dietary := textsOf (JArray (s_dietary (s_meta r))) |};
     p_nutrition := s_nutrition r |}.

(* ================================================================= *)
(** ** Vocabulary of the statements *)

(** A result as callers expect it: a success carries a recipe and no
    error, a failure carries no recipe and an error message. *)
Definition wellFormed (r : ExtractionResult) : Prop :=
  (success r = true /\ (exists rec, recipe r = Some rec) /\ error r = None)
  \/ (success r = false /\ recipe r = None /\ exists m, error r = Some m).

(** A failed result with a given message. *)
Definition isFailure (r : ExtractionResult) (message : jsstring) : Prop :=
  success r = false /\ recipe r = None /\ error r = Some message.




(** An optional minus sign, digits, and possibly a point and more digits. *)
Definition dropMinus (s : jsstring) : jsstring :=
  match s with
  | c :: r => if (c =? 45)%N then r else s
  | [] => s
  end.

Definition isUnsignedDecimal (u : jsstring) : bool :=
  match takeWhile isDigit u, dropWhile isDigit u with
  | _ :: _, [] => true
  | _ :: _, c :: f =>
      (c =? 46)%N && match f with [] => false | _ => forallb isDigit f end
  | [], _ => false
  end.

Definition isPlainDecimal (s : jsstring) : bool :=
  isUnsignedDecimal (dropMinus s).


Definition hasGlyph (x : number) : bool :=
  existsb (num_eqb x) (map lit [0.25; 0.333; 0.33; 0.5; 0.667; 0.66; 0.75]%Q).

(** The fractional part as the program takes it:
    [quantity - Math.floor(quantity)]. *)
Definition fractionalPart (x : number) : number := num_sub x (num_floor x).



(* ================================================================= *)
(** ** Sample data, for the concrete instances of the properties *)

(** A partial record with a title, one ingredient and one step. *)
Definition onePlusOne : PartialRecipe :=
  {| p_title := Some (js "Shakshuka");
     p_description := None;
     p_language := Some en;
     p_imageUrl := Some (js "https://example.org/shakshuka.jpg");
     p_author := Some (js "Dana");
     p_datePublished := Some (js "2024-01-01");
     p_ingredients :=
       Some [ {| original := js "4 eggs"; item := js "eggs";
                 quantity := Some (Finite 4); unit := None; comments := None |} ];
     p_steps := Some [ js "Cook everything in one pan." ];
     p_tips := Some [];
     p_meta := Some emptyMeta;
     p_nutrition :=
       Some {| calories := Some (Finite 250); protein := None;
               carbohydrates := None; fat := None; fiber := None;
               sodium := None |} |}.

Module Sample.

(** A partial record with a title, two ingredients and two steps. *)
Definition twoPlusTwo : PartialRecipe :=
  {| p_title := Some (js "Shakshuka");
     p_description := Some (js "Eggs poached in tomato sauce");
     p_language := Some en;
     p_imageUrl := Some (js "https://example.org/shakshuka.jpg");
     p_author := Some (js "Dana");
     p_datePublished := None;
     p_ingredients :=
       Some [ {| original := js "4 eggs"; item := js "eggs";
                 quantity := Some (Finite 4); unit := None; comments := None |};
              {| original := js "2 cups tomato sauce"; item := js "tomato sauce";
                 quantity := Some (Finite 2); unit := Some Units.cup;
                 comments := None |} ];
     p_steps := Some [ js "Simmer the sauce."; js "Poach the eggs in it." ];
     p_tips := Some [];
     p_meta := Some emptyMeta;
     p_nutrition := None |}.

Definition modelAnswer : LLMObject :=
  {| o_title := js "Shakshuka";
     o_description := None;
     o_language := en;
     o_ingredients :=
       [ {| original := js "4 eggs"; item := js "eggs";
            quantity := Some (Finite 4); unit := None; comments := None |} ];
     o_steps := [ js "Simmer the sauce."; js "Poach the eggs in it." ];
     o_tips := [];
     o_kashrut := parve;
     o_meta := emptyMeta |}.

Definition page : FetchResult :=
  {| html := js "<html><body><h1>Shakshuka</h1></body></html>";
     cleanedText := js "Shakshuka. 4 eggs. Cook everything in one pan." |}.

Definition address : jsstring := js "https://example.org/shakshuka".

(** A [URL] constructor that accepts addresses with a scheme. *)
Definition newURL (url : jsstring) : Exc Datatypes.unit :=
  if includes url (js "://") then Returned tt
  else Threw (ErrorObject (js "Invalid URL")).

Definition fetchPage (url : jsstring) (timeout : Z) : Exc FetchResult :=
  Returned page.

Definition fetchDown (url : jsstring) (timeout : Z) : Exc FetchResult :=
  Threw (ErrorObject (js "getaddrinfo ENOTFOUND")).

Definition foundRecipe (p : PartialRecipe) (html url : jsstring)
  : Exc (option PartialRecipe) := Returned (Some p).

Definition noMarkup (html url : jsstring) : Exc (option PartialRecipe) :=
  Returned None.

Definition generationFails (request : LLMRequest) : Exc LLMObject :=
  Threw (ErrorObject (js "response did not match schema")).

Definition generationAnswers (request : LLMRequest) : Exc LLMObject :=
  Returned modelAnswer.

Definition noImage (html : jsstring) : option jsstring := None.

(** The markup of a page whose recipe has, in a section of its
    instructions, a step with a list where a text belongs. *)
Definition illTypedMarkup : json :=
  JObject
    [ (js "@context", JString (js "https://schema.org"));
      (js "@type", JString (js "Recipe"));
      (js "name", JString (js "Hummus"));
      (js "recipeIngredient",
       JArray [JString (js "1 can chickpeas"); JString (js "2 tbsp tahini")]);
      (js "recipeInstructions",
       JArray
         [ JObject
             [ (js "@type", JString (js "HowToSection"));
               (js "name", JString (js "Blend"));
               (js "itemListElement",
                JArray
                  [ JObject
                      [ (js "@type", JString (js "HowToStep"));
                        (js "text",
                         JArray [JString (js "Drain the chickpeas.");
                                 JString (js "Blend until smooth.")]) ] ]) ] ]) ].

Definition illTypedScripts (html : jsstring) : list (option json) :=
  [Some illTypedMarkup].

(** The same recipe with the step written as a text. *)
Definition markup : json :=
  JObject
    [ (js "@context", JString (js "https://schema.org"));
      (js "@type", JString (js "Recipe"));
      (js "name", JString (js "Hummus"));
      (js "recipeIngredient",
       JArray [JString (js " 1 can chickpeas"); JString (js "2 tbsp tahini (raw)")]);
      (js "recipeInstructions",
       JArray
         [ JObject
             [ (js "@type", JString (js "HowToSection"));
               (js "itemListElement",
                JArray
                  [ JObject
                      [ (js "@type", JString (js "HowToStep"));
                        (js "text", JString (js "Drain the chickpeas. ")) ] ]) ];
           JString (js "Blend until smooth.") ]);
      (js "prepTime", JString (js "PT15M"));
      (js "image", JObject [(js "url", JString (js "https://example.org/h.jpg"))]) ].

Definition scripts (html : jsstring) : list (option json) :=
  [None; Some markup].

End Sample.

(* ================================================================= *)
(** ** Properties of the rounding to a double *)

Lemma roundHalfEven_nonneg (n d : Z) :
  (0 <= n)%Z -> (0 < d)%Z -> (0 <= roundHalfEven n d)%Z.
Proof.
  intros Hn Hd. unfold roundHalfEven. cbv zeta.
  pose proof (Z.div_pos n d Hn Hd) as Hq.
  destruct (2 * (n mod d) ?= d)%Z; try lia.
  destruct (Z.even (n / d)); lia.
Qed.

Lemma roundHalfEven_unit (n : Z) : roundHalfEven n 1 = n.
Proof.
  unfold roundHalfEven. rewrite Z.mod_1_r, Z.div_1_r. reflexivity.
Qed.

Lemma scaled_positive (a b : positive) (e : Z) :
  (0 <= fst (scaled (Zpos a) (Zpos b) e))%Z
  /\ (0 < snd (scaled (Zpos a) (Zpos b) e))%Z.
Proof.
  unfold scaled. destruct (0 <=? e)%Z eqn:E; cbn [fst snd].
  - apply Z.leb_le in E. split; [lia |].
    assert (0 < 2 ^ e)%Z by (apply Z.pow_pos_nonneg; lia). nia.
  - apply Z.leb_gt in E. split; [| lia].
    assert (0 < 2 ^ (- e))%Z by (apply Z.pow_pos_nonneg; lia). nia.
Qed.

Lemma dyadic_nonneg (m e : Z) : (0 <= m)%Z -> Qle 0 (dyadic m e).
Proof.
  intros Hm. unfold dyadic. rewrite Qred_correct.
  destruct (0 <=? e)%Z eqn:E.
  - apply Z.leb_le in E.
    assert (0 <= 2 ^ e)%Z by (apply Z.pow_nonneg; lia).
    unfold Qle, inject_Z. simpl. nia.
  - unfold Qle. simpl. lia.
Qed.

(** What [roundPositive] returns: Infinity, or a dyadic number that is
    not negative. *)
Lemma roundPositive_cases (a b : positive) :
  roundPositive a b = PosInfinity
  \/ exists m e, (0 <= m)%Z /\ roundPositive a b = Finite (dyadic m e).
Proof.
  unfold roundPositive. cbv zeta.
  set (e := Z.max (binaryExponent a b - 52) (-1074)).
  pose proof (scaled_positive a b e) as [Hn Hd].
  destruct (scaled (Zpos a) (Zpos b) e) as [n d]. cbn [fst snd] in Hn, Hd.
  destruct ((971 <? e) || (e =? 971) && (roundHalfEven n d =? 2 ^ 53))%Z;
    [now left | right].
  exists (roundHalfEven n d), e. split; [| reflexivity].
  now apply roundHalfEven_nonneg.
Qed.

Lemma roundToDouble_notNaN (q : Q) : num_isNaN (roundToDouble q) = false.
Proof.
  unfold roundToDouble. destruct (Qnum q) as [| a | a]; [reflexivity | |];
    destruct (roundPositive_cases a (Qden q)) as [E | (m & e & _ & E)];
    rewrite E; reflexivity.
Qed.

Lemma Qred_inject_Z (z : Z) : Qred (inject_Z z) = inject_Z z.
Proof.
  unfold Qred, inject_Z. simpl.
  generalize (Z.ggcd_gcd z 1) (Z.ggcd_correct_divisors z 1).
  destruct (Z.ggcd z 1) as (g, (a, b)). simpl.
  rewrite Z.gcd_1_r. intros Hg [Ha Hb].
  assert (Ea : a = z) by lia. assert (Eb : b = 1%Z) by lia.
  rewrite Ea, Eb. reflexivity.
Qed.

Lemma dyadic_whole (a e : Z) :
  (e <= 0)%Z -> dyadic (a * 2 ^ (- e)) e = inject_Z a.
Proof.
  intros He. unfold dyadic.
  rewrite <- (Qred_inject_Z a). apply Qred_complete.
  destruct (0 <=? e)%Z eqn:E.
  - apply Z.leb_le in E. assert (e = 0%Z) by lia. subst e.
    unfold Qeq, inject_Z. simpl. lia.
  - assert (Hp : (0 < 2 ^ (- e))%Z) by (apply Z.pow_pos_nonneg; lia).
    unfold Qeq, inject_Z. cbn [Qnum Qden]. rewrite Z2Pos.id by exact Hp. lia.
Qed.

(** Every whole number below 2^53 is a double. *)
Lemma roundPositive_whole (a : positive) :
  (Zpos a < 2 ^ 53)%Z -> roundPositive a 1 = Finite (inject_Z (Zpos a)).
Proof.
  intros Ha.
  pose proof (Z.log2_spec (Zpos a) ltac:(lia)) as [Hlo Hhi].
  pose proof (Z.log2_nonneg (Zpos a)) as Hk.
  set (k := Z.log2 (Zpos a)) in *.
  assert (Hk52 : (k <= 52)%Z).
  { destruct (Z.le_gt_cases k 52) as [H | H]; [exact H |].
    assert (2 ^ 53 <= 2 ^ k)%Z by (apply Z.pow_le_mono_r; lia). lia. }
  assert (Eb : binaryExponent a 1 = k).
  { unfold binaryExponent. cbv zeta.
    change (Z.log2 1) with 0%Z. rewrite Z.sub_0_r. fold k.
    unfold scaled. destruct (Z.leb_spec 0 k) as [_ | H]; [| lia].
    rewrite Z.mul_1_l.
    destruct (Z.ltb_spec (Zpos a) (2 ^ k)) as [H | _]; [lia | reflexivity]. }
  unfold roundPositive. cbv zeta. rewrite Eb.
  rewrite Z.max_l by lia.
  assert (Es : scaled (Zpos a) 1 (k - 52)
               = ((Zpos a * 2 ^ (- (k - 52)))%Z, 1%Z)).
  { unfold scaled. destruct (Z.leb_spec 0 (k - 52)) as [H | H]; [| reflexivity].
    assert (E0 : (k - 52 = 0)%Z) by lia. rewrite E0.
    change (- 0)%Z with 0%Z. change (2 ^ 0)%Z with 1%Z.
    f_equal; lia. }
  rewrite Es, roundHalfEven_unit.
  destruct (Z.ltb_spec 971 (k - 52)) as [H | _]; [lia |].
  destruct (Z.eqb_spec (k - 52) 971) as [H | _]; [lia |].
  cbn [orb andb]. f_equal. apply dyadic_whole. lia.
Qed.

Lemma roundToDouble_whole (z : Z) :
  (Z.abs z < 2 ^ 53)%Z -> roundToDouble (inject_Z z) = Finite (inject_Z z).
Proof.
  intros Hz. unfold roundToDouble. destruct z as [| a | a]; cbn [Qnum Qden inject_Z].
  - reflexivity.
  - apply roundPositive_whole. lia.
  - rewrite roundPositive_whole by lia. reflexivity.
Qed.

(* ================================================================= *)
(** ** Properties of the validity gate *)

Lemma truthy_spec (s : option jsstring) :
  truthy s = true <-> exists t, s = Some t /\ t <> [].
Proof.
  destruct s as [[|c t]|]; simpl; split; intros H; try discriminate.
  - destruct H as (t' & H1 & H2). congruence.
  - exists (c :: t). split; [reflexivity | discriminate].
  - reflexivity.
  - destruct H as (t' & H1 & _). discriminate.
Qed.

Lemma longerThan_spec (A : Type) (n : nat) (xs : option (list A)) :
  longerThan n xs = true <-> exists l, xs = Some l /\ n < List.length l.
Proof.
  destruct xs as [l|]; simpl.
  - rewrite Nat.ltb_lt. split.
    + intros H; exists l; auto.
    + intros (l' & E & H); inversion E; subst; exact H.
  - split; [discriminate | intros (l & E & _); discriminate].
Qed.

Lemma atLeast_spec (A : Type) (n : nat) (xs : option (list A)) :
  atLeast n xs = true <-> exists l, xs = Some l /\ n <= List.length l.
Proof.
  destruct xs as [l|]; simpl.
  - rewrite Nat.leb_le. split.
    + intros H; exists l; auto.
    + intros (l' & E & H); inversion E; subst; exact H.
  - split; [discriminate | intros (l & E & _); discriminate].
Qed.

Lemma isValidRecipe_spec (p : PartialRecipe) :
  isValidRecipe (Some p) = true <->
  exists t ings sts,
    p_title p = Some t /\ t <> [] /\
    p_ingredients p = Some ings /\ 1 <= List.length ings /\
    p_steps p = Some sts /\ 1 <= List.length sts.
Proof.
  unfold isValidRecipe.
  rewrite !andb_true_iff, truthy_spec, !longerThan_spec.
  split.
  - intros [[(t & Ht & Hne) (ings & Hi & Hl)] (sts & Hs & Hls)].
    exists t, ings, sts. repeat split; auto.
  - intros (t & ings & sts & Ht & Hne & Hi & Hl & Hs & Hls).
    repeat split; eauto.
Qed.

(** C1, as stated, fails: a partial record with a non-empty title, exactly
    one ingredient and exactly one step is accepted by [isValidRecipe]. *)
Lemma isValidRecipe_one_of_each_not_rejected :
  ~ (forall p t i s,
       p_title p = Some t -> t <> [] ->
       p_ingredients p = Some [i] -> p_steps p = Some [s] ->
       isValidRecipe (Some p) = false).
Proof.
  intros H.
  specialize (H onePlusOne (js "Shakshuka") _ _ eq_refl
                ltac:(discriminate) eq_refl eq_refl).
  vm_compute in H. discriminate.
Qed.

(** C1 (amended): [isValidRecipe] returns true for a partial record that
    has a non-empty title, exactly one ingredient and exactly one step;
    validity requires a non-empty title and at least one of each, and it is
    the refinement gate [hasGoodData] that asks for two of each. *)
Theorem isValidRecipe_needs_one_of_each (p : PartialRecipe) :
  (forall t i s,
      p_title p = Some t -> t <> [] ->
      p_ingredients p = Some [i] -> p_steps p = Some [s] ->
      isValidRecipe (Some p) = true /\ hasGoodData p = false)
  /\ (isValidRecipe (Some p) = true <->
      exists t ings sts,
        p_title p = Some t /\ t <> [] /\
        p_ingredients p = Some ings /\ 1 <= List.length ings /\
        p_steps p = Some sts /\ 1 <= List.length sts)
  /\ (hasGoodData p = true <->
      exists t ings sts,
        p_title p = Some t /\ t <> [] /\
        p_ingredients p = Some ings /\ 2 <= List.length ings /\
        p_steps p = Some sts /\ 2 <= List.length sts).
Proof.
  split; [| split].
  - intros t i s Ht Hne Hi Hs. split.
    + apply isValidRecipe_spec. exists t, [i], [s]. simpl. repeat split; auto.
    + unfold hasGoodData. rewrite Hi. simpl.
      now rewrite andb_false_r.
  - apply isValidRecipe_spec.
  - unfold hasGoodData.
    rewrite !andb_true_iff, truthy_spec, !atLeast_spec.
    split.
    + intros [[(t & Ht & Hne) (ings & Hi & Hl)] (sts & Hs & Hls)].
      exists t, ings, sts. repeat split; auto.
    + intros (t & ings & sts & Ht & Hne & Hi & Hl & Hs & Hls).
      repeat split; eauto.
Qed.

Lemma isValidRecipe_needs_one_of_each_witness :
  isValidRecipe (Some onePlusOne) = true /\ hasGoodData onePlusOne = false.
Proof.
  apply (proj1 (isValidRecipe_needs_one_of_each onePlusOne)
           (js "Shakshuka") _ _ eq_refl ltac:(discriminate) eq_refl eq_refl).
Defined.

(* ================================================================= *)
(** ** Properties of the AI-assisted extractor *)

Section LLMParserProperties.

Variable generateObject : LLMRequest -> Exc LLMObject.


(** [parseWithLLM] returns exactly when the generation call returns, and
    throws an [Error] otherwise. *)
Lemma parseWithLLM_returns rawText url partialData :
  (forall object,
      generateObject {| req_partialData := partialData;
                        req_text := truncate rawText |} = Returned object ->
      exists r, parseWithLLM generateObject rawText url partialData = Returned r
                /\ title r = o_title object
                /\ ingredients r = o_ingredients object
                /\ steps r = o_steps object)
  /\ (forall e,
      generateObject {| req_partialData := partialData;
                        req_text := truncate rawText |} = Threw e ->
      parseWithLLM generateObject rawText url partialData
      = Threw (ErrorObject (js "Failed to parse recipe with LLM: " ++ errorMessage e))).
Proof.
  unfold parseWithLLM, tryCatch, bind. split.
  - intros object H. rewrite H. eexists. split; [reflexivity|]. simpl. auto.
  - intros e H. rewrite H. reflexivity.
Qed.

Lemma parseWithLLM_full rawText url r :
  parseWithLLM generateObject rawText url None = Returned r ->
  extractionMethod r = llm /\ confidence r = 0.75%Q
  /\ imageUrl r = None /\ author r = None /\ datePublished r = None
  /\ nutrition r = None.
Proof.
  unfold parseWithLLM, tryCatch, bind.
  destruct (generateObject _); intros H; inversion H; subst; simpl.
  repeat split; reflexivity.
Qed.

Lemma parseWithLLM_hybrid rawText url p r :
  parseWithLLM generateObject rawText url (Some p) = Returned r ->
  extractionMethod r = hybrid /\ confidence r = 0.85%Q.
Proof.
  unfold parseWithLLM, tryCatch, bind.
  destruct (generateObject _); intros H; inversion H; subst; simpl.
  split; reflexivity.
Qed.

Lemma hasGoodData_spec (p : PartialRecipe) :
  hasGoodData p = true
  <-> exists t ings sts,
        p_title p = Some t /\ t <> []
        /\ p_ingredients p = Some ings /\ 2 <= List.length ings
        /\ p_steps p = Some sts /\ 2 <= List.length sts.
Proof.
  unfold hasGoodData, atLeast, truthy. split.
  - intros H. apply andb_true_iff in H as [H Hs].
    apply andb_true_iff in H as [Ht Hi].
    destruct (p_title p) as [t |]; [| discriminate].
    destruct (p_ingredients p) as [ings |]; [| discriminate].
    destruct (p_steps p) as [sts |]; [| discriminate].
    exists t, ings, sts. apply Nat.leb_le in Hi, Hs.
    repeat split; auto. intros ->. discriminate.
  - intros (t & ings & sts & Ht & Hne & Hi & Hli & Hs & Hls).
    rewrite Ht, Hi, Hs. apply Nat.leb_le in Hli, Hls. rewrite Hli, Hls.
    destruct t; [congruence | reflexivity].
Qed.

(** C6: a recipe produced by [parseWithLLM] from raw text with no
    structured partial has the full-extraction method tag (['llm'] in the
    code) and confidence 0.75; a recipe produced by [parseWithLLM] from a
    structured partial has the tag ['hybrid'] and confidence 0.85.
    [refineRecipe] refines only a partial with a title and at least two
    ingredients and two steps: a recipe it returns is then ['hybrid'] with
    0.85; for any other partial it is a full extraction, ['llm'] with 0.75.
    A recipe is produced whenever the generation call returns. *)
Theorem confidence_follows_extraction_mode (rawText url : jsstring) :
  (forall r,
      parseWithLLM generateObject rawText url None = Returned r ->
      extractionMethod r = llm /\ confidence r = 0.75%Q)
  /\ (forall p r,
      parseWithLLM generateObject rawText url (Some p) = Returned r ->
      extractionMethod r = hybrid /\ confidence r = 0.85%Q)
  /\ (forall p r,
      refineRecipe generateObject p rawText url = Returned r ->
      (extractionMethod r = hybrid /\ confidence r = 0.85%Q
       /\ exists t ings sts,
            p_title p = Some t /\ t <> []
            /\ p_ingredients p = Some ings /\ 2 <= List.length ings
            /\ p_steps p = Some sts /\ 2 <= List.length sts)
      \/ (extractionMethod r = llm /\ confidence r = 0.75%Q
          /\ ~ exists t ings sts,
                 p_title p = Some t /\ t <> []
                 /\ p_ingredients p = Some ings /\ 2 <= List.length ings
                 /\ p_steps p = Some sts /\ 2 <= List.length sts))
  /\ (forall partialData object,
      generateObject {| req_partialData := partialData;
                        req_text := truncate rawText |} = Returned object ->
      exists r, parseWithLLM generateObject rawText url partialData = Returned r)
  /\ (forall p object,
      generateObject {| req_partialData := if hasGoodData p then Some p else None;
                        req_text := truncate rawText |} = Returned object ->
      exists r, refineRecipe generateObject p rawText url = Returned r).
Proof.
  split; [| split; [| split; [| split]]].
  - intros r H. destruct (parseWithLLM_full _ _ H) as (H1 & H2 & _). auto.
  - intros p r H. exact (parseWithLLM_hybrid _ _ _ H).
  - intros p r H. unfold refineRecipe in H.
    destruct (hasGoodData p) eqn:Hg.
    + left. destruct (parseWithLLM_hybrid _ _ _ H) as [H1 H2].
      split; [exact H1 | split; [exact H2 |]].
      now apply hasGoodData_spec.
    + right. destruct (parseWithLLM_full _ _ H) as (H1 & H2 & _).
      split; [exact H1 | split; [exact H2 |]].
      intros Hgood. apply hasGoodData_spec in Hgood. congruence.
  - intros partialData object H.
    destruct (proj1 (parseWithLLM_returns rawText url partialData) _ H)
      as (r & Hr & _).
    exists r. exact Hr.
  - intros p object H. unfold refineRecipe.
    destruct (hasGoodData p);
      destruct (proj1 (parseWithLLM_returns rawText url _) _ H) as (r & Hr & _);
      exists r; exact Hr.
Qed.

(** C10: for a structured partial that passes [isValidRecipe] but has
    fewer than two ingredients or fewer than two steps, [refineRecipe]
    performs the full extraction, without the partial data: the recipe it
    returns has the full-extraction tag and confidence 0.75, and nothing of
    the partial's imageUrl, author, datePublished and nutrition. *)
Theorem refineRecipe_thin_partial_is_full_extraction
    (p : PartialRecipe) (rawText url : jsstring) (ings : list Ingredient)
    (sts : list jsstring) :
  isValidRecipe (Some p) = true ->
  p_ingredients p = Some ings -> p_steps p = Some sts ->
  List.length ings < 2 \/ List.length sts < 2 ->
  refineRecipe generateObject p rawText url
  = parseWithLLM generateObject rawText url None
  /\ (forall r,
        refineRecipe generateObject p rawText url = Returned r ->
        extractionMethod r = llm /\ confidence r = 0.75%Q
        /\ imageUrl r = None /\ author r = None /\ datePublished r = None
        /\ nutrition r = None)
  /\ (forall object,
        generateObject {| req_partialData := None;
                          req_text := truncate rawText |} = Returned object ->
        exists r, refineRecipe generateObject p rawText url = Returned r).
Proof.
  intros _ Hi Hs Hthin.
  assert (Hg : hasGoodData p = false).
  { unfold hasGoodData, atLeast. rewrite Hi, Hs.
    destruct Hthin as [H | H]; apply Nat.leb_gt in H; rewrite H;
      rewrite ?andb_false_r; reflexivity. }
  assert (E : refineRecipe generateObject p rawText url
              = parseWithLLM generateObject rawText url None).
  { unfold refineRecipe. now rewrite Hg. }
  split; [exact E | split].
  - intros r H. rewrite E in H. exact (parseWithLLM_full _ _ H).
  - intros object H. rewrite E.
    destruct (proj1 (parseWithLLM_returns rawText url None) _ H) as (r & Hr & _).
    exists r. exact Hr.
Qed.

End LLMParserProperties.

(** The structured partial [onePlusOne] passes [isValidRecipe], and the
    recipe [refineRecipe] produces from it is not ['hybrid'] with 0.85. *)
Lemma refineRecipe_not_always_hybrid :
  isValidRecipe (Some onePlusOne) = true
  /\ exists r,
       refineRecipe Sample.generationAnswers onePlusOne
                    (cleanedText Sample.page) Sample.address = Returned r
       /\ extractionMethod r = llm /\ confidence r = 0.75%Q
       /\ ~ (extractionMethod r = hybrid /\ confidence r = 0.85%Q).
Proof.
  split; [reflexivity |].
  eexists. split; [vm_compute; reflexivity |].
  split; [reflexivity | split; [reflexivity |]].
  intros [H _]. discriminate H.
Qed.

Lemma confidence_follows_extraction_mode_witness :
  (exists r,
    parseWithLLM Sample.generationAnswers (cleanedText Sample.page)
                 Sample.address None = Returned r
    /\ extractionMethod r = llm /\ confidence r = 0.75%Q)
  /\ (exists r,
    refineRecipe Sample.generationAnswers Sample.twoPlusTwo (cleanedText Sample.page)
                 Sample.address = Returned r
    /\ extractionMethod r = hybrid /\ confidence r = 0.85%Q)
  /\ (exists r,
    refineRecipe Sample.generationAnswers onePlusOne (cleanedText Sample.page)
                 Sample.address = Returned r
    /\ extractionMethod r = llm /\ confidence r = 0.75%Q).
Proof.
  pose proof (confidence_follows_extraction_mode Sample.generationAnswers
                (cleanedText Sample.page) Sample.address)
    as (Hfull & _ & Hrefine & _).
  split; [| split].
  - eexists. split; [vm_compute; reflexivity |].
    apply Hfull. vm_compute. reflexivity.
  - eexists. split; [vm_compute; reflexivity |].
    destruct (Hrefine Sample.twoPlusTwo _ eq_refl) as [(H1 & H2 & _) | (_ & _ & Hn)].
    + split; [exact H1 | exact H2].
    + exfalso. apply Hn.
      apply (proj1 (hasGoodData_spec Sample.twoPlusTwo)). reflexivity.
  - eexists. split; [vm_compute; reflexivity |].
    destruct (Hrefine onePlusOne _ eq_refl) as [(_ & _ & Hg) | (H1 & H2 & _)].
    + exfalso. apply (proj2 (hasGoodData_spec onePlusOne)) in Hg. discriminate Hg.
    + split; [exact H1 | exact H2].
Defined.

Lemma refineRecipe_thin_partial_is_full_extraction_witness :
  exists r,
    refineRecipe Sample.generationAnswers onePlusOne
                 (cleanedText Sample.page) Sample.address = Returned r
    /\ extractionMethod r = llm /\ confidence r = 0.75%Q
    /\ imageUrl r = None /\ author r = None /\ datePublished r = None
    /\ nutrition r = None.
Proof.
  eexists. split; [vm_compute; reflexivity |].
  refine (proj1 (proj2 (@refineRecipe_thin_partial_is_full_extraction
                   Sample.generationAnswers onePlusOne
                   (cleanedText Sample.page) Sample.address
                   _ _ _ eq_refl eq_refl _)) _ _).
  - vm_compute. reflexivity.
  - left. simpl. lia.
  - vm_compute. reflexivity.
Defined.

(* ================================================================= *)
(** ** Properties of the orchestrator *)

Section OrchestratorProperties.

Variable options : ExtractorOptions.
Variable newURL : jsstring -> Exc Datatypes.unit.
Variable smartFetch : jsstring -> Z -> Exc FetchResult.
Variable parseRecipeFromHtml : jsstring -> jsstring -> Exc (option PartialRecipe).
Variable hasApiKey : bool.
Variable generateObject : LLMRequest -> Exc LLMObject.
Variable extractImageFromHtml : jsstring -> option jsstring.
Variables startTime finishTime : Z.


Lemma wellFormed_failed message ws :
  wellFormed (failed startTime finishTime message ws).
Proof. right. simpl. eauto. Qed.

Lemma wellFormed_succeeded r ws :
  wellFormed (succeeded startTime finishTime r ws).
Proof. left. simpl. eauto. Qed.

Lemma isFailure_failed message ws :
  isFailure (failed startTime finishTime message ws) message.
Proof. unfold isFailure. simpl. auto. Qed.

Lemma fullExtraction_wellFormed jsonLdRecipe fetched url ws :
  wellFormed (fullExtraction options hasApiKey generateObject
                extractImageFromHtml startTime finishTime
                jsonLdRecipe fetched url ws).
Proof.
  unfold fullExtraction.
  destruct (useLlm options); simpl; [| apply wellFormed_failed].
  destruct hasApiKey; simpl; [| apply wellFormed_failed].
  destruct (parseWithLLM _ _ _ _);
    [apply wellFormed_succeeded | apply wellFormed_failed].
Qed.

Lemma invalid_gate jsonLdRecipe :
  isValidRecipe jsonLdRecipe = false ->
  (if isValidRecipe jsonLdRecipe then jsonLdRecipe else None) = None.
Proof. intros H. now rewrite H. Qed.

(** Whatever [parseRecipeFromHtml] throws leaves [extract]. *)
Lemma extract_lets_the_parse_throw (url : jsstring) u fetched e :
  newURL url = Returned u ->
  smartFetch url (timeout options) = Returned fetched ->
  parseRecipeFromHtml (html fetched) url = Threw e ->
  extract options newURL smartFetch parseRecipeFromHtml hasApiKey
          generateObject extractImageFromHtml startTime finishTime url
  = Threw e.
Proof.
  intros H1 H2 H3. unfold extract. now rewrite H1, H2, H3.
Qed.

(** When [parseRecipeFromHtml] does not throw, [extract] returns a
    well-formed result. *)
Lemma extract_wellFormed_unless_parse_throws (url : jsstring) :
  (forall fetched e,
      smartFetch url (timeout options) = Returned fetched ->
      parseRecipeFromHtml (html fetched) url <> Threw e) ->
  exists r, extract options newURL smartFetch parseRecipeFromHtml hasApiKey
              generateObject extractImageFromHtml startTime finishTime url
            = Returned r /\ wellFormed r.
Proof.
  intros Hparse. unfold extract.
  destruct (newURL url); [| eexists; split; [reflexivity | apply wellFormed_failed]].
  destruct (smartFetch url _) as [fetched | e] eqn:Ef;
    [| eexists; split; [reflexivity | apply wellFormed_failed]].
  destruct (parseRecipeFromHtml (html fetched) url) as [parsed | e] eqn:Ep;
    [| exfalso; exact (Hparse fetched e eq_refl Ep)].
  cbn [bind].
  destruct (if isValidRecipe _ then _ else None) as [valid |].
  - destruct (tryRefine _ _ _ _ _ _ _ _ _) as [result | ws] eqn:E.
    + eexists; split; [reflexivity |].
      unfold tryRefine in E.
      destruct (useLlm options && hasApiKey); [| discriminate].
      destruct (refineRecipe _ _ _ _); inversion E.
      apply wellFormed_succeeded.
    + eexists; split; [reflexivity | apply wellFormed_succeeded].
  - eexists; split; [reflexivity | apply fullExtraction_wellFormed].
Qed.

(** In each of the five failure cases [extract] returns the failure with
    the message of the case. *)
Lemma extract_failure_cases (url message : jsstring) :
  FailureCase options newURL smartFetch parseRecipeFromHtml hasApiKey
              generateObject url message ->
  exists r, extract options newURL smartFetch parseRecipeFromHtml hasApiKey
              generateObject extractImageFromHtml startTime finishTime url
            = Returned r /\ isFailure r message.
Proof.
  intros H. unfold extract.
  destruct H as [e H | u e H1 H2 | u fetched parsed H1 H2 Hp H3 H4
                 | u fetched parsed H1 H2 Hp H3 H4 H5
                 | u fetched parsed e H1 H2 Hp H3 H4 H5 H6].
  - rewrite H. eexists; split; [reflexivity | apply isFailure_failed].
  - rewrite H1, H2. eexists; split; [reflexivity | apply isFailure_failed].
  - rewrite H1, H2, Hp. cbn [bind].
    rewrite (invalid_gate _ H3). unfold fullExtraction. rewrite H4.
    eexists; split; [reflexivity | apply isFailure_failed].
  - rewrite H1, H2, Hp. cbn [bind].
    rewrite (invalid_gate _ H3). unfold fullExtraction. rewrite H4, H5.
    eexists; split; [reflexivity | apply isFailure_failed].
  - rewrite H1, H2, Hp. cbn [bind].
    rewrite (invalid_gate _ H3). unfold fullExtraction.
    rewrite H4, H5, H6.
    eexists; split; [reflexivity | apply isFailure_failed].
Qed.

(** C7: [extract] does throw.  The call of [parseRecipeFromHtml] is the
    one fallible step it does not wrap in a [try], and that function
    throws a TypeError on markup that is not typed as it expects: on the
    page of [Sample.illTypedScripts], whose recipe has a step with a list
    for its text, [extract] throws, however the record is read afterwards.
    Whatever the parse throws leaves [extract]; when the parse does not
    throw the claim holds: the result is well formed, and each of the five
    failure cases gives the failure with its message. *)
Theorem extract_throws_on_ill_typed_markup (url : jsstring) :
  (forall view,
      extract DEFAULT_OPTIONS Sample.newURL Sample.fetchPage
              (structuredParse toLowerCaseBasic Sample.illTypedScripts view)
              true Sample.generationAnswers Sample.noImage 0 1250
              Sample.address
      = Threw (ErrorObject (js "subItem.text.trim is not a function")))
  /\ (forall u fetched e,
      newURL url = Returned u ->
      smartFetch url (timeout options) = Returned fetched ->
      parseRecipeFromHtml (html fetched) url = Threw e ->
      extract options newURL smartFetch parseRecipeFromHtml hasApiKey
              generateObject extractImageFromHtml startTime finishTime url
      = Threw e)
  /\ ((forall fetched e,
        smartFetch url (timeout options) = Returned fetched ->
        parseRecipeFromHtml (html fetched) url <> Threw e) ->
      exists r, extract options newURL smartFetch parseRecipeFromHtml hasApiKey
                  generateObject extractImageFromHtml startTime finishTime url
                = Returned r /\ wellFormed r)
  /\ (forall message,
        FailureCase options newURL smartFetch parseRecipeFromHtml hasApiKey
                    generateObject url message ->
        exists r, extract options newURL smartFetch parseRecipeFromHtml hasApiKey
                    generateObject extractImageFromHtml startTime finishTime url
                  = Returned r /\ isFailure r message).
Proof.
  split; [| split; [| split]].
  - intros view. vm_compute. reflexivity.
  - intros u fetched e. apply extract_lets_the_parse_throw.
  - apply extract_wellFormed_unless_parse_throws.
  - intros message. apply extract_failure_cases.
Qed.

(** C2: when the structured parse produced a record satisfying
    [isValidRecipe] and the AI refinement call throws, [extract] still
    returns a successful result.  Its recipe is the structured-only record:
    every field of the structured parse is carried over (an absent or
    empty one as null, an absent list or meta as the empty one), with the
    address asked for, the structured method tag (['json-ld'] in the code)
    and confidence 0.9; and its warnings list is the refinement-failure
    warning. *)
Theorem refinement_failure_keeps_structured_record
    (url : jsstring) (u : Datatypes.unit) (fetched : FetchResult)
    (p : PartialRecipe) (e : thrown) :
  newURL url = Returned u ->
  smartFetch url (timeout options) = Returned fetched ->
  parseRecipeFromHtml (html fetched) url = Returned (Some p) ->
  isValidRecipe (Some p) = true ->
  useLlm options = true ->
  hasApiKey = true ->
  refineRecipe generateObject p (cleanedText fetched) url = Threw e ->
  exists r rec,
    extract options newURL smartFetch parseRecipeFromHtml hasApiKey
            generateObject extractImageFromHtml startTime finishTime url = Returned r
    /\ success r = true /\ error r = None
    /\ recipe r = Some rec /\ rec = structuredOnly p url
    /\ extractionMethod rec = json_ld /\ confidence rec = 0.9%Q
    /\ p_title p = Some (title rec)
    /\ p_ingredients p = Some (ingredients rec)
    /\ p_steps p = Some (steps rec)
    /\ description rec = orNull (p_description p)
    /\ language rec = orDefault (p_language p) en
    /\ sourceUrl rec = url
    /\ imageUrl rec = orNull (p_imageUrl p)
    /\ author rec = orNull (p_author p)
    /\ datePublished rec = orNull (p_datePublished p)
    /\ tips rec = orDefault (p_tips p) []
    /\ meta rec = orDefault (p_meta p) emptyMeta
    /\ nutrition rec = p_nutrition p
    /\ kashrut rec = None /\ rawText rec = None
    /\ warnings r = [js "LLM refinement failed: " ++ errorMessage e].
Proof.
  intros H1 H2 H3 H4 H5 H6 H7.
  destruct (proj1 (isValidRecipe_spec p) H4)
    as (t & ings & sts & Ht & Hne & Hi & _ & Hs & _).
  exists (succeeded startTime finishTime (structuredOnly p url)
            [js "LLM refinement failed: " ++ errorMessage e]),
         (structuredOnly p url).
  split.
  - unfold extract. rewrite H1, H2, H3. cbn [bind]. rewrite H4.
    unfold tryRefine. rewrite H5, H6, H7. reflexivity.
  - simpl. rewrite Ht, Hi, Hs. simpl.
    destruct t as [| c t']; [congruence |].
    repeat split; reflexivity.
Qed.

(** Scenario E: with no structured markup on the page, a recipe returned
    by [extract] is the AI extractor's, tagged ['llm'] with confidence 0.75. *)
Lemma extract_without_markup_is_full_extraction
    (url : jsstring) (u : Datatypes.unit) (fetched : FetchResult)
    (r : ExtractionResult) (rec : Recipe) :
  newURL url = Returned u ->
  smartFetch url (timeout options) = Returned fetched ->
  parseRecipeFromHtml (html fetched) url = Returned None ->
  extract options newURL smartFetch parseRecipeFromHtml hasApiKey
            generateObject extractImageFromHtml startTime finishTime url = Returned r -> recipe r = Some rec ->
  extractionMethod rec = llm /\ confidence rec = 0.75%Q.
Proof.
  intros H1 H2 H3 Hrun Hrec. unfold extract in Hrun.
  rewrite H1, H2, H3 in Hrun. simpl in Hrun. unfold fullExtraction in Hrun.
  destruct (useLlm options); simpl in Hrun;
    [| inversion Hrun; subst; discriminate].
  destruct hasApiKey; simpl in Hrun; [| inversion Hrun; subst; discriminate].
  destruct (parseWithLLM _ _ _ _) as [full | e] eqn:E;
    [| inversion Hrun; subst; discriminate].
  destruct (parseWithLLM_full _ _ _ E) as (Hm & Hc & _).
  inversion Hrun; subst; clear Hrun. simpl in Hrec.
  destruct (orNull (imageUrl full)); inversion Hrec; subst; simpl; auto.
Qed.

End OrchestratorProperties.

(** The five failure cases on sample collaborators. *)
Example extract_failure_messages :
  (exists r,
      extract DEFAULT_OPTIONS Sample.newURL Sample.fetchPage Sample.noMarkup
              true Sample.generationAnswers Sample.noImage 0 1250
              (js "shakshuka") = Returned r
      /\ isFailure r (js "Invalid URL provided"))
  /\ (exists r,
      extract DEFAULT_OPTIONS Sample.newURL Sample.fetchDown Sample.noMarkup
              true Sample.generationAnswers Sample.noImage 0 1250
              Sample.address = Returned r
      /\ isFailure r (js "Failed to fetch URL: "
                      ++ errorMessage (ErrorObject (js "getaddrinfo ENOTFOUND"))))
  /\ (exists r,
      extract {| useLlm := false; timeout := 30000 |}
              Sample.newURL Sample.fetchPage Sample.noMarkup
              true Sample.generationAnswers Sample.noImage 0 1250
              Sample.address = Returned r
      /\ isFailure r (js "No structured data found and LLM extraction is disabled"))
  /\ (exists r,
      extract DEFAULT_OPTIONS Sample.newURL Sample.fetchPage Sample.noMarkup
              false Sample.generationAnswers Sample.noImage 0 1250
              Sample.address = Returned r
      /\ isFailure r (js "No structured data found and ANTHROPIC_API_KEY is not set"))
  /\ (exists r,
      extract DEFAULT_OPTIONS Sample.newURL Sample.fetchPage Sample.noMarkup
              true Sample.generationFails Sample.noImage 0 1250
              Sample.address = Returned r
      /\ isFailure r
           (js "LLM extraction failed: "
            ++ errorMessage (ErrorObject
                 (js "Failed to parse recipe with LLM: "
                  ++ errorMessage (ErrorObject (js "response did not match schema")))))).
Proof.
  repeat split.
  - apply extract_failure_cases.
    eapply MalformedURL. vm_compute. reflexivity.
  - apply extract_failure_cases.
    eapply FetchError; vm_compute; reflexivity.
  - apply extract_failure_cases.
    eapply NoDataAIDisabled; vm_compute; reflexivity.
  - apply extract_failure_cases.
    eapply NoDataNoKey; vm_compute; reflexivity.
  - apply extract_failure_cases.
    eapply AIExtractionFailure; vm_compute; reflexivity.
Qed.

Lemma refinement_failure_keeps_structured_record_witness :
  exists r rec,
    extract DEFAULT_OPTIONS Sample.newURL Sample.fetchPage
            (Sample.foundRecipe Sample.twoPlusTwo) true
            Sample.generationFails Sample.noImage 0 1250 Sample.address
    = Returned r
    /\ success r = true /\ error r = None
    /\ recipe r = Some rec
    /\ rec = structuredOnly Sample.twoPlusTwo Sample.address
    /\ extractionMethod rec = json_ld /\ confidence rec = 0.9%Q
    /\ p_title Sample.twoPlusTwo = Some (title rec)
    /\ p_ingredients Sample.twoPlusTwo = Some (ingredients rec)
    /\ p_steps Sample.twoPlusTwo = Some (steps rec)
    /\ description rec = orNull (p_description Sample.twoPlusTwo)
    /\ language rec = orDefault (p_language Sample.twoPlusTwo) en
    /\ sourceUrl rec = Sample.address
    /\ imageUrl rec = orNull (p_imageUrl Sample.twoPlusTwo)
    /\ author rec = orNull (p_author Sample.twoPlusTwo)
    /\ datePublished rec = orNull (p_datePublished Sample.twoPlusTwo)
    /\ tips rec = orDefault (p_tips Sample.twoPlusTwo) []
    /\ meta rec = orDefault (p_meta Sample.twoPlusTwo) emptyMeta
    /\ nutrition rec = p_nutrition Sample.twoPlusTwo
    /\ kashrut rec = None /\ rawText rec = None
    /\ warnings r =
       [js "LLM refinement failed: " ++
        errorMessage (ErrorObject
          (js "Failed to parse recipe with LLM: response did not match schema"))].
Proof.
  apply (@refinement_failure_keeps_structured_record
           DEFAULT_OPTIONS Sample.newURL Sample.fetchPage
           (Sample.foundRecipe Sample.twoPlusTwo) true
           Sample.generationFails Sample.noImage 0 1250
           Sample.address tt Sample.page Sample.twoPlusTwo);
    vm_compute; reflexivity.
Defined.


(* ================================================================= *)
(** ** Properties of the normaliser *)

(** *** Why the compound fraction words are never selected *)

Lemma startsWith_app (s w q : jsstring) :
  startsWith s (w ++ q) = true -> startsWith s w = true.
Proof.
  revert s. induction w as [| x w IH]; intros s H; [destruct s; reflexivity |].
  destruct s as [| c s]; simpl in *; [discriminate |].
  apply andb_true_iff in H as [Hx H]. rewrite Hx. simpl. now apply IH.
Qed.

Lemma includes_head (s w : jsstring) :
  startsWith s w = true -> includes s w = true.
Proof. intros H. destruct s; cbn [includes]; now rewrite H. Qed.

Lemma includes_tail (c : N) (s w : jsstring) :
  includes s w = true -> includes (c :: s) w = true.
Proof. intros H. cbn [includes]. rewrite H. apply orb_true_r. Qed.

Lemma startsWith_infix (p w q s : jsstring) :
  startsWith s (p ++ w ++ q) = true -> includes s w = true.
Proof.
  revert s. induction p as [| x p IH]; intros s H.
  - apply includes_head. exact (startsWith_app s w q H).
  - destruct s as [| c s]; simpl in H; [discriminate |].
    apply andb_true_iff in H as [_ H]. apply includes_tail. now apply IH.
Qed.

(** A text that contains a word contains every infix of the word. *)
Lemma includes_infix (p w q s : jsstring) :
  includes s (p ++ w ++ q) = true -> includes s w = true.
Proof.
  induction s as [| c s IH]; intros H.
  - cbn [includes] in H. rewrite orb_false_r in H.
    exact (startsWith_infix p w q _ H).
  - change (includes (c :: s) (p ++ w ++ q))
      with (startsWith (c :: s) (p ++ w ++ q) || includes s (p ++ w ++ q)) in H.
    apply orb_true_iff in H as [H | H].
    + exact (startsWith_infix p w q _ H).
    + apply includes_tail. now apply IH.
Qed.

(** Whatever the text, when it contains the word for two thirds or the
    word for three quarters the quantity step answers with the value of an
    earlier, shorter entry: 0.5, 0.25 or 0.333. *)
Lemma compound_fraction_words_never_selected
    (toLowerCase : jsstring -> jsstring) (text : jsstring) :
  includes text (js "שני שליש") = true
  \/ includes text (js "שלושת רבעי") = true ->
  In (fst (extractQuantity toLowerCase text))
     [Some (lit 0.5); Some (lit 0.25); Some (lit 0.333)].
Proof.
  intros H.
  assert (Hshort : includes text (js "רבע") = true
                   \/ includes text (js "שליש") = true).
  { destruct H as [H | H].
    - right. apply (includes_infix (js "שני ") (js "שליש") [] text).
      exact H.
    - left. apply (includes_infix (js "שלושת ") (js "רבע") (js "י") text).
      exact H. }
  unfold extractQuantity, firstEntry, HEBREW_FRACTION_MAP.
  cbn [find fst].
  destruct (includes text (js "חצי")); [simpl; auto |].
  destruct (includes text (js "רבע")); [simpl; auto |].
  destruct Hshort as [Hs | Hs]; [discriminate |].
  rewrite Hs. simpl. auto.
Qed.

(** *** Why the slash and mixed rules are not reached *)

Lemma digit_cases (c : N) :
  isDigit c = true ->
  (c = 48 \/ c = 49 \/ c = 50 \/ c = 51 \/ c = 52 \/ c = 53 \/ c = 54
   \/ c = 55 \/ c = 56 \/ c = 57)%N.
Proof.
  unfold isDigit. intros H. apply andb_true_iff in H as [H1 H2].
  apply N.leb_le in H1. apply N.leb_le in H2. lia.
Qed.

(** [parseFloat] succeeds on every text that starts with a digit. *)
Lemma parseFloat_leading_digit (c : N) (r : jsstring) :
  isDigit c = true -> num_isNaN (parseFloat (c :: r)) = false.
Proof.
  intros Hc. unfold parseFloat.
  assert (E : stripSign (trimStart (c :: r)) = (false, c :: r)).
  { destruct (digit_cases _ Hc) as [-> | [-> | [-> | [-> | [-> | [-> | [->
      | [-> | [-> | ->]]]]]]]]]; reflexivity. }
  rewrite E.
  assert (Ei : startsWith (c :: r) (js "Infinity") = false).
  { destruct (digit_cases _ Hc) as [-> | [-> | [-> | [-> | [-> | [-> | [->
      | [-> | [-> | ->]]]]]]]]]; reflexivity. }
  rewrite Ei. cbn [takeWhile]. rewrite Hc.
  destruct (fractionDigits _) as [fp r2]. cbn [app].
  apply roundToDouble_notNaN.
Qed.

(** So a numeral run that starts with a digit, and is neither a fraction
    word nor a number word, gets the value of its leading decimal. *)
Lemma digit_first_run_is_read_by_parseFloat
    (toLowerCase : jsstring -> jsstring) (text : jsstring) (c : N) (r : jsstring) :
  toLowerCase (trim text) = c :: r -> isDigit c = true ->
  firstEntry (fun word => includes (c :: r) word) HEBREW_FRACTION_MAP = None ->
  firstEntry (fun word => str_eqb (c :: r) word) HEBREW_NUMBER_MAP = None ->
  parseHebrewNumber toLowerCase text = Some (parseFloat (c :: r)).
Proof.
  intros Ht Hc Hf Hn. unfold parseHebrewNumber. cbv zeta.
  rewrite Ht, Hf, Hn, (@parseFloat_leading_digit c r Hc). reflexivity.
Qed.

Lemma fractionMatch_suffix (pre t : jsstring) :
  fractionAt t <> None -> fractionMatch (pre ++ t) <> None.
Proof.
  intros H. induction pre as [| c pre IH].
  - destruct t; cbn [fractionMatch app]; destruct (fractionAt _); congruence.
  - cbn [fractionMatch app].
    destruct (fractionAt (c :: pre ++ t)); [discriminate | exact IH].
Qed.

Lemma dropWhile_suffix (p : N -> bool) (s : jsstring) :
  exists pre, s = pre ++ dropWhile p s.
Proof.
  induction s as [| c s [pre E]]; [exists []; reflexivity |].
  simpl. destruct (p c); [| exists []; reflexivity].
  exists (c :: pre). simpl. now rewrite <- E.
Qed.

Lemma mixedAt_has_fraction (t : jsstring) :
  mixedAt t <> None -> exists pre u, t = pre ++ u /\ fractionAt u <> None.
Proof.
  unfold mixedAt. intros H.
  destruct (takeWhile isDigit t); [congruence |].
  destruct (takeWhile isWhiteSpace (dropWhile isDigit t)); [congruence |].
  destruct (dropWhile_suffix isDigit t) as [p1 E1].
  destruct (dropWhile_suffix isWhiteSpace (dropWhile isDigit t)) as [p2 E2].
  exists (p1 ++ p2), (dropWhile isWhiteSpace (dropWhile isDigit t)).
  split.
  - rewrite <- app_assoc, <- E2. exact E1.
  - destruct (fractionAt _); congruence.
Qed.

(** The mixed-number rule comes after the slash rule, and wherever the
    mixed pattern matches the slash pattern matches too: the last rule of
    [parseHebrewNumber] never fires. *)
Lemma mixed_rule_is_dead (s : jsstring) :
  fractionMatch s = None -> mixedMatch s = None.
Proof.
  intros Hf. destruct (mixedMatch s) eqn:Hm; [exfalso | reflexivity].
  assert (H : exists pre t, s = pre ++ t /\ mixedAt t <> None).
  { clear Hf. revert Hm. induction s as [| c s IH]; intros Hm.
    - exists [], []. split; [reflexivity |]. cbn [mixedMatch] in Hm.
      destruct (mixedAt []); congruence.
    - cbn [mixedMatch] in Hm. destruct (mixedAt (c :: s)) eqn:E.
      + exists [], (c :: s). split; [reflexivity | congruence].
      + destruct (IH Hm) as (pre & t & Es & Ht).
        exists (c :: pre), t. split; [simpl; now rewrite Es | exact Ht]. }
  destruct H as (pre & t & Es & Ht).
  destruct (@mixedAt_has_fraction t Ht) as (pre' & u & Et & Hu).
  apply (@fractionMatch_suffix (pre ++ pre') u Hu).
  rewrite <- app_assoc, <- Et, <- Es. exact Hf.
Qed.

(** C3: on the input "2 כוסות קמח" the parser finds quantity 2, unit
    [cup] and no comment, but the unit removal deletes the first unit word
    of the table that occurs in the text, "כוס", which is a prefix of
    "כוסות": the item returned is "ות קמח", not "קמח". *)
Theorem parseIngredient_two_cups_of_flour :
  parseIngredient toLowerCaseBasic (js "2 כוסות קמח")
  = {| original := js "2 כוסות קמח";
       item := js "ות קמח";
       quantity := Some (Finite 2);
       unit := Some Units.cup;
       comments := None |}.
Proof. vm_compute. reflexivity. Qed.

(** C4: the fraction loop stops at the first table entry that occurs in
    the text, and "שליש" and "רבע" come before "שני שליש" and
    "שלושת רבעי", which contain them: a line that starts with the word for
    two thirds is given 0.333, one that starts with the word for three
    quarters 0.25, whatever [toLowerCase] does. *)
Theorem parseIngredient_compound_fraction_words
    (toLowerCase : jsstring -> jsstring) :
  quantity (parseIngredient toLowerCase (js "שני שליש כוס סוכר"))
  = Some (lit 0.333)
  /\ quantity (parseIngredient toLowerCase (js "שלושת רבעי כוס סוכר"))
     = Some (lit 0.25)
  /\ firstEntry (fun word => str_eqb word (js "שני שליש")) HEBREW_FRACTION_MAP
     = Some (js "שני שליש", lit 0.667)
  /\ firstEntry (fun word => str_eqb word (js "שלושת רבעי")) HEBREW_FRACTION_MAP
     = Some (js "שלושת רבעי", lit 0.75).
Proof. repeat split; vm_compute; reflexivity. Qed.

(** C5: [parseHebrewNumber] tries [parseFloat] before the slash and mixed
    rules, and [parseFloat] succeeds on any text that starts with a digit:
    "1/2 cup sugar" and "1 1/2 cups flour" both get quantity 1, not 0.5
    and 1.5. *)
Theorem parseIngredient_slash_and_mixed_fractions :
  quantity (parseIngredient toLowerCaseBasic (js "1/2 cup sugar"))
  = Some (Finite 1)
  /\ quantity (parseIngredient toLowerCaseBasic (js "1 1/2 cups flour"))
     = Some (Finite 1)
  /\ parseHebrewNumber toLowerCaseBasic (js "1/2 ") = Some (Finite 1)
  /\ parseHebrewNumber toLowerCaseBasic (js "1 1/2 ") = Some (Finite 1).
Proof. repeat split; vm_compute; reflexivity. Qed.

(** C9: for every line whose trimmed text is non-empty, the item of the
    ingredient returned by [parseIngredient] is non-empty: it is the parsed
    item when parsing left one, and the whole trimmed line, which is the
    [original] field, when parsing left nothing. *)
Theorem parseIngredient_item_never_empty
    (toLowerCase : jsstring -> jsstring) (line : jsstring) :
  trim line <> [] ->
  item (parseIngredient toLowerCase line) <> []
  /\ original (parseIngredient toLowerCase line) = trim line
  /\ (parsedItem toLowerCase line = [] ->
      item (parseIngredient toLowerCase line) = trim line)
  /\ (parsedItem toLowerCase line <> [] ->
      item (parseIngredient toLowerCase line) = parsedItem toLowerCase line).
Proof.
  intros Hne. unfold parseIngredient.
  destruct (extractComment (trim line)) as [cm item0].
  destruct (extractQuantity toLowerCase item0) as [qty item1].
  simpl. unfold orElse.
  destruct (parsedItem toLowerCase line) as [| c rest].
  - repeat split; auto. intros H. now contradiction H.
  - repeat split; auto; discriminate.
Qed.

Lemma parseIngredient_item_never_empty_witness :
  item (parseIngredient toLowerCaseBasic (js " 2 cups ")) <> []
  /\ parsedItem toLowerCaseBasic (js " 2 cups ") = []
  /\ item (parseIngredient toLowerCaseBasic (js " 2 cups ")) = js "2 cups".
Proof.
  assert (Hne : trim (js " 2 cups ") <> []) by (vm_compute; discriminate).
  pose proof (@parseIngredient_item_never_empty toLowerCaseBasic
                (js " 2 cups ") Hne)
    as (H1 & _ & H3 & _).
  assert (Hp : parsedItem toLowerCaseBasic (js " 2 cups ") = [])
    by (vm_compute; reflexivity).
  split; [exact H1 | split; [exact Hp |]].
  rewrite (H3 Hp). vm_compute. reflexivity.
Defined.

(* ================================================================= *)
(** ** Properties of quantity formatting *)

Lemma str_eqb_true (a b : jsstring) : str_eqb a b = true <-> a = b.
Proof.
  unfold str_eqb. destruct (list_eq_dec N.eq_dec a b); split; congruence.
Qed.

Lemma str_eqb_false (a b : jsstring) : a <> b -> str_eqb a b = false.
Proof.
  intros H. destruct (str_eqb a b) eqn:E; [| reflexivity].
  apply str_eqb_true in E. contradiction.
Qed.

Lemma uintChars_digits (u : Decimal.uint) : forallb isDigit (uintChars u) = true.
Proof. induction u; simpl; auto. Qed.

Lemma uintChars_nonempty (u : Decimal.uint) : u <> Decimal.Nil -> uintChars u <> [].
Proof. destruct u; simpl; congruence. Qed.

Lemma digitsOf_digits (n : N) : forallb isDigit (digitsOf n) = true.
Proof. apply uintChars_digits. Qed.

Lemma digitsOf_nonempty (n : N) : digitsOf n <> [].
Proof.
  unfold digitsOf. apply uintChars_nonempty.
  destruct n as [| p]; simpl; [discriminate | apply Unsigned.to_uint_nonnil].
Qed.

Lemma takeWhile_digits (ds rest : jsstring) :
  forallb isDigit ds = true ->
  match rest with [] => True | c :: _ => isDigit c = false end ->
  takeWhile isDigit (ds ++ rest) = ds /\ dropWhile isDigit (ds ++ rest) = rest.
Proof.
  intros Hd Hr. induction ds as [| c ds IH]; simpl.
  - destruct rest as [| c r]; simpl; [auto |]. rewrite Hr. auto.
  - simpl in Hd. apply andb_true_iff in Hd as [Hc Hd].
    rewrite Hc. destruct (IH Hd) as [E1 E2]. rewrite E1, E2. auto.
Qed.

Lemma digit_not_minus (c : N) : isDigit c = true -> (c =? 45)%N = false.
Proof.
  unfold isDigit. intros H. apply andb_true_iff in H as [H _].
  apply N.leb_le in H. apply N.eqb_neq. lia.
Qed.


(** Digits, with or without a sign and a decimal part, are plain decimals. *)
Lemma isPlainDecimal_digits (neg : bool) (ds frac : jsstring) :
  ds <> [] -> forallb isDigit ds = true -> forallb isDigit frac = true ->
  isPlainDecimal ((if neg then [45%N] else []) ++ ds
                  ++ match frac with [] => [] | _ => 46%N :: frac end) = true.
Proof.
  intros Hne Hd Hf. unfold isPlainDecimal.
  set (tail := match frac with [] => [] | _ => 46%N :: frac end).
  assert (Hu : dropMinus ((if neg then [45%N] else []) ++ ds ++ tail)
               = ds ++ tail).
  { destruct neg; simpl; [reflexivity |].
    destruct ds as [| c r]; [congruence |]. simpl in *.
    apply andb_true_iff in Hd as [Hc _].
    now rewrite (digit_not_minus _ Hc). }
  rewrite Hu. unfold isUnsignedDecimal.
  assert (Ht : match tail with [] => True | c :: _ => isDigit c = false end).
  { unfold tail. destruct frac; simpl; auto. }
  destruct (takeWhile_digits ds tail Hd Ht) as [E1 E2]. rewrite E1, E2.
  destruct ds as [| c r]; [congruence |].
  unfold tail. destruct frac as [| f fs]; [reflexivity |].
  rewrite N.eqb_refl. simpl. exact Hf.
Qed.


Lemma Qeq_bool_Qred (x y : Q) : Qeq_bool (Qred x) y = Qeq_bool x y.
Proof.
  destruct (Qeq_bool x y) eqn:E.
  - apply Qeq_bool_iff. rewrite Qred_correct. now apply Qeq_bool_iff.
  - destruct (Qeq_bool (Qred x) y) eqn:E2; [| reflexivity].
    apply Qeq_bool_iff in E2. rewrite Qred_correct in E2.
    apply Qeq_bool_iff in E2. congruence.
Qed.


Lemma formatQuantity_other (x : number) :
  hasGlyph x = false ->
  formatQuantity (Some x)
  = match (if num_gtb x (Finite 1) then mixedNumber x else None) with
    | Some s => s
    | None => if num_isInteger x then numberToString x
              else dropDotZero (toFixed1 x)
    end.
Proof.
  unfold hasGlyph, formatQuantity. cbn [existsb map]. intros H.
  repeat (apply orb_false_elim in H; destruct H as [? H]).
  repeat match goal with E : num_eqb _ _ = false |- _ => rewrite E; clear E end.
  reflexivity.
Qed.

Lemma mixedNumber_spec (x : number) :
  mixedNumber x
  = if num_eqb (fractionalPart x) (lit 0.25)
    then Some (numberToString (num_floor x) ++ [188%N])
    else if num_eqb (fractionalPart x) (lit 0.5)
    then Some (numberToString (num_floor x) ++ [189%N])
    else if num_eqb (fractionalPart x) (lit 0.75)
    then Some (numberToString (num_floor x) ++ [190%N])
    else None.
Proof. reflexivity. Qed.









(** Below 2^53 the digits are those of the whole number itself. *)
Lemma numberToString_small (z : Z) :
  (Z.abs z < 2 ^ 53)%Z ->
  numberToString (Finite (inject_Z z)) = integerToString z.
Proof.
  intros Hz. cbn [numberToString]. cbv zeta. rewrite Qfloor_Z.
  unfold integerToString, shortestDecimal, decimalNotation.
  assert (H53 : (2 ^ 53 < 10 ^ 21)%Z) by (vm_compute; reflexivity).
  destruct (Z.ltb_spec z 0) as [Hneg | Hpos].
  - destruct (Z.ltb_spec (- z) (2 ^ 53)); [| lia].
    cbv zeta. destruct (Z.ltb_spec (- z) (10 ^ 21)); [| lia].
    do 2 f_equal. lia.
  - destruct (Z.ltb_spec z (2 ^ 53)); [| lia].
    cbv zeta. destruct (Z.ltb_spec z (10 ^ 21)); [| lia].
    f_equal. lia.
Qed.





Lemma integerToString_plain (z : Z) : isPlainDecimal (integerToString z) = true.
Proof.
  unfold integerToString.
  pose proof (@isPlainDecimal_digits (z <? 0)%Z (digitsOf (Z.abs_N z)) []
                (digitsOf_nonempty _) (digitsOf_digits _) eq_refl) as H.
  rewrite app_nil_r in H. destruct (z <? 0)%Z; exact H.
Qed.





(** From 10^21 on the display is in exponent notation: the quantity of
    "1000000000000000000000 cups sugar" shows as "1e+21". *)
Example formatQuantity_exponent_notation :
  exists x,
    quantity (parseIngredient toLowerCaseBasic
                (js "1000000000000000000000 cups sugar")) = Some x
    /\ formatQuantity (Some x) = js "1e+21"
    /\ isPlainDecimal (formatQuantity (Some x)) = false.
Proof.
  eexists. split; [vm_compute; reflexivity |].
  split; vm_compute; reflexivity.
Qed.


(* ================================================================= *)
(** ** Decimal numerals: printing and reading back *)

Lemma digitsValue_acc (d : Decimal.uint) (acc : positive) :
  fold_left (fun a c => (10 * a + (c - 48))%N) (uintChars d) (Npos acc)
  = Npos (Pos.of_uint_acc d acc).
Proof.
  revert acc. induction d; intros acc; simpl uintChars; simpl fold_left;
    try reflexivity;
    (etransitivity; [| apply IHd]); f_equal; simpl Pos.of_uint_acc; lia.
Qed.

Lemma digitsValue_uint (d : Decimal.uint) :
  digitsValue (uintChars d) = Pos.of_uint d.
Proof.
  unfold digitsValue. induction d; simpl uintChars; simpl fold_left;
    try reflexivity; try exact IHd;
    (etransitivity; [| apply digitsValue_acc]); f_equal.
Qed.

(** Reading the decimal digits of a number gives the number back. *)
Lemma digitsValue_digitsOf (n : N) : digitsValue (digitsOf n) = n.
Proof.
  unfold digitsOf. rewrite digitsValue_uint.
  destruct n as [| p]; [reflexivity | exact (Unsigned.of_to p)].
Qed.

Lemma digit_not_space (c : N) : isDigit c = true -> isWhiteSpace c = false.
Proof.
  intros H.
  destruct (digit_cases _ H) as [-> | [-> | [-> | [-> | [-> | [-> | [->
    | [-> | [-> | ->]]]]]]]]]; reflexivity.
Qed.

Lemma stripSign_digit (c : N) (r : jsstring) :
  isDigit c = true -> stripSign (c :: r) = (false, c :: r).
Proof.
  intros H.
  destruct (digit_cases _ H) as [-> | [-> | [-> | [-> | [-> | [-> | [->
    | [-> | [-> | ->]]]]]]]]]; reflexivity.
Qed.

Lemma takeWhile_all (p : N -> bool) (s : jsstring) :
  forallb p s = true -> takeWhile p s = s.
Proof.
  induction s as [| c s IH]; simpl; [reflexivity |].
  intros H. apply andb_true_iff in H as [Hc H]. now rewrite Hc, IH.
Qed.

Lemma takeWhile_forallb (p : N -> bool) (s : jsstring) :
  forallb p (takeWhile p s) = true.
Proof.
  induction s as [| c s IH]; simpl; [reflexivity |].
  destruct (p c) eqn:E; simpl; [now rewrite E | reflexivity].
Qed.

(** [parseInt] reads a run of digits as the double nearest to the number
    they spell. *)
Lemma parseInt10_digits (ds : jsstring) :
  ds <> [] -> forallb isDigit ds = true ->
  parseInt10 ds = roundToDouble (inject_Z (Z.of_N (digitsValue ds))).
Proof.
  intros Hne Hd. destruct ds as [| c r]; [congruence |].
  assert (Hc : isDigit c = true) by (simpl in Hd; now apply andb_true_iff in Hd).
  unfold parseInt10, trimStart. cbn [dropWhile].
  rewrite (@digit_not_space c Hc), (@stripSign_digit c r Hc).
  rewrite (@takeWhile_all isDigit (c :: r) Hd). reflexivity.
Qed.

Lemma parseInt10_digitsOf (n : N) :
  (Z.of_N n < 2 ^ 53)%Z ->
  parseInt10 (digitsOf n) = Finite (inject_Z (Z.of_N n)).
Proof.
  intros Hn.
  rewrite parseInt10_digits, digitsValue_digitsOf;
    [apply roundToDouble_whole; lia | apply digitsOf_nonempty
     | apply digitsOf_digits].
Qed.

(* ================================================================= *)
(** ** Whole numbers in the arithmetic of [number] *)

Lemma num_add_whole (a b : Z) :
  (Z.abs (a + b) < 2 ^ 53)%Z ->
  num_add (Finite (inject_Z a)) (Finite (inject_Z b)) = Finite (inject_Z (a + b)).
Proof.
  intros H. cbn [num_add].
  replace (inject_Z a + inject_Z b)%Q with (inject_Z (a + b)).
  - now apply roundToDouble_whole.
  - unfold Qplus, inject_Z. cbn [Qnum Qden Pos.mul]. now rewrite !Z.mul_1_r.
Qed.

Lemma num_mul_whole (a b : Z) :
  (Z.abs (a * b) < 2 ^ 53)%Z ->
  num_mul (Finite (inject_Z a)) (Finite (inject_Z b)) = Finite (inject_Z (a * b)).
Proof.
  intros H. cbn [num_mul].
  change (inject_Z a * inject_Z b)%Q with (inject_Z (a * b)).
  now apply roundToDouble_whole.
Qed.

(** The rounding of a quotient to an integer is off by at most a half. *)
Lemma roundHalfEven_error (n d : Z) :
  (0 < d)%Z ->
  (- d <= 2 * (roundHalfEven n d * d - n) <= d)%Z.
Proof.
  intros Hd. unfold roundHalfEven. cbv zeta.
  pose proof (Z.div_mod n d ltac:(lia)) as E.
  pose proof (Z.mod_pos_bound n d Hd) as Hm.
  destruct (Z.compare_spec (2 * (n mod d)) d) as [H | H | H].
  - destruct (Z.even (n / d)); nia.
  - nia.
  - nia.
Qed.

Lemma binaryExponent_le (a b : positive) :
  (binaryExponent a b <= Z.log2 (Zpos a) - Z.log2 (Zpos b))%Z.
Proof.
  unfold binaryExponent. cbv zeta.
  destruct (scaled _ _ _) as [n d]. destruct (n <? d)%Z; lia.
Qed.

Lemma binaryExponent_whole (a : positive) :
  binaryExponent a 1 = Z.log2 (Zpos a).
Proof.
  pose proof (Z.log2_spec (Zpos a) ltac:(lia)) as [Hlo Hhi].
  pose proof (Z.log2_nonneg (Zpos a)) as Hk.
  unfold binaryExponent. cbv zeta.
  change (Z.log2 1) with 0%Z. rewrite Z.sub_0_r.
  unfold scaled. destruct (Z.leb_spec 0 (Z.log2 (Zpos a))) as [_ | H]; [| lia].
  rewrite Z.mul_1_l.
  destruct (Z.ltb_spec (Zpos a) (2 ^ Z.log2 (Zpos a))) as [H | _];
    [lia | reflexivity].
Qed.

Lemma log2_below (a : Z) (k : Z) :
  (0 < a)%Z -> (0 <= k)%Z -> (a < 2 ^ k)%Z -> (Z.log2 a < k)%Z.
Proof.
  intros Ha Hk H. pose proof (Z.log2_spec a Ha) as [Hlo _].
  destruct (Z.lt_ge_cases (Z.log2 a) k) as [L | L]; [exact L |].
  assert (2 ^ k <= 2 ^ Z.log2 a)%Z by (apply Z.pow_le_mono_r; lia). lia.
Qed.

(** [Math.round(seconds / 60)] on whole seconds: the quotient is rounded
    to a double first, which moves it by less than the distance to the
    next half minute. *)
Lemma round_minutes (s : Z) :
  (0 <= s < 2 ^ 53)%Z ->
  num_round (num_div (Finite (inject_Z s)) (Finite 60))
  = Finite (inject_Z ((s + 30) / 60)).
Proof.
  intros [Hs0 Hs]. unfold num_div. change (Qeq_bool 60 0) with false. cbv iota.
  replace (inject_Z s / 60)%Q with (s # 60)%Q
    by (unfold Qdiv, Qmult, Qinv, inject_Z; cbn [Qnum Qden Pos.mul];
        now rewrite Z.mul_1_r).
  unfold roundToDouble. cbn [Qnum Qden].
  destruct s as [| a | a]; [reflexivity | | lia].
  unfold roundPositive. cbv zeta.
  pose proof (binaryExponent_le a 60) as Hb.
  change (Z.log2 60) with 5%Z in Hb.
  pose proof (@log2_below (Zpos a) 53 ltac:(lia) ltac:(lia) Hs) as Hl.
  set (e := Z.max (binaryExponent a 60 - 52) (-1074)).
  assert (He : (-1074 <= e <= -5)%Z) by (unfold e; lia).
  clearbody e. clear Hb Hl.
  unfold scaled. destruct (Z.leb_spec 0 e) as [H | _]; [lia |].
  destruct (Z.ltb_spec 971 e) as [H | _]; [lia |].
  destruct (Z.eqb_spec e 971) as [H | _]; [lia |].
  cbn [orb andb]. unfold num_round. do 2 f_equal.
  set (m := roundHalfEven (Zpos a * 2 ^ (- e)) 60).
  pose proof (@roundHalfEven_error (Zpos a * 2 ^ (- e)) 60 ltac:(lia)) as Herr.
  fold m in Herr.
  unfold dyadic. destruct (Z.leb_spec 0 e) as [H | _]; [lia |].
  assert (EP : (2 ^ (- e) = 2 * (16 * 2 ^ (- e - 5)))%Z).
  { replace (- e)%Z with (5 + (- e - 5))%Z at 1 by lia.
    rewrite Z.pow_add_r by lia. change (2 ^ 5)%Z with 32%Z. lia. }
  assert (HP : (0 < 2 ^ (- e - 5))%Z) by (apply Z.pow_pos_nonneg; lia).
  set (P' := (16 * 2 ^ (- e - 5))%Z) in *.
  assert (HP' : (16 <= P')%Z) by (unfold P'; lia).
  clearbody P'. rewrite EP in *.
  assert (E : Qeq (Qred (m # Z.to_pos (2 * P')) + (1 # 2))
                  ((m + P') # Z.to_pos (2 * P'))).
  { rewrite Qred_correct. unfold Qeq, Qplus. cbn [Qnum Qden].
    rewrite !Pos2Z.inj_mul, !Z2Pos.id by lia. nia. }
  rewrite (Qfloor_comp _ _ E). unfold Qfloor. rewrite Z2Pos.id by lia.
  pose proof (Z.div_mod (Zpos a + 30) 60 ltac:(lia)) as Ed.
  pose proof (Z.mod_pos_bound (Zpos a + 30) 60 ltac:(lia)) as Hr.
  set (t := ((Zpos a + 30) / 60)%Z) in *.
  symmetry. apply (Z.div_unique_pos _ _ _ (m + P' - t * (2 * P'))); nia.
Qed.

(* ================================================================= *)
(** ** Counts: whole numbers that are not negative, and Infinity *)

Lemma roundToDouble_count (z : Z) :
  (0 <= z)%Z -> isCount (roundToDouble (inject_Z z)).
Proof.
  intros Hz. unfold roundToDouble. cbn [Qnum Qden inject_Z].
  destruct z as [| a | a]; [right; exists 0%N; reflexivity | | lia].
  destruct (Z.lt_ge_cases (Zpos a) (2 ^ 53)) as [H | H].
  - rewrite roundPositive_whole by exact H. right. exists (Npos a). reflexivity.
  - unfold roundPositive. cbv zeta. rewrite binaryExponent_whole.
    assert (Hk : (53 <= Z.log2 (Zpos a))%Z).
    { change 53%Z with (Z.log2 (2 ^ 53)). now apply Z.log2_le_mono. }
    set (e := Z.max (Z.log2 (Zpos a) - 52) (-1074)).
    assert (He : (1 <= e)%Z) by (unfold e; lia). clearbody e.
    unfold scaled. destruct (Z.leb_spec 0 e) as [_ | L]; [| lia].
    assert (Hp : (0 < 2 ^ e)%Z) by (apply Z.pow_pos_nonneg; lia).
    pose proof (@roundHalfEven_nonneg (Zpos a) (1 * 2 ^ e) ltac:(lia) ltac:(lia))
      as Hm.
    destruct (_ || _)%bool; [now left | right].
    unfold dyadic. destruct (Z.leb_spec 0 e) as [_ | L]; [| lia].
    rewrite Qred_inject_Z.
    exists (Z.to_N (roundHalfEven (Zpos a) (1 * 2 ^ e) * 2 ^ e)).
    rewrite Z2N.id by nia. reflexivity.
Qed.

Lemma num_add_count (x y : number) :
  isCount x -> isCount y -> isCount (num_add x y).
Proof.
  intros [-> | [a ->]] [-> | [b ->]]; cbn [num_add]; try (now left).
  replace (inject_Z (Z.of_N a) + inject_Z (Z.of_N b))%Q
    with (inject_Z (Z.of_N a + Z.of_N b))
    by (unfold Qplus, inject_Z; cbn [Qnum Qden Pos.mul]; now rewrite !Z.mul_1_r).
  apply roundToDouble_count. lia.
Qed.

Lemma num_mul_60_count (x : number) :
  isCount x -> isCount (num_mul x (Finite 60)).
Proof.
  intros [-> | [a ->]]; [now left |]. cbn [num_mul].
  change (inject_Z (Z.of_N a) * 60)%Q with (inject_Z (Z.of_N a * 60)).
  apply roundToDouble_count. lia.
Qed.

Lemma num_round_count (q : Q) : Qle 0 q -> isCount (num_round (Finite q)).
Proof.
  intros Hq. right. cbn [num_round].
  exists (Z.to_N (Qfloor (q + (1 # 2)))). rewrite Z2N.id; [reflexivity |].
  change 0%Z with (Qfloor 0). apply Qfloor_resp_le.
  apply Qle_trans with (y := q); [exact Hq |].
  rewrite <- (Qplus_0_r q) at 1. apply Qplus_le_r. discriminate.
Qed.

Lemma round_minutes_count (x : number) :
  isCount x -> isCount (num_round (num_div x (Finite 60))).
Proof.
  intros [-> | [a ->]]; [now left |].
  unfold num_div. change (Qeq_bool 60 0) with false. cbv iota.
  replace (inject_Z (Z.of_N a) / 60)%Q with (Z.of_N a # 60)%Q
    by (unfold Qdiv, Qmult, Qinv, inject_Z; cbn [Qnum Qden Pos.mul];
        now rewrite Z.mul_1_r).
  unfold roundToDouble. cbn [Qnum Qden].
  destruct (Z.of_N a) as [| p | p] eqn:E; [| | lia].
  - right. exists 0%N. reflexivity.
  - destruct (roundPositive_cases p 60) as [Hinf | (m & e & Hm & Hfin)].
    + rewrite Hinf. now left.
    + rewrite Hfin. apply num_round_count. now apply dyadic_nonneg.
Qed.

(* ================================================================= *)
(** ** Properties of [parseDuration] *)

Lemma durationPart_component (x y n : N) (rest : jsstring) :
  isDigit y = false ->
  durationPart x (digitsOf n ++ y :: rest)
  = if eq_ignoreCase x y then (Some (digitsOf n), rest)
    else (None, digitsOf n ++ y :: rest).
Proof.
  intros Hy. unfold durationPart.
  destruct (@takeWhile_digits (digitsOf n) (y :: rest) (digitsOf_digits n) Hy)
    as [E1 E2].
  rewrite E1, E2.
  destruct (digitsOf n) eqn:E; [now apply digitsOf_nonempty in E |].
  reflexivity.
Qed.

Lemma durationPart_empty (x : N) : durationPart x [] = (None, []).
Proof. reflexivity. Qed.

Lemma captureValue_digitsOf (v : option N) :
  (orZero v < 2 ^ 53)%Z ->
  captureValue (option_map digitsOf v) = Finite (inject_Z (orZero v)).
Proof.
  intros Hv. destruct v as [n |]; [| reflexivity]. simpl option_map.
  unfold captureValue.
  destruct (digitsOf n) eqn:E; [now apply digitsOf_nonempty in E |].
  rewrite <- E. now apply parseInt10_digitsOf.
Qed.

Lemma durationAt_PT (rest : jsstring) :
  durationAt (80%N :: 84%N :: rest)
  = (let '(h, r1) := durationPart 72%N rest in
     let '(m, r2) := durationPart 77%N r1 in
     let '(sec, _) := durationPart 83%N r2 in
     Some (h, m, sec)).
Proof.
  unfold durationAt.
  assert (E : startsWith_i (80%N :: 84%N :: rest) (js "PT") = true)
    by (destruct rest; reflexivity).
  now rewrite E.
Qed.

Lemma durationMatch_hit (s : jsstring) m :
  durationAt s = Some m -> durationMatch s = Some m.
Proof. intros H. destruct s; cbn [durationMatch]; now rewrite H. Qed.

Lemma durationMatch_iso (h m s : option N) :
  durationMatch (isoDuration h m s)
  = Some (option_map digitsOf h, option_map digitsOf m, option_map digitsOf s).
Proof.
  apply durationMatch_hit.
  unfold isoDuration. change (js "PT") with [80%N; 84%N].
  cbn [app]. rewrite durationAt_PT.
  destruct h as [h |], m as [m |], s as [s |]; cbn [durationComponent app];
    rewrite <- ?app_assoc; cbn [app]; rewrite ?app_nil_r;
    repeat (rewrite ?durationPart_component by reflexivity;
            rewrite ?durationPart_empty;
            cbv beta iota;
            change (eq_ignoreCase 72 72) with true;
            change (eq_ignoreCase 77 77) with true;
            change (eq_ignoreCase 83 83) with true;
            change (eq_ignoreCase 72 77) with false;
            change (eq_ignoreCase 72 83) with false;
            change (eq_ignoreCase 77 83) with false;
            cbv beta iota);
    reflexivity.
Qed.

Lemma isoDuration_nonempty (h m s : option N) :
  exists c r, isoDuration h m s = c :: r.
Proof. unfold isoDuration. change (js "PT") with [80%N; 84%N]. simpl. eauto. Qed.

Lemma orZero_nonneg (v : option N) : (0 <= orZero v)%Z.
Proof. destruct v; simpl; lia. Qed.

(** X1: on a duration "PT#H#M#S", with any of the three components left
    out, [parseDuration] returns hours * 60 + minutes + seconds / 60
    rounded to the nearest minute (half a minute rounds up), as long as
    the seconds and the total are below 2^53, where every whole number is
    a double. *)
Theorem parseDuration_iso (h m s : option N) :
  (orZero s < 2 ^ 53)%Z ->
  (orZero h * 60 + orZero m + (orZero s + 30) / 60 < 2 ^ 53)%Z ->
  parseDuration (Some (isoDuration h m s))
  = Some (Finite (inject_Z (orZero h * 60 + orZero m + (orZero s + 30) / 60))).
Proof.
  intros Hs Htotal.
  pose proof (orZero_nonneg h) as Hh0. pose proof (orZero_nonneg m) as Hm0.
  pose proof (orZero_nonneg s) as Hs0.
  assert (Hr0 : (0 <= (orZero s + 30) / 60)%Z) by (apply Z.div_pos; lia).
  unfold parseDuration.
  destruct (isoDuration_nonempty h m s) as (c & r & E).
  destruct (isoDuration h m s) as [| c' r'] eqn:E'; [discriminate |].
  rewrite <- E', durationMatch_iso, !captureValue_digitsOf by lia.
  change (Finite 60) with (Finite (inject_Z 60)).
  rewrite num_mul_whole by lia. rewrite num_add_whole by lia.
  change (Finite (inject_Z 60)) with (Finite 60).
  rewrite round_minutes by lia. rewrite num_add_whole by lia.
  reflexivity.
Qed.

Lemma parseDuration_iso_witness :
  parseDuration (Some (js "PT1H30M45S")) = Some (Finite 91).
Proof.
  apply (parseDuration_iso (Some 1%N) (Some 30%N) (Some 45%N)); reflexivity.
Defined.

Lemma durationAt_none (s : jsstring) :
  durationAt s = None <-> startsWith_i s (js "PT") = false.
Proof.
  unfold durationAt. destruct (startsWith_i s (js "PT")).
  - destruct (durationPart 72 _) as [h r1], (durationPart 77 r1) as [m r2],
      (durationPart 83 r2) as [sec r3]. split; discriminate.
  - split; reflexivity.
Qed.

Lemma durationMatch_none (s : jsstring) :
  durationMatch s = None <-> includes_i s (js "PT") = false.
Proof.
  induction s as [| c s IH]; cbn [durationMatch includes_i].
  - destruct (durationAt []) eqn:E.
    + split; [discriminate |]. intros H. rewrite orb_false_r in H.
      apply durationAt_none in H. congruence.
    + apply durationAt_none in E. rewrite E. split; reflexivity.
  - destruct (durationAt (c :: s)) eqn:E.
    + split; [discriminate |]. intros H. apply orb_false_elim in H as [H _].
      apply durationAt_none in H. congruence.
    + apply durationAt_none in E. rewrite E. exact IH.
Qed.

Lemma durationPart_capture (x : N) (s ds r : jsstring) :
  durationPart x s = (Some ds, r) -> ds <> [] /\ forallb isDigit ds = true.
Proof.
  unfold durationPart. pose proof (takeWhile_forallb isDigit s) as Hd.
  destruct (takeWhile isDigit s) as [| d ds']; [discriminate |].
  destruct (dropWhile isDigit s) as [| c r']; [discriminate |].
  destruct (eq_ignoreCase x c); [| discriminate].
  intros H. inversion H; subst. split; [discriminate | exact Hd].
Qed.

Lemma captureValue_count (x : N) (s : jsstring) capture (r : jsstring) :
  durationPart x s = (capture, r) -> isCount (captureValue capture).
Proof.
  intros H. destruct capture as [ds |]; [| right; exists 0%N; reflexivity].
  destruct (durationPart_capture _ _ H) as [Hne Hd].
  unfold captureValue.
  destruct ds as [| c ds']; [congruence |].
  rewrite parseInt10_digits by assumption.
  apply roundToDouble_count. lia.
Qed.

Lemma durationMatch_counts (s : jsstring) h m sec :
  durationMatch s = Some (h, m, sec) ->
  isCount (captureValue h) /\ isCount (captureValue m)
  /\ isCount (captureValue sec).
Proof.
  induction s as [| c0 s IH]; cbn [durationMatch]; intros E.
  - change (durationAt []) with
      (@None (option jsstring * option jsstring * option jsstring)) in E.
    discriminate.
  - destruct (durationAt (c0 :: s)) as [t |] eqn:Ea; [| exact (IH E)].
    inversion E; subst t; clear E. unfold durationAt in Ea.
    destruct (startsWith_i (c0 :: s) (js "PT")); [| discriminate].
    destruct (durationPart 72 _) as [h' r1] eqn:E1.
    destruct (durationPart 77 r1) as [m' r2] eqn:E2.
    destruct (durationPart 83 r2) as [s' r3] eqn:E3.
    inversion Ea; subst.
    split; [| split]; eapply captureValue_count; eassumption.
Qed.

(** X2: [parseDuration] returns null exactly when the text is missing or
    has no "PT" in it, in either case of the letters; whenever it returns a
    number, that number is a whole, non-negative count of minutes (0 when
    nothing readable follows "PT"), or Infinity (which a component of
    some 309 digits or more gives). *)
Theorem parseDuration_rejects_only_without_PT (d : jsstring) :
  (parseDuration (Some d) = None <-> includes_i d (js "PT") = false)
  /\ (forall x, parseDuration (Some d) = Some x ->
      x = PosInfinity \/ exists n : N, x = Finite (inject_Z (Z.of_N n)))
  /\ parseDuration None = None.
Proof.
  split; [| split; [| reflexivity]].
  - unfold parseDuration. destruct d as [| c d'].
    + split; reflexivity.
    + rewrite <- durationMatch_none.
      destruct (durationMatch (c :: d')) as [[[h m] sec] |];
        split; congruence.
  - intros x. unfold parseDuration. destruct d as [| c d']; [discriminate |].
    destruct (durationMatch (c :: d')) as [[[h m] sec] |] eqn:E; [| discriminate].
    destruct (durationMatch_counts _ E) as (Ha & Hb & He).
    intros H. inversion H; subst; clear H.
    apply num_add_count; [apply num_add_count |].
    + now apply num_mul_60_count.
    + exact Hb.
    + now apply round_minutes_count.
Qed.

Lemma parseDuration_rejects_only_without_PT_witness :
  Finite 75 = PosInfinity \/ exists n : N, Finite 75 = Finite (inject_Z (Z.of_N n)).
Proof.
  apply (proj1 (proj2 (parseDuration_rejects_only_without_PT
                         (js "cook: pt1h15m")))).
  vm_compute. reflexivity.
Defined.

(* ================================================================= *)
(** ** The first number of a text: [parseServings], [parseNutritionValue] *)

Lemma dropWhile_skip (p : N -> bool) (pre s : jsstring) :
  forallb p pre = true -> dropWhile p (pre ++ s) = dropWhile p s.
Proof.
  induction pre as [| c pre IH]; simpl; [reflexivity |].
  intros H. apply andb_true_iff in H as [Hc H]. now rewrite Hc, IH.
Qed.

Lemma takeWhile_run (p : N -> bool) (run rest : jsstring) :
  forallb p run = true ->
  match rest with [] => True | c :: _ => p c = false end ->
  takeWhile p (run ++ rest) = run.
Proof.
  intros Hr Hrest. induction run as [| c run IH]; simpl.
  - destruct rest as [| c r]; [reflexivity |]. simpl. now rewrite Hrest.
  - simpl in Hr. apply andb_true_iff in Hr as [Hc Hr]. now rewrite Hc, IH.
Qed.

(** The first run of a class in "pre run rest", when [pre] has no character
    of the class and [rest] does not start with one, is [run]. *)
Lemma firstRun_found (p : N -> bool) (pre run rest : jsstring) :
  forallb (fun c => negb (p c)) pre = true ->
  run <> [] -> forallb p run = true ->
  match rest with [] => True | c :: _ => p c = false end ->
  firstRun p (pre ++ run ++ rest) = Some run.
Proof.
  intros Hpre Hne Hrun Hrest. unfold firstRun.
  rewrite (dropWhile_skip _ _ _ Hpre).
  destruct run as [| c run']; [congruence |].
  assert (Hc : p c = true) by (simpl in Hrun; now apply andb_true_iff in Hrun).
  cbn [app dropWhile]. rewrite Hc. cbn [negb].
  change (c :: run' ++ rest) with ((c :: run') ++ rest).
  now rewrite (takeWhile_run _ _ _ Hrun Hrest).
Qed.

(** X3: [parseServings] reads the first run of digits of a text, whatever
    stands before it ("Serves 4-6" gives 4, "-3" gives 3), exactly so for
    a number below 2^53; a number is returned as it is unless it is 0 or
    NaN; and an array yields what its first element with a result
    yields. *)
Theorem parseServings_first_number :
  (forall (pre rest : jsstring) (n : N),
      (Z.of_N n < 2 ^ 53)%Z ->
      forallb (fun c => negb (isDigit c)) pre = true ->
      match rest with [] => True | c :: _ => isDigit c = false end ->
      parseServings (JString (pre ++ digitsOf n ++ rest))
      = Some (Finite (inject_Z (Z.of_N n))))
  /\ (forall x, parseServings (JNumber x) = if num_falsy x then None else Some x)
  /\ (forall (skipped more : list json) (item : json) (x : number),
      Forall (fun i => parseServings i = None) skipped ->
      parseServings item = Some x ->
      parseServings (JArray (skipped ++ item :: more)) = Some x).
Proof.
  split; [| split].
  - intros pre rest n Hn Hpre Hrest. cbn [parseServings].
    destruct (pre ++ digitsOf n ++ rest) as [| c s'] eqn:E.
    + apply app_eq_nil in E as [_ E]. apply app_eq_nil in E as [E _].
      now apply digitsOf_nonempty in E.
    + rewrite <- E.
      rewrite (@firstRun_found isDigit pre (digitsOf n) rest Hpre
                 (digitsOf_nonempty n) (digitsOf_digits n) Hrest).
      now rewrite parseInt10_digitsOf.
  - intros x. reflexivity.
  - intros skipped more item x Hskip Hitem. cbn [parseServings].
    induction Hskip as [| i skipped Hi _ IH]; cbn [app].
    + now rewrite Hitem.
    + now rewrite Hi.
Qed.

Lemma parseServings_first_number_witness :
  parseServings (JString (js "Serves " ++ digitsOf 4 ++ js "-6 people"))
  = Some (Finite (inject_Z (Z.of_N 4)))
  /\ parseServings (JArray ([JNull; JString (js "a few")]
                            ++ JString (js "makes 12") :: [JNumber (Finite 3)]))
     = Some (Finite 12).
Proof.
  split.
  - apply (proj1 parseServings_first_number); reflexivity.
  - apply (proj2 (proj2 parseServings_first_number)).
    + repeat constructor.
    + reflexivity.
Defined.

Lemma dropWhile_all (p : N -> bool) (s : jsstring) :
  forallb p s = true -> dropWhile p s = [].
Proof.
  induction s as [| c s IH]; simpl; [reflexivity |].
  intros H. apply andb_true_iff in H as [Hc H]. now rewrite Hc, IH.
Qed.

Lemma not_Infinity_digit (c : N) (r : jsstring) :
  isDigit c = true -> startsWith (c :: r) (js "Infinity") = false.
Proof.
  intros H.
  destruct (digit_cases _ H) as [-> | [-> | [-> | [-> | [-> | [-> | [->
    | [-> | [-> | ->]]]]]]]]]; reflexivity.
Qed.

(** [parseFloat] reads a signed run of digits as the double nearest to the
    integer it spells. *)
Lemma parseFloat_digits (neg : bool) (ds : jsstring) :
  ds <> [] -> forallb isDigit ds = true ->
  parseFloat ((if neg then [45%N] else []) ++ ds)
  = roundToDouble (inject_Z (if neg then - Z.of_N (digitsValue ds)
                             else Z.of_N (digitsValue ds))).
Proof.
  intros Hne Hd. destruct ds as [| c r]; [congruence |].
  assert (Hc : isDigit c = true) by (simpl in Hd; now apply andb_true_iff in Hd).
  assert (Es : stripSign (trimStart ((if neg then [45%N] else []) ++ c :: r))
               = (neg, c :: r)).
  { destruct neg; cbn [app].
    - reflexivity.
    - unfold trimStart. cbn [dropWhile].
      now rewrite (@digit_not_space c Hc), (@stripSign_digit c r Hc). }
  unfold parseFloat. rewrite Es.
  rewrite (@not_Infinity_digit c r Hc).
  rewrite (@takeWhile_all isDigit (c :: r) Hd), (@dropWhile_all isDigit (c :: r) Hd).
  cbn [fractionDigits app exponentPart List.length].
  rewrite app_nil_r.
  cbn [Z.of_nat Z.sub Z.opp Z.add Z.leb Z.compare Z.pow Z.pow_pos Pos.iter].
  rewrite Z.mul_1_r. destruct neg; reflexivity.
Qed.

Lemma digits_are_digitOrDot (ds : jsstring) :
  forallb isDigit ds = true -> forallb isDigitOrDot ds = true.
Proof.
  induction ds as [| d ds IH]; simpl; [reflexivity |].
  intros H. apply andb_true_iff in H as [Hd H].
  unfold isDigitOrDot at 1. now rewrite Hd, (IH H).
Qed.

(** X4: [parseNutritionValue] returns the first number of the text,
    whatever stands before it: "250 calories" gives 250, and so does
    "about -250 kcal" (a sign in front is not read).  (For a whole number
    below 2^53; a larger one is read as the nearest double.) *)
Theorem parseNutritionValue_first_number
    (pre rest : jsstring) (n : N) :
  (Z.of_N n < 2 ^ 53)%Z ->
  forallb (fun c => negb (isDigitOrDot c)) pre = true ->
  match rest with [] => True | c :: _ => isDigitOrDot c = false end ->
  parseNutritionValue (Some (pre ++ digitsOf n ++ rest))
  = Some (Finite (inject_Z (Z.of_N n))).
Proof.
  intros Hn Hpre Hrest. unfold parseNutritionValue.
  destruct (pre ++ digitsOf n ++ rest) as [| c s'] eqn:E.
  - apply app_eq_nil in E as [_ E]. apply app_eq_nil in E as [E _].
    now apply digitsOf_nonempty in E.
  - rewrite <- E.
    pose proof (@digits_are_digitOrDot (digitsOf n) (digitsOf_digits n)) as Hrun.
    rewrite (@firstRun_found isDigitOrDot pre (digitsOf n) rest Hpre
               (digitsOf_nonempty n) Hrun Hrest).
    pose proof (@parseFloat_digits false (digitsOf n)
                  (digitsOf_nonempty n) (digitsOf_digits n)) as H.
    cbn [app] in H. rewrite H, digitsValue_digitsOf.
    f_equal. apply roundToDouble_whole. lia.
Qed.

Lemma parseNutritionValue_first_number_witness :
  parseNutritionValue (Some (js "about -" ++ digitsOf 250 ++ js " kcal"))
  = Some (Finite (inject_Z (Z.of_N 250))).
Proof.
  apply parseNutritionValue_first_number; reflexivity.
Defined.

(* ================================================================= *)
(** ** Properties of quantity and unit display *)

Lemma Qeq_bool_whole_false (z a : Z) (b : positive) :
  (z * Zpos b <> a)%Z -> Qeq_bool (inject_Z z) (a # b) = false.
Proof.
  intros H. destruct (Qeq_bool (inject_Z z) (a # b)) eqn:E; [| reflexivity].
  apply Qeq_bool_iff in E. unfold Qeq, inject_Z in E. simpl in E.
  exfalso. apply H. lia.
Qed.

Lemma fractionalPart_whole (z : Z) :
  fractionalPart (Finite (inject_Z z)) = Finite 0.
Proof.
  unfold fractionalPart, num_sub. cbn [num_floor num_neg num_add].
  rewrite Qfloor_Z. unfold roundToDouble.
  replace (Qnum (inject_Z z + - inject_Z z)) with 0%Z; [reflexivity |].
  unfold Qplus, Qopp, inject_Z. cbn [Qnum Qden]. lia.
Qed.

Lemma formatQuantity_whole (z : Z) :
  (Z.abs z < 2 ^ 53)%Z ->
  formatQuantity (Some (Finite (inject_Z z))) = integerToString z.
Proof.
  intros Hz.
  assert (Hg : hasGlyph (Finite (inject_Z z)) = false).
  { unfold hasGlyph.
    match goal with
    | |- existsb _ ?l = false =>
        let v := eval vm_compute in l in change l with v
    end.
    cbn [existsb num_eqb].
    rewrite !Qeq_bool_whole_false by lia. reflexivity. }
  rewrite (formatQuantity_other _ Hg), mixedNumber_spec, fractionalPart_whole.
  assert (Hi : num_isInteger (Finite (inject_Z z)) = true).
  { cbn [num_isInteger]. rewrite Qfloor_Z. apply Qeq_bool_refl. }
  rewrite Hi.
  change (num_eqb (Finite 0) (lit 0.25)) with false.
  change (num_eqb (Finite 0) (lit 0.5)) with false.
  change (num_eqb (Finite 0) (lit 0.75)) with false.
  cbv iota.
  destruct (num_gtb (Finite (inject_Z z)) (Finite 1));
    now apply numberToString_small.
Qed.

(** X5: a whole quantity below 2^53 in size is displayed as its decimal
    digits, with a minus sign when negative, and never as a glyph;
    reading the display back with [parseFloat] gives the quantity again.
    (From 2^53 on not every whole number is a double, and the display has
    the shortest digits that read back as the same double.) *)
Theorem formatQuantity_whole_reads_back (z : Z) :
  (Z.abs z < 2 ^ 53)%Z ->
  formatQuantity (Some (Finite (inject_Z z))) = integerToString z
  /\ isPlainDecimal (formatQuantity (Some (Finite (inject_Z z)))) = true
  /\ parseFloat (formatQuantity (Some (Finite (inject_Z z))))
     = Finite (inject_Z z).
Proof.
  intros Hz. rewrite (@formatQuantity_whole z Hz).
  split; [reflexivity | split; [apply integerToString_plain |]].
  unfold integerToString.
  pose proof (@parseFloat_digits (z <? 0)%Z (digitsOf (Z.abs_N z))
                (digitsOf_nonempty _) (digitsOf_digits _)) as H.
  rewrite digitsValue_digitsOf in H.
  destruct (Z.ltb_spec z 0); cbn [app] in H; rewrite H;
    rewrite roundToDouble_whole by lia; do 2 f_equal; lia.
Qed.

Lemma formatQuantity_whole_reads_back_witness :
  parseFloat (formatQuantity (Some (Finite (inject_Z 12)))) = Finite (inject_Z 12).
Proof.
  apply (formatQuantity_whole_reads_back 12). vm_compute. reflexivity.
Defined.

(** X6: showing a unit with its Hebrew label and parsing the label gives
    the unit back for every unit code except [fl_oz], [lb], [piece] and
    [unknown]; with the English label it does so only for [cup], [tbsp],
    [tsp], [ml], [l], [g], [oz], [bunch], [can], [jar], [pinch] and
    [dash] ("kg", "pkg" and "bag" parse as grams, "slice" and "clove" as
    litres). *)
Theorem unit_labels_read_back (u : UnitCode) :
  (parseUnit toLowerCaseBasic (formatUnit (Some (unitName u)) true) = Some u
   <-> ~ In u [Units.fl_oz; Units.lb; Units.piece; Units.unknown])
  /\ (parseUnit toLowerCaseBasic (formatUnit (Some (unitName u)) false) = Some u
      <-> In u [Units.cup; Units.tbsp; Units.tsp; Units.ml; Units.l; Units.g;
                Units.oz; Units.bunch; Units.can; Units.jar; Units.pinch;
                Units.dash]).
Proof.
  destruct u;
    (split;
     [ match goal with
       | |- ?lhs = _ <-> _ =>
           let v := eval vm_compute in lhs in
           change lhs with v
       end;
       cbn [In]; split;
       [ intros H; try discriminate H; intros C;
         repeat (destruct C as [C | C]; [discriminate C |]); exact C
       | intros H; try reflexivity; exfalso; apply H; tauto ]
     | match goal with
       | |- ?lhs = _ <-> _ =>
           let v := eval vm_compute in lhs in
           change lhs with v
       end;
       cbn [In]; split;
       [ intros H; try discriminate H; tauto
       | intros H; try reflexivity;
         repeat (destruct H as [H | H]; [discriminate H |]); contradiction ] ]).
Qed.

(* ================================================================= *)
(** ** The two [isHebrew] *)

Lemma countIf_positive (p : N -> bool) (text : jsstring) :
  0 < countIf p text -> existsb p text = true.
Proof.
  unfold countIf. induction text as [| c text IH]; simpl; [lia |].
  destruct (p c); simpl; [reflexivity | exact IH].
Qed.

(** X7: the parser's [isHebrew] (more Hebrew letters than Latin ones) is
    stricter than the display's (some Hebrew letter): whenever the parser
    tags a title Hebrew the display treats it as Hebrew, text with no
    Hebrew letter is Hebrew for neither, and a title with as many Latin
    letters as Hebrew ones is tagged English by the parser although the
    display treats it as Hebrew. *)
Theorem isHebrew_majority_implies_presence (text : jsstring) :
  (isHebrew text = true -> Format.isHebrew text = true)
  /\ (Format.isHebrew text = false -> isHebrew text = false)
  /\ (countIf isHebrewChar text <= countIf isLatinLetter text ->
      isHebrew text = false).
Proof.
  assert (H1 : isHebrew text = true -> Format.isHebrew text = true).
  { unfold isHebrew, Format.isHebrew. intros H. apply Nat.ltb_lt in H.
    apply countIf_positive. lia. }
  split; [exact H1 | split].
  - intros H. destruct (isHebrew text); [| reflexivity].
    rewrite (H1 eq_refl) in H. discriminate.
  - intros H. unfold isHebrew. apply Nat.ltb_ge. exact H.
Qed.

Lemma isHebrew_majority_implies_presence_witness :
  Format.isHebrew (js "חומוס ביתי") = true
  /\ isHebrew (js "Hummus חומוס") = false
  /\ Format.isHebrew (js "Hummus חומוס") = true.
Proof.
  split; [| split].
  - apply (proj1 (isHebrew_majority_implies_presence (js "חומוס ביתי"))).
    vm_compute. reflexivity.
  - apply (proj2 (proj2 (isHebrew_majority_implies_presence (js "Hummus חומוס")))).
    vm_compute. lia.
  - vm_compute. reflexivity.
Defined.

(* ================================================================= *)
(** ** Properties of [sanitizeFilename] *)

Lemma dashRuns_chars (keep : N -> bool) (inRun : bool) (s : jsstring) :
  forallb keep s = true -> keep 45%N = true ->
  forallb (fun c => keep c && negb (isWhiteSpace c)) (dashRuns_from inRun s) = true.
Proof.
  intros Hs Hdash. revert inRun.
  induction s as [| c s IH]; intros inRun; simpl; [reflexivity |].
  simpl in Hs. apply andb_true_iff in Hs as [Hc Hs].
  destruct (isWhiteSpace c) eqn:Ew.
  - destruct inRun; [apply (IH Hs) |].
    simpl. rewrite Hdash, (IH Hs). reflexivity.
  - simpl. rewrite Hc, Ew, (IH Hs). reflexivity.
Qed.

Lemma forallb_firstn (A : Type) (p : A -> bool) (n : nat) (l : list A) :
  forallb p l = true -> forallb p (firstn n l) = true.
Proof.
  revert n. induction l as [| a l IH]; intros n H; destruct n; simpl; auto.
  simpl in H. apply andb_true_iff in H as [Ha H]. now rewrite Ha, IH.
Qed.

Lemma forallb_filter_same (p : N -> bool) (s : jsstring) :
  forallb p (filter p s) = true.
Proof.
  induction s as [| c s IH]; simpl; [reflexivity |].
  destruct (p c) eqn:E; simpl; [now rewrite E | exact IH].
Qed.

(** X8: a file name made by [sanitizeFilename] has at most 100 characters,
    each a letter, digit or underscore of Basic Latin, a Hebrew character
    or a dash; in particular it contains no white space, no dot and no
    path separator, whatever the recipe title and whatever [toLowerCase]
    does to it. *)
Theorem sanitizeFilename_is_safe
    (toLowerCase : jsstring -> jsstring) (name : jsstring) :
  List.length (sanitizeFilename toLowerCase name) <= 100
  /\ forallb isSafeFilenameChar (sanitizeFilename toLowerCase name) = true
  /\ (forall c, In c (sanitizeFilename toLowerCase name) ->
      c <> 47%N /\ c <> 92%N /\ c <> 46%N /\ c <> 0%N /\ isWhiteSpace c = false).
Proof.
  assert (Hsafe : forallb isSafeFilenameChar (sanitizeFilename toLowerCase name) = true).
  { unfold sanitizeFilename. apply forallb_firstn.
    pose proof (@dashRuns_chars isFilenameChar false
                  (filter isFilenameChar (toLowerCase name))
                  (forallb_filter_same _ _) eq_refl) as H.
    rewrite forallb_forall in H. apply forallb_forall. intros c Hc.
    specialize (H c Hc). apply andb_true_iff in H as [Hk Hw].
    unfold isSafeFilenameChar. rewrite Hw, andb_true_r.
    unfold isFilenameChar in Hk. apply negb_true_iff in Hw. rewrite Hw in Hk.
    now rewrite orb_false_r in Hk. }
  split; [| split; [exact Hsafe |]].
  - unfold sanitizeFilename. apply firstn_le_length.
  - intros c Hc. rewrite forallb_forall in Hsafe. specialize (Hsafe c Hc).
    unfold isSafeFilenameChar in Hsafe. apply andb_true_iff in Hsafe as [Hk Hw].
    apply negb_true_iff in Hw.
    repeat split; try exact Hw; intros ->; vm_compute in Hk; discriminate.
Qed.

Lemma sanitizeFilename_is_safe_witness :
  sanitizeFilename toLowerCaseBasic (js "../Etc/Passwd  חומוס!") = js "etcpasswd-חומוס"
  /\ ~ In 47%N (sanitizeFilename toLowerCaseBasic (js "../Etc/Passwd  חומוס!")).
Proof.
  split; [vm_compute; reflexivity |].
  intros H.
  destruct (proj2 (proj2 (sanitizeFilename_is_safe toLowerCaseBasic
                            (js "../Etc/Passwd  חומוס!"))) _ H) as [C _].
  now apply C.
Defined.

(* ================================================================= *)
(** ** Properties of [extractInstructions] *)

Lemma dropWhile_snoc (p : N -> bool) (a : jsstring) (h : N) :
  p h = false ->
  exists w, dropWhile p (a ++ [h]) = w ++ [h]
            /\ match w with [] => True | c :: _ => p c = false end.
Proof.
  intros Hh. induction a as [| c a IH]; simpl.
  - rewrite Hh. exists []. auto.
  - destruct (p c) eqn:E; [exact IH |].
    exists (c :: a). auto.
Qed.

Lemma dropWhile_head (p : N -> bool) (s : jsstring) :
  match dropWhile p s with [] => True | c :: _ => p c = false end.
Proof.
  induction s as [| c s IH]; simpl; [exact I |].
  destruct (p c) eqn:E; [exact IH | exact E].
Qed.

(** What [trim] returns has no white space at either end. *)
Lemma trim_isTrimmed (s : jsstring) : isTrimmed (trim s) = true.
Proof.
  unfold trim, trimEnd, trimStart.
  pose proof (dropWhile_head isWhiteSpace s) as Hh.
  destruct (dropWhile isWhiteSpace s) as [| h t]; [reflexivity |].
  cbn [rev].
  destruct (@dropWhile_snoc isWhiteSpace (rev t) h Hh) as (w & E & Hw).
  rewrite E, rev_app_distr. cbn [rev app]. unfold isTrimmed.
  rewrite Hh. cbn [negb andb].
  destruct w as [| c w']; [cbn; now rewrite Hh |].
  cbn [rev].
  change (h :: rev w' ++ [c]) with ((h :: rev w') ++ [c]).
  now rewrite last_last, Hw.
Qed.

Lemma subItemsSteps_trimmed (subItems : list json) (steps : list jsstring) :
  subItemsSteps subItems = Returned steps ->
  forallb isTrimmed steps = true.
Proof.
  revert steps. induction subItems as [| i r IH]; intros steps;
    cbn [subItemsSteps]; [intros H; inversion H; reflexivity |].
  unfold bind.
  destruct (subItemSteps i) as [a |] eqn:Ea; [| discriminate].
  destruct (subItemsSteps r) as [b |]; [| discriminate].
  intros H. inversion H; subst. rewrite forallb_app, (IH b eq_refl), andb_true_r.
  unfold subItemSteps in Ea.
  destruct (json_isObject i && json_has i (js "text")).
  - destruct (json_get i (js "text")); inversion Ea; simpl.
    now rewrite trim_isTrimmed.
  - inversion Ea. reflexivity.
Qed.

Lemma itemsSteps_trimmed (items : list json) (steps : list jsstring) :
  itemsSteps items = Returned steps -> forallb isTrimmed steps = true.
Proof.
  revert steps. induction items as [| i r IH]; intros steps;
    cbn [itemsSteps]; [intros H; inversion H; reflexivity |].
  unfold bind.
  destruct (itemSteps i) as [a |] eqn:Ea; [| discriminate].
  destruct (itemsSteps r) as [b |]; [| discriminate].
  intros H. inversion H; subst. rewrite forallb_app, (IH b eq_refl), andb_true_r.
  unfold itemSteps in Ea.
  assert (Htext : forall t, Returned [trim t] = Returned a ->
                            forallb isTrimmed a = true).
  { intros t Ht. inversion Ht. simpl. now rewrite trim_isTrimmed. }
  assert (Hobj : (if json_isObject i
                  then match json_get i (js "text") with
                       | JString t => Returned [trim t]
                       | _ => match json_get i (js "itemListElement") with
                              | JArray subItems => subItemsSteps subItems
                              | _ => Returned []
                              end
                       end
                  else Returned []) = Returned a ->
                 forallb isTrimmed a = true).
  { destruct (json_isObject i); [| intros Hn; inversion Hn; reflexivity].
    destruct (json_get i (js "text")); try (apply Htext);
      (destruct (json_get i (js "itemListElement"));
       try (intros Hn; inversion Hn; reflexivity);
       apply subItemsSteps_trimmed). }
  destruct i; try (exact (Hobj Ea)). exact (Htext _ Ea).
Qed.

Lemma filter_nonEmpty_trimmed (steps : list jsstring) :
  forallb isTrimmed steps = true ->
  forallb (fun s => nonEmpty s && isTrimmed s) (filter nonEmpty steps) = true.
Proof.
  induction steps as [| s steps IH]; simpl; [reflexivity |].
  intros H. apply andb_true_iff in H as [Hs H].
  destruct (nonEmpty s) eqn:E; simpl; [| exact (IH H)].
  now rewrite E, Hs, (IH H).
Qed.

Lemma itemsSteps_texts (wrap : jsstring -> json) (texts : list jsstring) :
  (forall t, itemSteps (wrap t) = Returned [trim t]) ->
  itemsSteps (map wrap texts) = Returned (map trim texts).
Proof.
  intros Hw. induction texts as [| t texts IH]; [reflexivity |].
  cbn [map itemsSteps]. now rewrite Hw, IH.
Qed.

(** X9: every step [extractInstructions] returns is a non-empty text with
    no white space at either end, whatever the form of the instructions;
    missing or empty instructions give no step; a single text never makes
    it throw; and a list of texts, or of step objects, gives the trimmed
    texts in their order, the blank ones left out. *)
Theorem extractInstructions_steps_are_clean (instructions : json) :
  (forall steps,
      extractInstructions instructions = Returned steps ->
      forallb (fun s => nonEmpty s && isTrimmed s) steps = true)
  /\ (json_truthy instructions = false ->
      extractInstructions instructions = Returned [])
  /\ (forall s, instructions = JString s ->
      exists steps, extractInstructions instructions = Returned steps)
  /\ (forall texts,
      instructions = JArray (map JString texts)
      \/ instructions = JArray (map howToStep texts) ->
      extractInstructions instructions
      = Returned (filter nonEmpty (map trim texts))).
Proof.
  split; [| split; [| split]].
  - intros steps. unfold extractInstructions.
    destruct (json_truthy instructions); cbn [negb];
      [| intros H; inversion H; reflexivity].
    destruct instructions; try (intros H; inversion H; reflexivity).
    + intros H. inversion H; subst. apply filter_nonEmpty_trimmed.
      induction (splitSteps s) as [| p ps IH]; simpl; [reflexivity |].
      now rewrite trim_isTrimmed, IH.
    + unfold bind. destruct (itemsSteps items) as [l |] eqn:E; [| discriminate].
      intros H. inversion H; subst. apply filter_nonEmpty_trimmed.
      exact (itemsSteps_trimmed _ E).
  - intros H. unfold extractInstructions. now rewrite H.
  - intros s ->. unfold extractInstructions.
    destruct (json_truthy (JString s)); cbn [negb]; eauto.
  - intros texts [-> | ->]; unfold extractInstructions;
      cbn [json_truthy negb]; unfold bind.
    + now rewrite (@itemsSteps_texts JString texts (fun t => eq_refl)).
    + now rewrite (@itemsSteps_texts howToStep texts (fun t => eq_refl)).
Qed.

Lemma extractInstructions_steps_are_clean_witness :
  extractInstructions (JString (js "1. Mix the flour " ++ [10%N; 10%N] ++ js "2.  Bake"))
  = Returned [js "Mix the flour"; js "Bake"]
  /\ forallb (fun s => nonEmpty s && isTrimmed s) [js "Mix the flour"; js "Bake"]
     = true.
Proof.
  assert (E : extractInstructions
                (JString (js "1. Mix the flour " ++ [10%N; 10%N] ++ js "2.  Bake"))
              = Returned [js "Mix the flour"; js "Bake"])
    by (vm_compute; reflexivity).
  split; [exact E |].
  exact (proj1 (extractInstructions_steps_are_clean _) _ E).
Defined.

(* ================================================================= *)
(** ** Properties of [extractJsonLd] *)

Section StructuredDataProperties.

Variable toLowerCase : jsstring -> jsstring.

Lemma recipeInScript_sound (data found : json) :
  recipeInScript toLowerCase data = Returned (Some found) ->
  isRecipeType toLowerCase found = true.
Proof.
  unfold recipeInScript, bind.
  assert (Hfind : forall items x, find (isRecipeType toLowerCase) items = Some x ->
                                  isRecipeType toLowerCase x = true).
  { intros items x H. now apply find_some in H. }
  assert (Hrest :
    forall graphHit : Exc (option json),
      (forall item, graphHit = Returned (Some item) ->
                    isRecipeType toLowerCase item = true) ->
      match graphHit with
      | Returned (Some item) => Returned (Some item)
      | Returned None =>
          if isRecipeType toLowerCase data then Returned (Some data)
          else match data with
               | JArray items => Returned (find (isRecipeType toLowerCase) items)
               | _ => Returned None
               end
      | Threw e => Threw e
      end = Returned (Some found) ->
      isRecipeType toLowerCase found = true).
  { intros [[item |] | e] Hg; try discriminate.
    - intros H. inversion H; subst. now apply Hg.
    - destruct (isRecipeType toLowerCase data) eqn:Ed.
      + intros H. inversion H; subst. exact Ed.
      + destruct data; try discriminate.
        intros H. inversion H. eauto. }
  assert (Hgraph :
    forall item,
      (let graph := json_get data (js "@graph") in
       if json_truthy graph then
         match graph with
         | JArray items => Returned (find (isRecipeType toLowerCase) items)
         | JString _ => Returned None
         | _ => Threw (ErrorObject (js "data['@graph'] is not iterable"))
         end
       else Returned None) = Returned (Some item) ->
      isRecipeType toLowerCase item = true).
  { intros item. cbv zeta.
    destruct (json_truthy (json_get data (js "@graph"))); [| discriminate].
    destruct (json_get data (js "@graph")); try discriminate.
    intros H. inversion H. eauto. }
  destruct data; try discriminate; intros H; exact (Hrest _ Hgraph H).
Qed.

(** X10: what [extractJsonLd] returns is always an object whose [@type] is,
    or contains, "recipe" in some spelling of case; a script that is empty,
    does not parse or makes the scan throw is passed over; and a script
    that is itself a recipe object without a [@graph] is never missed,
    whatever comes before it on the page. *)
Theorem extractJsonLd_returns_a_recipe (scripts : list (option json)) :
  (forall found,
      extractJsonLd_from toLowerCase scripts = Some found ->
      isRecipeType toLowerCase found = true)
  /\ (forall before after data,
      scripts = before ++ Some data :: after ->
      isRecipeType toLowerCase data = true ->
      json_get data (js "@graph") = JUndefined ->
      exists found, extractJsonLd_from toLowerCase scripts = Some found).
Proof.
  split.
  - intros found. induction scripts as [| [data |] rest IH];
      cbn [extractJsonLd_from]; [discriminate | | exact IH].
    destruct (recipeInScript toLowerCase data) as [[hit |] | e] eqn:E;
      [| exact IH | exact IH].
    intros H. inversion H; subst. exact (recipeInScript_sound _ E).
  - intros before after data -> Hd Hg.
    assert (Hhit : recipeInScript toLowerCase data = Returned (Some data)).
    { unfold recipeInScript, bind. rewrite Hg. cbn [json_truthy].
      rewrite Hd.
      destruct data; try reflexivity; discriminate. }
    induction before as [| [d |] before IH]; cbn [app extractJsonLd_from].
    + rewrite Hhit. eauto.
    + destruct (recipeInScript toLowerCase d) as [[hit |] | e]; eauto.
    + exact IH.
Qed.

End StructuredDataProperties.

Lemma extractJsonLd_returns_a_recipe_witness :
  exists found,
    extractJsonLd_from toLowerCaseBasic
      ([None; Some JNull; Some (JObject [(js "@graph", JNumber (Finite 1))])]
       ++ Some (JObject [(js "@type",
                          JArray [JString (js "Recipe");
                                  JString (js "NutritionInformation")]);
                         (js "name", JString (js "Shakshuka"))])
       :: [Some (JObject [(js "@type", JString (js "recipe"))])])
    = Some found.
Proof.
  eapply (proj2 (extractJsonLd_returns_a_recipe toLowerCaseBasic _));
    [reflexivity | vm_compute; reflexivity | vm_compute; reflexivity].
Defined.

(* ================================================================= *)
(** ** More properties of [parseIngredient] *)

Lemma takeWhile_dropWhile (p : N -> bool) (s : jsstring) :
  s = takeWhile p s ++ dropWhile p s.
Proof.
  induction s as [| c s IH]; simpl; [reflexivity |].
  destruct (p c); simpl; [now rewrite <- IH | reflexivity].
Qed.

Lemma startsWith_self (w rest : jsstring) : startsWith (w ++ rest) w = true.
Proof.
  induction w as [| x w IH]; simpl; [destruct rest; reflexivity |].
  now rewrite N.eqb_refl, IH.
Qed.

Lemma startsWith_split (s w : jsstring) :
  startsWith s w = true -> exists rest, s = w ++ rest.
Proof.
  revert s. induction w as [| x w IH]; intros s H; [exists s; reflexivity |].
  destruct s as [| c s]; simpl in H; [discriminate |].
  apply andb_true_iff in H as [Hx H]. apply N.eqb_eq in Hx. subst.
  destruct (IH _ H) as [rest ->]. exists rest. reflexivity.
Qed.

Lemma includes_middle (pre w rest : jsstring) :
  includes (pre ++ w ++ rest) w = true.
Proof.
  induction pre as [| c pre IH]; cbn [app].
  - apply includes_head. apply startsWith_self.
  - apply includes_tail. exact IH.
Qed.

Lemma commentMatch_found (s whole inner : jsstring) :
  commentMatch s = Some (whole, inner) ->
  whole = 40%N :: inner ++ [41%N] /\ inner <> []
  /\ forallb notClosing inner = true
  /\ exists pre rest, s = pre ++ whole ++ rest.
Proof.
  induction s as [| c s IH]; cbn [commentMatch]; [discriminate |].
  assert (Hnext : commentMatch s = Some (whole, inner) ->
                  whole = 40%N :: inner ++ [41%N] /\ inner <> []
                  /\ forallb notClosing inner = true
                  /\ exists pre rest, c :: s = pre ++ whole ++ rest).
  { intros H. destruct (IH H) as (E1 & E2 & E3 & pre & rest & E4).
    repeat split; auto. exists (c :: pre), rest. simpl. now rewrite E4. }
  destruct (N.eqb_spec c 40) as [-> | Hc]; [| exact Hnext].
  pose proof (takeWhile_dropWhile notClosing s) as Hs.
  pose proof (takeWhile_forallb notClosing s) as Hrun.
  pose proof (dropWhile_head notClosing s) as Hhd.
  fold notClosing.
  destruct (takeWhile notClosing s) as [| r run]; [exact Hnext |].
  destruct (dropWhile notClosing s) as [| d rest]; [exact Hnext |].
  intros H. inversion H; subst whole inner; clear H.
  unfold notClosing in Hhd. apply negb_false_iff, N.eqb_eq in Hhd. subst d.
  repeat split; auto; [discriminate |].
  exists [], rest. cbn [app]. rewrite Hs. now rewrite <- app_assoc.
Qed.

Lemma takeWhile_digits_like (inner rest : jsstring) :
  forallb notClosing inner = true ->
  takeWhile notClosing (inner ++ 41%N :: rest) = inner
  /\ dropWhile notClosing (inner ++ 41%N :: rest) = 41%N :: rest.
Proof.
  intros H. induction inner as [| c inner IH]; simpl; [auto |].
  simpl in H. apply andb_true_iff in H as [Hc H].
  rewrite Hc. destruct (IH H) as [E1 E2]. now rewrite E1, E2.
Qed.

Lemma commentMatch_complete (s inner : jsstring) :
  inner <> [] -> forallb notClosing inner = true ->
  includes s (40%N :: inner ++ [41%N]) = true ->
  commentMatch s <> None.
Proof.
  intros Hne Hin. induction s as [| c s IH]; intros H.
  - cbn [includes] in H. rewrite orb_false_r in H. discriminate.
  - change (includes (c :: s) (40%N :: inner ++ [41%N]))
      with (startsWith (c :: s) (40%N :: inner ++ [41%N])
            || includes s (40%N :: inner ++ [41%N])) in H.
    cbn [commentMatch]. fold notClosing.
    apply orb_true_iff in H as [H | H].
    + destruct (startsWith_split _ _ H) as [rest E].
      inversion E; subst c s. rewrite N.eqb_refl.
      rewrite <- app_assoc. cbn [app].
      destruct (@takeWhile_digits_like inner rest Hin) as [E1 E2].
      rewrite E1, E2. destruct inner; [congruence | discriminate].
    + destruct (c =? 40)%N; [| exact (IH H)].
      destruct (takeWhile notClosing s); [exact (IH H) |].
      destruct (dropWhile notClosing s); [exact (IH H) | discriminate].
Qed.

Lemma parseIngredient_comments (toLowerCase : jsstring -> jsstring) (line : jsstring) :
  comments (parseIngredient toLowerCase line) = fst (extractComment (trim line)).
Proof.
  unfold parseIngredient.
  destruct (extractComment (trim line)) as [cm item0].
  destruct (extractQuantity toLowerCase item0) as [qty item1]. reflexivity.
Qed.

(** X11: the comment of an ingredient, when there is one, is a non-empty
    text without ")" that stands between parentheses in the line; and
    there is none only if the line has no such parenthesised text at all. *)
Theorem parseIngredient_comment_is_parenthesised
    (toLowerCase : jsstring -> jsstring) (line : jsstring) :
  (forall c,
      comments (parseIngredient toLowerCase line) = Some c ->
      c <> [] /\ ~ In 41%N c
      /\ includes (trim line) (40%N :: c ++ [41%N]) = true)
  /\ (comments (parseIngredient toLowerCase line) = None ->
      forall c, c <> [] -> ~ In 41%N c ->
                includes (trim line) (40%N :: c ++ [41%N]) = false).
Proof.
  rewrite parseIngredient_comments. unfold extractComment.
  destruct (commentMatch (trim line)) as [[whole inner] |] eqn:E; cbn [fst].
  - split; [| discriminate].
    intros c H. inversion H; subst c; clear H.
    destruct (commentMatch_found _ E) as (Ew & Hne & Hin & pre & rest & Es).
    split; [exact Hne | split].
    + intros C. rewrite forallb_forall in Hin. specialize (Hin _ C).
      discriminate.
    + rewrite Es, <- Ew. apply includes_middle.
  - split; [discriminate |].
    intros _ c Hne Hin.
    destruct (includes (trim line) (40%N :: c ++ [41%N])) eqn:Ei; [| reflexivity].
    exfalso. apply (@commentMatch_complete (trim line) c Hne); [| exact Ei | exact E].
    apply forallb_forall. intros x Hx. unfold notClosing.
    apply negb_true_iff, N.eqb_neq. intros ->. now apply Hin.
Qed.

Lemma parseIngredient_comment_is_parenthesised_witness :
  comments (parseIngredient toLowerCaseBasic (js "1/2 כוס חלב (חם)"))
  = Some (js "חם")
  /\ includes (trim (js "1/2 כוס חלב (חם)")) (40%N :: js "חם" ++ [41%N]) = true.
Proof.
  assert (E : comments (parseIngredient toLowerCaseBasic (js "1/2 כוס חלב (חם)"))
              = Some (js "חם")) by (vm_compute; reflexivity).
  split; [exact E |].
  exact (proj2 (proj2 (proj1 (parseIngredient_comment_is_parenthesised
                                toLowerCaseBasic (js "1/2 כוס חלב (חם)")) _ E))).
Defined.

(** X12: the item of an ingredient is empty exactly when the line is blank
    (empty or white space only), and a blank line gives an ingredient with
    every text empty and no quantity and no comment. *)
Theorem parseIngredient_blank_line
    (toLowerCase : jsstring -> jsstring) (line : jsstring) :
  (item (parseIngredient toLowerCase line) = [] <-> trim line = [])
  /\ (trim line = [] ->
      original (parseIngredient toLowerCase line) = []
      /\ quantity (parseIngredient toLowerCase line) = None
      /\ comments (parseIngredient toLowerCase line) = None).
Proof.
  assert (Ec : extractComment [] = (None, [])) by reflexivity.
  assert (Eq : extractQuantity toLowerCase [] = (None, [])) by reflexivity.
  assert (Hblank : trim line = [] -> parsedItem toLowerCase line = []).
  { intros H. unfold parsedItem. rewrite H, Ec, Eq.
    destruct (parseUnit toLowerCase []); vm_compute; reflexivity. }
  split.
  - split.
    + intros H. unfold parseIngredient in H.
      destruct (extractComment (trim line)) as [cm item0].
      destruct (extractQuantity toLowerCase item0) as [qty item1].
      cbn [item] in H. unfold orElse in H.
      destruct (parsedItem toLowerCase line); [exact H | discriminate].
    + intros H. unfold parseIngredient.
      destruct (extractComment (trim line)) as [cm item0].
      destruct (extractQuantity toLowerCase item0) as [qty item1].
      cbn [item]. now rewrite (Hblank H), H.
  - intros H. unfold parseIngredient. rewrite H, Ec, Eq.
    repeat split; reflexivity.
Qed.

Lemma parseIngredient_blank_line_witness :
  item (parseIngredient toLowerCaseBasic (js "   ")) = []
  /\ quantity (parseIngredient toLowerCaseBasic (js "   ")) = None.
Proof.
  assert (H : trim (js "   ") = []) by (vm_compute; reflexivity).
  split.
  - exact (proj2 (proj1 (parseIngredient_blank_line toLowerCaseBasic (js "   "))) H).
  - exact (proj1 (proj2 (proj2 (parseIngredient_blank_line toLowerCaseBasic
                                  (js "   ")) H))).
Defined.

(** *** The quantity is never negative *)

Ltac bool_facts :=
  repeat match goal with
         | H : (_ || _) = true |- _ => apply orb_true_iff in H; destruct H as [H | H]
         | H : (_ && _) = true |- _ => apply andb_true_iff in H; destruct H
         | H : (_ <=? _)%N = true |- _ => apply N.leb_le in H
         | H : (_ =? _)%N = true |- _ => apply N.eqb_eq in H
         end.

Lemma numeral_char_range (c : N) :
  isNumeralRunChar c = true ->
  (c <= 57 \/ 160 <= c)%N /\ c <> 43%N /\ c <> 45%N.
Proof.
  unfold isNumeralRunChar, isDigit, isWhiteSpace. intros H.
  bool_facts; lia.
Qed.

Lemma numeral_not_letter (c x : N) :
  isNumeralRunChar c = true -> (65 <= x <= 122)%N ->
  (x =? c)%N = false /\ eq_ignoreCase x c = false.
Proof.
  intros H Hx. destruct (numeral_char_range _ H) as ([Hc | Hc] & _ & _);
    split; try (apply N.eqb_neq; lia);
    unfold eq_ignoreCase, lowerBasicLatin;
    destruct ((65 <=? x) && (x <=? 90))%N eqn:Ex;
    destruct ((65 <=? c) && (c <=? 90))%N eqn:Ec;
    bool_facts; apply N.eqb_neq; try lia;
    apply andb_false_iff in Ex; destruct Ex as [Ex | Ex];
    try (apply N.leb_gt in Ex); lia.
Qed.

Lemma forallb_dropWhile (p q : N -> bool) (s : jsstring) :
  forallb p s = true -> forallb p (dropWhile q s) = true.
Proof.
  induction s as [| c s IH]; simpl; [reflexivity |].
  intros H. destruct (q c); [| exact H].
  apply andb_true_iff in H as [_ H]. exact (IH H).
Qed.

Lemma forallb_rev (p : N -> bool) (s : jsstring) :
  forallb p s = true -> forallb p (rev s) = true.
Proof.
  intros H. apply forallb_forall. intros x Hx. apply in_rev in Hx.
  rewrite forallb_forall in H. now apply H.
Qed.

Lemma forallb_trim (p : N -> bool) (s : jsstring) :
  forallb p s = true -> forallb p (trim s) = true.
Proof.
  intros H. unfold trim, trimEnd, trimStart.
  apply forallb_rev, forallb_dropWhile, forallb_rev, forallb_dropWhile, H.
Qed.

Lemma whole_notNegative (n : N) : notNegative (Finite (inject_Z (Z.of_N n))) = true.
Proof.
  cbn [notNegative]. apply Qle_bool_iff. unfold Qle, inject_Z. simpl. lia.
Qed.

Lemma roundToDouble_notNegative (q : Q) :
  Qle 0 q -> notNegative (roundToDouble q) = true.
Proof.
  intros H. unfold roundToDouble.
  destruct (Qnum q) as [| a | a] eqn:E.
  - reflexivity.
  - destruct (roundPositive_cases a (Qden q)) as [Hinf | (m & e & Hm & Hfin)].
    + now rewrite Hinf.
    + rewrite Hfin. cbn [notNegative]. apply Qle_bool_iff.
      now apply dyadic_nonneg.
  - unfold Qle in H. cbn [Qnum Qden] in H. rewrite E in H. lia.
Qed.

Lemma count_notNegative (x : number) : isCount x -> notNegative x = true.
Proof. intros [-> | [n ->]]; [reflexivity | apply whole_notNegative]. Qed.

Lemma num_div_notNegative (x y : number) :
  isCount x -> isCount y -> notNegative (num_div x y) = true.
Proof.
  intros [-> | [a ->]] [-> | [b ->]]; try reflexivity.
  - cbn [num_div].
    assert (Hb : Qle_bool 0 (inject_Z (Z.of_N b)) = true)
      by (apply Qle_bool_iff; unfold Qle, inject_Z; simpl; lia).
    now rewrite Hb.
  - assert (Ha : Qle 0 (inject_Z (Z.of_N a))) by (unfold Qle, inject_Z; simpl; lia).
    assert (Hb : Qle 0 (inject_Z (Z.of_N b))) by (unfold Qle, inject_Z; simpl; lia).
    cbn [num_div].
    destruct (Qeq_bool (inject_Z (Z.of_N b)) 0).
    + destruct (Qeq_bool (inject_Z (Z.of_N a)) 0); [reflexivity |].
      apply Qle_bool_iff in Ha. now rewrite Ha.
    + apply roundToDouble_notNegative. unfold Qdiv.
      apply Qmult_le_0_compat; [exact Ha | now apply Qinv_le_0_compat].
Qed.

Lemma num_add_notNegative (x y : number) :
  notNegative x = true -> notNegative y = true ->
  notNegative (num_add x y) = true.
Proof.
  destruct x as [a | | |], y as [b | | |]; cbn [notNegative num_add];
    try reflexivity; try discriminate.
  intros Ha Hb. apply Qle_bool_iff in Ha, Hb.
  apply roundToDouble_notNegative.
  change 0%Q with (0 + 0)%Q. now apply Qplus_le_compat.
Qed.

Lemma digits_parse_count (ds : jsstring) :
  ds <> [] -> forallb isDigit ds = true -> isCount (parseInt10 ds).
Proof.
  intros H1 H2. rewrite parseInt10_digits by assumption.
  apply roundToDouble_count. lia.
Qed.

Lemma fractionAt_digits (s a b : jsstring) :
  fractionAt s = Some (a, b) ->
  (a <> [] /\ forallb isDigit a = true) /\ (b <> [] /\ forallb isDigit b = true).
Proof.
  unfold fractionAt.
  pose proof (takeWhile_forallb isDigit s) as Ha.
  destruct (takeWhile isDigit s) as [| a0 a']; [discriminate |].
  destruct (dropWhile isWhiteSpace (dropWhile isDigit s)) as [| c r];
    [discriminate |].
  destruct (c =? 47)%N; [| discriminate].
  pose proof (takeWhile_forallb isDigit (dropWhile isWhiteSpace r)) as Hb.
  destruct (takeWhile isDigit (dropWhile isWhiteSpace r)) as [| b0 b'];
    [discriminate |].
  intros H. inversion H; subst. repeat split; auto; discriminate.
Qed.

Lemma fractionMatch_digits (s a b : jsstring) :
  fractionMatch s = Some (a, b) ->
  (a <> [] /\ forallb isDigit a = true) /\ (b <> [] /\ forallb isDigit b = true).
Proof.
  induction s as [| c s IH]; cbn [fractionMatch].
  - destruct (fractionAt []) as [[a' b'] |] eqn:E; [| discriminate].
    intros H. inversion H; subst. exact (fractionAt_digits _ E).
  - destruct (fractionAt (c :: s)) as [[a' b'] |] eqn:E; [| exact IH].
    intros H. inversion H; subst. exact (fractionAt_digits _ E).
Qed.

Lemma parseFloat_numerals (t : jsstring) :
  forallb isNumeralRunChar t = true -> notNegative (parseFloat t) = true.
Proof.
  intros Ht. unfold parseFloat.
  pose proof (@forallb_dropWhile isNumeralRunChar isWhiteSpace t Ht) as Hu.
  fold (trimStart t) in Hu.
  assert (Es : stripSign (trimStart t) = (false, trimStart t)).
  { destruct (trimStart t) as [| c r]; [reflexivity |].
    simpl in Hu. apply andb_true_iff in Hu as [Hc _].
    destruct (numeral_char_range _ Hc) as (_ & H43 & H45).
    unfold stripSign.
    apply N.eqb_neq in H43, H45. now rewrite H43, H45. }
  rewrite Es.
  assert (Ei : startsWith (trimStart t) (js "Infinity") = false).
  { destruct (trimStart t) as [| c r]; [reflexivity |].
    simpl in Hu. apply andb_true_iff in Hu as [Hc _].
    change (js "Infinity") with (73%N :: js "nfinity"). cbn [startsWith].
    destruct (@numeral_not_letter c 73 Hc ltac:(lia)) as [E _]. now rewrite E. }
  rewrite Ei.
  pose proof (@forallb_dropWhile isNumeralRunChar isDigit (trimStart t) Hu) as Hr1.
  destruct (fractionDigits (dropWhile isDigit (trimStart t))) as [fp r2] eqn:Ef.
  assert (Hr2 : forallb isNumeralRunChar r2 = true).
  { unfold fractionDigits in Ef.
    destruct (dropWhile isDigit (trimStart t)) as [| c r];
      [inversion Ef; reflexivity |].
    destruct (c =? 46)%N; inversion Ef; subst; [| exact Hr1].
    apply forallb_dropWhile. simpl in Hr1.
    now apply andb_true_iff in Hr1 as [_ Hr1]. }
  assert (Ee : exponentPart r2 = 0%Z).
  { destruct r2 as [| c r]; [reflexivity |].
    simpl in Hr2. apply andb_true_iff in Hr2 as [Hc _].
    unfold exponentPart.
    destruct (@numeral_not_letter c 101 Hc ltac:(lia)) as [_ E]. now rewrite E. }
  rewrite Ee.
  destruct (takeWhile isDigit (trimStart t) ++ fp) as [| d ds]; [reflexivity |].
  cbv zeta. apply roundToDouble_notNegative.
  set (m := Z.of_N (digitsValue (d :: ds))).
  assert (Hm : (0 <= m)%Z) by (unfold m; lia).
  destruct (0 <=? 0 - Z.of_nat (List.length fp))%Z eqn:E0.
  - apply Z.leb_le in E0.
    unfold Qle, inject_Z. simpl.
    assert (0 <= 10 ^ (0 - Z.of_nat (List.length fp)))%Z by (apply Z.pow_nonneg; lia).
    nia.
  - unfold Qle. simpl. lia.
Qed.

Lemma table_values_notNegative :
  (forall w v, In (w, v) HEBREW_FRACTION_MAP -> notNegative v = true)
  /\ (forall w v, In (w, v) HEBREW_NUMBER_MAP -> notNegative v = true).
Proof.
  split; intros w v H; cbn [In HEBREW_FRACTION_MAP HEBREW_NUMBER_MAP] in H;
    repeat (destruct H as [H | H]; [inversion H; reflexivity |]);
    contradiction.
Qed.

Lemma firstEntry_in (V : Type) (p : jsstring -> bool) (T : table V) w v :
  firstEntry p T = Some (w, v) -> In (w, v) T.
Proof. unfold firstEntry. intros H. now apply find_some in H. Qed.

Lemma parseHebrewNumber_notNegative
    (toLowerCase : jsstring -> jsstring) (run : jsstring) (x : number) :
  keepsNumerals toLowerCase ->
  forallb isNumeralRunChar run = true ->
  parseHebrewNumber toLowerCase run = Some x -> notNegative x = true.
Proof.
  intros Hlc Hrun. unfold parseHebrewNumber. cbv zeta.
  pose proof (@forallb_trim isNumeralRunChar run Hrun) as Ht.
  rewrite (Hlc _ Ht).
  destruct (firstEntry _ HEBREW_FRACTION_MAP) as [[w v] |] eqn:E1.
  { intros H. inversion H; subst.
    exact (proj1 table_values_notNegative _ _ (firstEntry_in _ _ E1)). }
  destruct (firstEntry _ HEBREW_NUMBER_MAP) as [[w v] |] eqn:E2.
  { intros H. inversion H; subst.
    exact (proj2 table_values_notNegative _ _ (firstEntry_in _ _ E2)). }
  destruct (negb (num_isNaN (parseFloat (trim run)))).
  { intros H. inversion H; subst. exact (parseFloat_numerals _ Ht). }
  destruct (fractionMatch (trim run)) as [[a b] |] eqn:E3.
  { destruct (fractionMatch_digits _ E3) as [[Ha1 Ha2] [Hb1 Hb2]].
    intros H. inversion H; subst.
    apply num_div_notNegative; now apply digits_parse_count. }
  rewrite (mixed_rule_is_dead _ E3). discriminate.
Qed.

(** X13: [parseIngredient] never returns a negative quantity: the quantity,
    when there is one, is a fraction-table value, a non-negative number, or
    the Infinity or NaN of a division by zero. *)
Theorem parseIngredient_quantity_not_negative
    (toLowerCase : jsstring -> jsstring) (line : jsstring) (x : number) :
  keepsNumerals toLowerCase ->
  quantity (parseIngredient toLowerCase line) = Some x ->
  notNegative x = true.
Proof.
  intros Hlc. unfold parseIngredient.
  destruct (extractComment (trim line)) as [cm item0].
  destruct (extractQuantity toLowerCase item0) as [qty item1] eqn:E.
  cbn [quantity]. intros ->.
  unfold extractQuantity in E.
  destruct (firstEntry _ HEBREW_FRACTION_MAP) as [[w v] |] eqn:E1.
  { inversion E; subst.
    exact (proj1 table_values_notNegative _ _ (firstEntry_in _ _ E1)). }
  unfold numMatch in E.
  pose proof (takeWhile_forallb isNumeralRunChar item0) as Hrun.
  destruct (takeWhile isNumeralRunChar item0) as [| c run]; [discriminate |].
  destruct (parseHebrewNumber toLowerCase (c :: run)) as [q |] eqn:E2;
    [| discriminate].
  inversion E; subst.
  exact (@parseHebrewNumber_notNegative toLowerCase (c :: run) x Hlc Hrun E2).
Qed.

Lemma toLowerCaseBasic_keepsNumerals : keepsNumerals toLowerCaseBasic.
Proof.
  intros s. unfold toLowerCaseBasic.
  induction s as [| c s IH]; simpl; [reflexivity |].
  intros H. apply andb_true_iff in H as [Hc Hs].
  rewrite (IH Hs). f_equal.
  destruct (numeral_char_range _ Hc) as ([H | H] & _ & _);
    unfold lowerBasicLatin;
    destruct ((65 <=? c) && (c <=? 90))%N eqn:E; try reflexivity;
    bool_facts; lia.
Qed.

Lemma parseIngredient_quantity_not_negative_witness :
  quantity (parseIngredient toLowerCaseBasic (js "-2 כוסות קמח")) = None
  /\ notNegative (Finite (5 # 2)) = true.
Proof.
  split; [vm_compute; reflexivity |].
  apply (@parseIngredient_quantity_not_negative toLowerCaseBasic
           (js "2.5 כוסות קמח") (Finite (5 # 2))
           toLowerCaseBasic_keepsNumerals).
  vm_compute. reflexivity.
Defined.

(* ================================================================= *)
(** ** Further properties of the AI-assisted extractor and of [extract] *)

(** X14: the text sent to the model is at most 15000 code units of the
    page followed by the 24 of the truncation note; a text within the
    limit is sent whole, the first 15000 code units are always those of
    the page, and truncating twice is truncating once. *)
Theorem truncate_bounds_the_text (rawText : jsstring) :
  List.length (truncate rawText) <= maxTextLength + 24
  /\ (List.length rawText <= maxTextLength -> truncate rawText = rawText)
  /\ (maxTextLength < List.length rawText ->
      List.length (truncate rawText) = maxTextLength + 24)
  /\ firstn maxTextLength (truncate rawText) = firstn maxTextLength rawText
  /\ truncate (truncate rawText) = truncate rawText.
Proof.
  assert (Hn : forall t, maxTextLength < List.length t ->
             truncate t
             = firstn maxTextLength t ++ [10%N; 10%N] ++ js "[Content truncated...]").
  { intros t H. unfold truncate. apply Nat.ltb_lt in H. now rewrite H. }
  assert (Hs : forall t, List.length t <= maxTextLength -> truncate t = t).
  { intros t H. unfold truncate.
    destruct (maxTextLength <? List.length t) eqn:E; [| reflexivity].
    apply Nat.ltb_lt in E. lia. }
  assert (Hl : forall t, maxTextLength < List.length t ->
             List.length (truncate t) = maxTextLength + 24).
  { intros t H. rewrite (Hn t H), length_app, length_firstn.
    rewrite Nat.min_l by lia. reflexivity. }
  assert (Hp : forall t, firstn maxTextLength (truncate t) = firstn maxTextLength t).
  { intros t. destruct (Nat.le_gt_cases (List.length t) maxTextLength) as [H | H].
    - now rewrite (Hs t H).
    - rewrite (Hn t H), firstn_app, length_firstn, Nat.min_l by lia.
      rewrite Nat.sub_diag, firstn_firstn, Nat.min_id. cbn [firstn].
      apply app_nil_r. }
  destruct (Nat.le_gt_cases (List.length rawText) maxTextLength) as [H | H].
  - rewrite (Hs _ H). repeat split; auto; lia.
  - pose proof (Hl _ H) as L. repeat split; auto; try lia.
    rewrite (Hn (truncate rawText)) by lia.
    rewrite Hp. symmetry. exact (Hn _ H).
Qed.

Lemma truncate_bounds_the_text_witness :
  truncate (js "Shakshuka. 4 eggs.") = js "Shakshuka. 4 eggs.".
Proof.
  apply (proj1 (proj2 (truncate_bounds_the_text (js "Shakshuka. 4 eggs.")))).
  apply Nat.leb_le. vm_compute. reflexivity.
Defined.

Section ExtractProperties.

Variable options : ExtractorOptions.
Variable newURL : jsstring -> Exc Datatypes.unit.
Variable smartFetch : jsstring -> Z -> Exc FetchResult.
Variable parseRecipeFromHtml : jsstring -> jsstring -> Exc (option PartialRecipe).
Variable hasApiKey : bool.
Variable extractImageFromHtml : jsstring -> option jsstring.
Variables startTime finishTime : Z.

Lemma parseWithLLM_provenance generateObject text url partialData r :
  parseWithLLM generateObject text url partialData = Returned r ->
  sourceUrl r = url
  /\ rawText r = Some (truncate text)
  /\ kashrut r <> None
  /\ imageUrl r = orNull (partialField partialData p_imageUrl)
  /\ match partialData with
     | Some _ => extractionMethod r = hybrid /\ confidence r = 0.85%Q
     | None => extractionMethod r = llm /\ confidence r = 0.75%Q
     end.
Proof.
  unfold parseWithLLM. cbv zeta.
  destruct (generateObject _) as [object | e]; cbn [bind tryCatch];
    [| discriminate].
  intros H. inversion H; subst; clear H. cbn.
  repeat split; try discriminate; destruct partialData; auto.
Qed.

(** X15: every recipe [extract] returns is stamped with the address it was
    asked for and with one of three pairs of method and confidence:
    structured data alone at 0.9, without raw text and kashrut; or the model
    with the structured data (0.85) or without (0.75), with the truncated
    page text.  The confidence badge is therefore never the terracotta one. *)
Theorem extract_stamps_provenance
    (generateObject : LLMRequest -> Exc LLMObject)
    (url : jsstring) (res : ExtractionResult) (r : Recipe) :
  extract options newURL smartFetch parseRecipeFromHtml hasApiKey
          generateObject extractImageFromHtml startTime finishTime url
  = Returned res ->
  recipe res = Some r ->
  success res = true
  /\ sourceUrl r = url
  /\ (exists fetched,
        smartFetch url (timeout options) = Returned fetched
        /\ ((extractionMethod r = json_ld /\ confidence r = 0.9%Q
             /\ rawText r = None /\ kashrut r = None
             /\ exists p, parseRecipeFromHtml (html fetched) url = Returned (Some p)
                          /\ r = structuredOnly p url)
            \/ ((extractionMethod r = hybrid /\ confidence r = 0.85%Q
                 \/ extractionMethod r = llm /\ confidence r = 0.75%Q)
                /\ rawText r = Some (truncate (cleanedText fetched))
                /\ kashrut r <> None
                /\ useLlm options = true /\ hasApiKey = true)))
  /\ getConfidenceColor (confidence r) <> js "text-terracotta-600".
Proof.
  intros He Hr.
  assert (Hc : forall q, (q = 0.9 \/ q = 0.85 \/ q = 0.75)%Q ->
               getConfidenceColor q <> js "text-terracotta-600").
  { intros q [-> | [-> | ->]]; vm_compute; discriminate. }
  unfold extract in He. cbv zeta in He.
  destruct (newURL url) as [u | e];
    [| inversion He; subst; discriminate].
  destruct (smartFetch url (timeout options)) as [fetched | e];
    [| inversion He; subst; discriminate].
  destruct (parseRecipeFromHtml (html fetched) url) as [parsed | e] eqn:Epar;
    [| discriminate].
  cbn [bind] in He.
  assert (Hstructured : forall p,
             parseRecipeFromHtml (html fetched) url = Returned (Some p) ->
             res = succeeded startTime finishTime (structuredOnly p url)
                     (warnings res) ->
             success res = true
             /\ sourceUrl r = url
             /\ (exists fetched0,
                    Returned fetched = Returned fetched0
                    /\ ((extractionMethod r = json_ld /\ confidence r = 0.9%Q
                         /\ rawText r = None /\ kashrut r = None
                         /\ exists p, parseRecipeFromHtml (html fetched0) url = Returned (Some p)
                                      /\ r = structuredOnly p url)
                        \/ ((extractionMethod r = hybrid /\ confidence r = 0.85%Q
                             \/ extractionMethod r = llm /\ confidence r = 0.75%Q)
                            /\ rawText r = Some (truncate (cleanedText fetched0))
                            /\ kashrut r <> None
                            /\ useLlm options = true /\ hasApiKey = true)))
             /\ getConfidenceColor (confidence r) <> js "text-terracotta-600").
  { intros p Hp E. rewrite E in Hr. cbn in Hr. inversion Hr; subst r.
    refine (conj _ (conj _ (conj _ _))).
    - now rewrite E.
    - reflexivity.
    - exists fetched. split; [reflexivity |]. left.
      refine (conj _ (conj _ (conj _ (conj _ _)))); try reflexivity.
      exists p. auto.
    - apply Hc. now left. }
  assert (Hmodel : forall partialData r0 ws,
             parseWithLLM generateObject (cleanedText fetched) url partialData
             = Returned r0 ->
             useLlm options = true -> hasApiKey = true ->
             sourceUrl r = sourceUrl r0 -> rawText r = rawText r0 ->
             kashrut r = kashrut r0 -> extractionMethod r = extractionMethod r0 ->
             confidence r = confidence r0 ->
             res = succeeded startTime finishTime r ws ->
             success res = true
             /\ sourceUrl r = url
             /\ (exists fetched0,
                    Returned fetched = Returned fetched0
                    /\ ((extractionMethod r = json_ld /\ confidence r = 0.9%Q
                         /\ rawText r = None /\ kashrut r = None
                         /\ exists p, parseRecipeFromHtml (html fetched0) url = Returned (Some p)
                                      /\ r = structuredOnly p url)
                        \/ ((extractionMethod r = hybrid /\ confidence r = 0.85%Q
                             \/ extractionMethod r = llm /\ confidence r = 0.75%Q)
                            /\ rawText r = Some (truncate (cleanedText fetched0))
                            /\ kashrut r <> None
                            /\ useLlm options = true /\ hasApiKey = true)))
             /\ getConfidenceColor (confidence r) <> js "text-terracotta-600").
  { intros partialData r0 ws Hp Hu Hk E1 E2 E3 E4 E5 E.
    destruct (parseWithLLM_provenance _ _ _ _ Hp) as (Hs & Ht & Hka & _ & Hm).
    assert (Hq : (extractionMethod r0 = hybrid /\ confidence r0 = 0.85%Q)
                 \/ (extractionMethod r0 = llm /\ confidence r0 = 0.75%Q))
      by (destruct partialData; auto).
    refine (conj _ (conj _ (conj _ _))).
    - now rewrite E.
    - now rewrite E1.
    - exists fetched. split; [reflexivity |]. right.
      rewrite E2, E3, E4, E5. auto.
    - apply Hc. rewrite E5. destruct Hq as [[_ ->] | [_ ->]]; auto. }
  destruct (isValidRecipe parsed) eqn:Ev.
  - destruct parsed as [p |]; [| discriminate].
    unfold tryRefine in He.
    destruct (useLlm options) eqn:Eu; cbn [andb] in He;
      [| inversion He; subst res; now apply (Hstructured p)].
    destruct hasApiKey eqn:Ek;
      [| inversion He; subst res; now apply (Hstructured p)].
    destruct (refineRecipe generateObject p (cleanedText fetched) url)
      as [refined | e] eqn:Er;
      [| inversion He; subst res; now apply (Hstructured p)].
    inversion He; subst res. cbn in Hr. inversion Hr; subst refined.
    unfold refineRecipe in Er.
    destruct (hasGoodData p); now apply (Hmodel _ r [] Er).
  - unfold fullExtraction in He.
    destruct (useLlm options) eqn:Eu; cbn [negb] in He;
      [| inversion He; subst; discriminate].
    destruct hasApiKey eqn:Ek; cbn [negb] in He;
      [| inversion He; subst; discriminate].
    destruct (parseWithLLM generateObject (cleanedText fetched) url
                parsed) as [r0 | e] eqn:Ep;
      [| inversion He; subst; discriminate].
    cbv zeta in He. inversion He; subst res; clear He. cbn in Hr.
    destruct (orNull (imageUrl r0)); inversion Hr; subst r;
      now apply (Hmodel _ r0 [] Ep).
Qed.

End ExtractProperties.

Lemma extract_stamps_provenance_witness :
  exists res r,
    extract DEFAULT_OPTIONS Sample.newURL Sample.fetchPage Sample.noMarkup
            true Sample.generationAnswers Sample.noImage 0 1250 Sample.address
    = Returned res
    /\ recipe res = Some r
    /\ extractionMethod r = llm
    /\ sourceUrl r = Sample.address
    /\ getConfidenceColor (confidence r) <> js "text-terracotta-600".
Proof.
  eexists. eexists.
  split; [vm_compute; reflexivity |].
  split; [reflexivity |].
  match goal with
  | |- extractionMethod ?r = _ /\ _ =>
      pose proof (@extract_stamps_provenance
                    DEFAULT_OPTIONS Sample.newURL Sample.fetchPage
                    Sample.noMarkup true Sample.noImage 0 1250
                    Sample.generationAnswers Sample.address
                    (succeeded 0 1250 r []) r) as H
  end.
  destruct (H ltac:(vm_compute; reflexivity) eq_refl) as (_ & Hs & _ & Hc).
  split; [reflexivity |]. split; [exact Hs | exact Hc].
Defined.

Section ExtractBranches.

Variable options : ExtractorOptions.
Variable newURL : jsstring -> Exc Datatypes.unit.
Variable smartFetch : jsstring -> Z -> Exc FetchResult.
Variable parseRecipeFromHtml : jsstring -> jsstring -> Exc (option PartialRecipe).
Variable hasApiKey : bool.
Variable generateObject : LLMRequest -> Exc LLMObject.
Variable extractImageFromHtml : jsstring -> option jsstring.
Variables startTime finishTime : Z.

(** X16: once the page was fetched and its structured data is valid,
    [extract] succeeds whatever the options, the credential and the model
    do, and it never scans the page for an image. *)
Theorem extract_valid_structured_never_fails
    (url : jsstring) (u : Datatypes.unit) (fetched : FetchResult)
    (parsed : option PartialRecipe) :
  newURL url = Returned u ->
  smartFetch url (timeout options) = Returned fetched ->
  parseRecipeFromHtml (html fetched) url = Returned parsed ->
  isValidRecipe parsed = true ->
  (exists res r,
      extract options newURL smartFetch parseRecipeFromHtml hasApiKey
              generateObject extractImageFromHtml startTime finishTime url
      = Returned res
      /\ success res = true /\ recipe res = Some r /\ error res = None)
  /\ (forall scan : jsstring -> option jsstring,
      extract options newURL smartFetch parseRecipeFromHtml hasApiKey
              generateObject scan startTime finishTime url
      = extract options newURL smartFetch parseRecipeFromHtml hasApiKey
                generateObject extractImageFromHtml startTime finishTime url).
Proof.
  intros H1 H2 Hp H3. unfold extract. cbv zeta. rewrite H1, H2, Hp.
  cbn [bind]. rewrite H3.
  destruct parsed as [p |]; [| discriminate].
  split; [| reflexivity].
  destruct (tryRefine options hasApiKey generateObject startTime finishTime
              p fetched url []) as [result | ws] eqn:E.
  - unfold tryRefine in E.
    destruct (useLlm options && hasApiKey); [| discriminate].
    destruct (refineRecipe generateObject p (cleanedText fetched) url)
      as [refined | e]; [| discriminate].
    inversion E; subst. eexists _, _.
    exact (conj eq_refl (conj eq_refl (conj eq_refl eq_refl))).
  - eexists _, _.
    exact (conj eq_refl (conj eq_refl (conj eq_refl eq_refl))).
Qed.

(** X17: where the image of a returned recipe comes from.  Without valid
    structured data it is the image of the structured data, if there is
    one, else what the scan of the page finds.  With valid structured data
    it is the image of the structured data, except that a full extraction
    by the model, which is what refining a thin record is, has none. *)
Theorem extract_image_source
    (url : jsstring) (fetched : FetchResult) (res : ExtractionResult) (r : Recipe) :
  smartFetch url (timeout options) = Returned fetched ->
  extract options newURL smartFetch parseRecipeFromHtml hasApiKey
          generateObject extractImageFromHtml startTime finishTime url
  = Returned res ->
  recipe res = Some r ->
  exists parsed,
    parseRecipeFromHtml (html fetched) url = Returned parsed
    /\ if isValidRecipe parsed then
         (extractionMethod r <> llm ->
          imageUrl r = orNull (partialField parsed p_imageUrl))
         /\ (extractionMethod r = llm -> imageUrl r = None)
       else
         imageUrl r
         = match orNull (partialField parsed p_imageUrl) with
           | Some image => Some image
           | None => extractImageFromHtml (html fetched)
           end.
Proof.
  intros H2 He Hr. unfold extract in He. cbv zeta in He.
  destruct (newURL url) as [u | e];
    [| inversion He; subst; discriminate].
  rewrite H2 in He.
  destruct (parseRecipeFromHtml (html fetched) url) as [parsed | e];
    [| discriminate].
  cbn [bind] in He. exists parsed. split; [reflexivity |].
  destruct (isValidRecipe parsed) eqn:Ev.
  - destruct parsed as [p |]; [| discriminate].
    assert (Hstructured :
              res = succeeded startTime finishTime (structuredOnly p url)
                      (warnings res) ->
              (extractionMethod r <> llm ->
               imageUrl r = orNull (partialField (Some p) p_imageUrl))
              /\ (extractionMethod r = llm -> imageUrl r = None)).
    { intros E. rewrite E in Hr. cbn in Hr. inversion Hr; subst r.
      split; [reflexivity | discriminate]. }
    unfold tryRefine in He.
    destruct (useLlm options && hasApiKey);
      [| inversion He; subst res; now apply Hstructured].
    destruct (refineRecipe generateObject p (cleanedText fetched) url)
      as [refined | e] eqn:Er;
      [| inversion He; subst res; now apply Hstructured].
    inversion He; subst res. cbn in Hr. inversion Hr; subst refined.
    unfold refineRecipe in Er.
    destruct (hasGoodData p);
      destruct (parseWithLLM_provenance _ _ _ _ Er) as (_ & _ & _ & Hi & Hm & _);
      rewrite Hi, Hm; split; try reflexivity; try congruence; discriminate.
  - unfold fullExtraction in He.
    destruct (useLlm options); cbn [negb] in He;
      [| inversion He; subst; discriminate].
    destruct hasApiKey; cbn [negb] in He;
      [| inversion He; subst; discriminate].
    destruct (parseWithLLM generateObject (cleanedText fetched) url parsed)
      as [r0 | e] eqn:Ep;
      [| inversion He; subst; discriminate].
    destruct (parseWithLLM_provenance _ _ _ _ Ep) as (_ & _ & _ & Hi & _).
    cbv zeta in He. inversion He; subst res; clear He. cbn in Hr.
    assert (Hoo : orNull (imageUrl r0) = imageUrl r0).
    { rewrite Hi.
      now destruct (partialField parsed p_imageUrl) as [[| c s] |]. }
    rewrite Hoo in Hr. rewrite <- Hi.
    destruct (imageUrl r0) as [image |] eqn:Eo; inversion Hr; subst; cbn;
      [exact Eo | reflexivity].
Qed.

(** X18: with AI extraction switched off, or without the credential,
    [extract] never calls the model and never scans the page for an image:
    what it does does not depend on them.  A result it then returns has no
    warning, and a recipe in it is the structured one; and it returns a
    result whenever the structured parse does not throw. *)
Theorem extract_without_ai_ignores_the_model (url : jsstring) :
  useLlm options && hasApiKey = false ->
  (forall (model : LLMRequest -> Exc LLMObject)
          (scan : jsstring -> option jsstring),
      extract options newURL smartFetch parseRecipeFromHtml hasApiKey
              model scan startTime finishTime url
      = extract options newURL smartFetch parseRecipeFromHtml hasApiKey
                generateObject extractImageFromHtml startTime finishTime url)
  /\ (forall res,
        extract options newURL smartFetch parseRecipeFromHtml hasApiKey
                generateObject extractImageFromHtml startTime finishTime url
        = Returned res ->
        warnings res = []
        /\ forall r, recipe res = Some r ->
                     extractionMethod r = json_ld
                     /\ exists fetched p,
                          smartFetch url (timeout options) = Returned fetched
                          /\ parseRecipeFromHtml (html fetched) url
                             = Returned (Some p)
                          /\ r = structuredOnly p url)
  /\ ((forall fetched e,
         smartFetch url (timeout options) = Returned fetched ->
         parseRecipeFromHtml (html fetched) url <> Threw e) ->
      exists res,
        extract options newURL smartFetch parseRecipeFromHtml hasApiKey
                generateObject extractImageFromHtml startTime finishTime url
        = Returned res).
Proof.
  intros Hoff. unfold extract, tryRefine, fullExtraction. cbv zeta. rewrite Hoff.
  destruct (newURL url) as [u | e].
  2:{ split; [reflexivity |]. split; [| eexists; reflexivity].
      intros res H. inversion H; subst. split; [reflexivity |]. cbn. discriminate. }
  destruct (smartFetch url (timeout options)) as [fetched | e].
  2:{ split; [reflexivity |]. split; [| eexists; reflexivity].
      intros res H. inversion H; subst. split; [reflexivity |]. cbn. discriminate. }
  destruct (parseRecipeFromHtml (html fetched) url) as [parsed | e] eqn:Epar.
  2:{ split; [reflexivity |]. split; [discriminate |].
      intros H. exfalso. exact (H fetched e eq_refl Epar). }
  cbn [bind].
  destruct (isValidRecipe parsed) eqn:Ev.
  - destruct parsed as [p |]; [| discriminate].
    split; [reflexivity |]. split; [| eexists; reflexivity].
    intros res H. inversion H; subst. split; [reflexivity |].
    cbn. intros r Hr. inversion Hr; subst.
    split; [reflexivity |]. exists fetched, p. auto.
  - destruct (useLlm options); cbn [negb andb] in *.
    + rewrite Hoff. cbn [negb].
      split; [reflexivity |]. split; [| eexists; reflexivity].
      intros res H. inversion H; subst. split; [reflexivity |]. cbn. discriminate.
    + split; [reflexivity |]. split; [| eexists; reflexivity].
      intros res H. inversion H; subst. split; [reflexivity |]. cbn. discriminate.
Qed.

(** X19: [extract] returns a warning only next to a recipe, and then
    exactly one: the note that the refinement by the model failed, next to
    the structured recipe.  A failure carries no warning. *)
Theorem extract_warns_only_of_failed_refinement
    (url : jsstring) (res : ExtractionResult) :
  extract options newURL smartFetch parseRecipeFromHtml hasApiKey
          generateObject extractImageFromHtml startTime finishTime url
  = Returned res ->
  warnings res = []
  \/ (exists fetched p e,
        smartFetch url (timeout options) = Returned fetched
        /\ parseRecipeFromHtml (html fetched) url = Returned (Some p)
        /\ refineRecipe generateObject p (cleanedText fetched) url = Threw e
        /\ warnings res = [js "LLM refinement failed: " ++ errorMessage e]
        /\ success res = true
        /\ recipe res = Some (structuredOnly p url)).
Proof.
  intros He. unfold extract in He. cbv zeta in He.
  destruct (newURL url) as [u | e];
    [| inversion He; subst; now left].
  destruct (smartFetch url (timeout options)) as [fetched | e];
    [| inversion He; subst; now left].
  destruct (parseRecipeFromHtml (html fetched) url) as [parsed | e] eqn:Epar;
    [| discriminate].
  cbn [bind] in He.
  destruct (isValidRecipe parsed) eqn:Ev.
  - destruct parsed as [p |]; [| discriminate].
    unfold tryRefine in He.
    destruct (useLlm options && hasApiKey);
      [| inversion He; subst; now left].
    destruct (refineRecipe generateObject p (cleanedText fetched) url)
      as [refined | e] eqn:Er; inversion He; subst; [now left |].
    right. exists fetched, p, e. cbn.
    repeat split; auto.
  - left. unfold fullExtraction in He.
    destruct (negb (useLlm options)); [inversion He; subst; reflexivity |].
    destruct (negb hasApiKey); [inversion He; subst; reflexivity |].
    destruct (parseWithLLM _ _ _ _); inversion He; subst; reflexivity.
Qed.

End ExtractBranches.

Lemma extract_valid_structured_never_fails_witness :
  (exists res r,
      extract DEFAULT_OPTIONS Sample.newURL Sample.fetchPage
              (Sample.foundRecipe Sample.twoPlusTwo) true
              Sample.generationFails Sample.noImage 0 1250 Sample.address
      = Returned res
      /\ success res = true /\ recipe res = Some r /\ error res = None)
  /\ (forall scan : jsstring -> option jsstring,
      extract DEFAULT_OPTIONS Sample.newURL Sample.fetchPage
              (Sample.foundRecipe Sample.twoPlusTwo) true
              Sample.generationFails scan 0 1250 Sample.address
      = extract DEFAULT_OPTIONS Sample.newURL Sample.fetchPage
                (Sample.foundRecipe Sample.twoPlusTwo) true
                Sample.generationFails Sample.noImage 0 1250 Sample.address).
Proof.
  apply (@extract_valid_structured_never_fails
           DEFAULT_OPTIONS Sample.newURL Sample.fetchPage
           (Sample.foundRecipe Sample.twoPlusTwo) true
           Sample.generationFails Sample.noImage 0 1250
           Sample.address tt Sample.page (Some Sample.twoPlusTwo));
    vm_compute; reflexivity.
Defined.

Lemma extract_image_source_witness :
  exists res r,
    extract DEFAULT_OPTIONS Sample.newURL Sample.fetchPage Sample.noMarkup
            true Sample.generationAnswers
            (fun _ => Some (js "https://example.org/og.jpg"))
            0 1250 Sample.address
    = Returned res
    /\ recipe res = Some r
    /\ imageUrl r = Some (js "https://example.org/og.jpg").
Proof.
  eexists. eexists.
  split; [vm_compute; reflexivity |].
  split; [reflexivity |].
  match goal with
  | |- imageUrl ?r = _ =>
      destruct (@extract_image_source
                  DEFAULT_OPTIONS Sample.newURL Sample.fetchPage
                  Sample.noMarkup true Sample.generationAnswers
                  (fun _ => Some (js "https://example.org/og.jpg")) 0 1250
                  Sample.address Sample.page (succeeded 0 1250 r []) r
                  eq_refl ltac:(vm_compute; reflexivity) eq_refl)
        as (parsed & Hp & H)
  end.
  inversion Hp; subst parsed. exact H.
Defined.

Lemma extract_without_ai_ignores_the_model_witness :
  (forall (model : LLMRequest -> Exc LLMObject)
          (scan : jsstring -> option jsstring),
      extract {| useLlm := false; timeout := 30000 |}
              Sample.newURL Sample.fetchPage
              (Sample.foundRecipe Sample.twoPlusTwo) true
              model scan 0 1250 Sample.address
      = extract {| useLlm := false; timeout := 30000 |}
                Sample.newURL Sample.fetchPage
                (Sample.foundRecipe Sample.twoPlusTwo) true
                Sample.generationAnswers Sample.noImage 0 1250 Sample.address)
  /\ (exists res,
        extract {| useLlm := false; timeout := 30000 |}
                Sample.newURL Sample.fetchPage
                (Sample.foundRecipe Sample.twoPlusTwo) true
                Sample.generationAnswers Sample.noImage 0 1250 Sample.address
        = Returned res
        /\ warnings res = []
        /\ forall r, recipe res = Some r ->
                     extractionMethod r = json_ld
                     /\ exists fetched p,
                          Sample.fetchPage Sample.address 30000 = Returned fetched
                          /\ Sample.foundRecipe Sample.twoPlusTwo (html fetched)
                               Sample.address = Returned (Some p)
                          /\ r = structuredOnly p Sample.address).
Proof.
  destruct (@extract_without_ai_ignores_the_model
              {| useLlm := false; timeout := 30000 |}
              Sample.newURL Sample.fetchPage
              (Sample.foundRecipe Sample.twoPlusTwo) true
              Sample.generationAnswers Sample.noImage 0 1250 Sample.address
              eq_refl) as (Hsame & Hres & Hreturns).
  split; [exact Hsame |].
  destruct (Hreturns ltac:(intros fetched e _; discriminate)) as [res Hrun].
  exists res. split; [exact Hrun |]. exact (Hres res Hrun).
Defined.

Lemma extract_warns_only_of_failed_refinement_witness :
  exists res,
    extract DEFAULT_OPTIONS Sample.newURL Sample.fetchPage
            (Sample.foundRecipe Sample.twoPlusTwo) true
            Sample.generationFails Sample.noImage 0 1250 Sample.address
    = Returned res
    /\ (warnings res = []
        \/ (exists fetched p e,
              Sample.fetchPage Sample.address (timeout DEFAULT_OPTIONS)
              = Returned fetched
              /\ Sample.foundRecipe Sample.twoPlusTwo (html fetched)
                   Sample.address = Returned (Some p)
              /\ refineRecipe Sample.generationFails p (cleanedText fetched)
                   Sample.address = Threw e
              /\ warnings res = [js "LLM refinement failed: " ++ errorMessage e]
              /\ success res = true
              /\ recipe res = Some (structuredOnly p Sample.address))).
Proof.
  eexists.
  refine ((fun H => conj H
             (@extract_warns_only_of_failed_refinement
                DEFAULT_OPTIONS Sample.newURL Sample.fetchPage
                (Sample.foundRecipe Sample.twoPlusTwo) true
                Sample.generationFails Sample.noImage 0 1250
                Sample.address _ H)) _).
  vm_compute. reflexivity.
Defined.

(* ================================================================= *)
(** ** Further properties of [parseIngredient] *)

Lemma last_app_cons (a : jsstring) (c : N) (b : jsstring) (d : N) :
  last (a ++ c :: b) d = last (c :: b) d.
Proof.
  induction a as [| x a IH]; [reflexivity |].
  cbn [app]. rewrite <- IH. cbn [last].
  destruct (a ++ c :: b) eqn:E; [| reflexivity].
  destruct a; discriminate.
Qed.

Lemma rev_last_cons (c : N) (s : jsstring) :
  rev (c :: s) = last (c :: s) 0%N :: rev (removelast (c :: s)).
Proof.
  assert (H : c :: s <> []) by discriminate.
  rewrite (app_removelast_last 0%N H) at 1.
  now rewrite rev_app_distr.
Qed.

Lemma isTrimmed_trim (s : jsstring) : isTrimmed s = true -> trim s = s.
Proof.
  destruct s as [| c s]; [reflexivity |].
  unfold isTrimmed. intros H. apply andb_true_iff in H as [H1 H2].
  apply negb_true_iff in H1, H2.
  unfold trim, trimStart, trimEnd. cbn [dropWhile]. rewrite H1.
  rewrite rev_last_cons. cbn [dropWhile]. rewrite H2.
  rewrite <- rev_last_cons. apply rev_involutive.
Qed.

Lemma trim_trim (s : jsstring) : trim (trim s) = trim s.
Proof. apply isTrimmed_trim, trim_isTrimmed. Qed.

Lemma dropWhile_app (p : N -> bool) (s t : jsstring) :
  dropWhile p (s ++ t)
  = if forallb p s then dropWhile p t else dropWhile p s ++ t.
Proof.
  induction s as [| c s IH]; [reflexivity |].
  cbn [app dropWhile forallb]. destruct (p c); [exact IH | reflexivity].
Qed.

Lemma trimEnd_app_space (x post : jsstring) :
  forallb isWhiteSpace post = true -> trimEnd (x ++ post) = trimEnd x.
Proof.
  intros H. unfold trimEnd. rewrite rev_app_distr.
  now rewrite (@dropWhile_skip isWhiteSpace (rev post) (rev x)
                 (@forallb_rev isWhiteSpace post H)).
Qed.

Lemma trim_surrounded (pre s post : jsstring) :
  forallb isWhiteSpace pre = true -> forallb isWhiteSpace post = true ->
  trim (pre ++ s ++ post) = trim s.
Proof.
  intros Hpre Hpost. unfold trim, trimStart.
  rewrite (@dropWhile_skip isWhiteSpace pre (s ++ post) Hpre), dropWhile_app.
  destruct (forallb isWhiteSpace s) eqn:E.
  - now rewrite (@dropWhile_all isWhiteSpace post Hpost),
                (@dropWhile_all isWhiteSpace s E).
  - now apply trimEnd_app_space.
Qed.

Lemma parseIngredient_of_trim (toLowerCase : jsstring -> jsstring) (a b : jsstring) :
  trim a = trim b -> parseIngredient toLowerCase a = parseIngredient toLowerCase b.
Proof.
  intros H. unfold parseIngredient, parsedItem. now rewrite H.
Qed.

(** X20: [parseIngredient] does not see the white space around a line, and
    the [original] it stores is the trimmed line, which parses to the same
    ingredient again. *)
Theorem parseIngredient_ignores_surrounding_space
    (toLowerCase : jsstring -> jsstring) (pre line post : jsstring) :
  forallb isWhiteSpace pre = true ->
  forallb isWhiteSpace post = true ->
  parseIngredient toLowerCase (pre ++ line ++ post)
  = parseIngredient toLowerCase line
  /\ original (parseIngredient toLowerCase line) = trim line
  /\ isTrimmed (original (parseIngredient toLowerCase line)) = true
  /\ parseIngredient toLowerCase (original (parseIngredient toLowerCase line))
     = parseIngredient toLowerCase line.
Proof.
  intros Hpre Hpost.
  assert (Ho : original (parseIngredient toLowerCase line) = trim line).
  { unfold parseIngredient.
    destruct (extractComment (trim line)) as [cm item0].
    now destruct (extractQuantity toLowerCase item0). }
  split; [| split; [| split]].
  - apply parseIngredient_of_trim. now apply trim_surrounded.
  - exact Ho.
  - rewrite Ho. apply trim_isTrimmed.
  - rewrite Ho. apply parseIngredient_of_trim, trim_trim.
Qed.

Lemma parseIngredient_ignores_surrounding_space_witness :
  parseIngredient toLowerCaseBasic (js "  2 cups flour" ++ [9%N; 10%N])
  = parseIngredient toLowerCaseBasic (js "2 cups flour")
  /\ original (parseIngredient toLowerCaseBasic (js "2 cups flour"))
     = trim (js "2 cups flour").
Proof.
  destruct (@parseIngredient_ignores_surrounding_space toLowerCaseBasic
              (js "  ") (js "2 cups flour") [9%N; 10%N] eq_refl eq_refl)
    as (H1 & H2 & _).
  split; [exact H1 | exact H2].
Defined.

Lemma firstEntry_none (V : Type) (p : jsstring -> bool) (T : table V) :
  (forall w v, In (w, v) T -> p w = false) -> firstEntry p T = None.
Proof.
  unfold firstEntry. induction T as [| [w v] T IH]; [reflexivity |].
  intros H. cbn [find fst]. rewrite (H w v (or_introl eq_refl)).
  apply IH. intros w' v' Hin. apply (H w' v'). now right.
Qed.

Lemma table_words_start_hebrew :
  (forall w v, In (w, v) HEBREW_FRACTION_MAP ->
     exists x w', w = x :: w' /\ isHebrewChar x = true)
  /\ (forall w v, In (w, v) HEBREW_NUMBER_MAP ->
     exists x w', w = x :: w' /\ isHebrewChar x = true).
Proof.
  split; intros w v H; cbn [In HEBREW_FRACTION_MAP HEBREW_NUMBER_MAP] in H;
    repeat (destruct H as [H | H];
            [inversion H; eexists _, _; split; vm_compute; reflexivity |]);
    contradiction.
Qed.

Lemma numeral_not_hebrew (c : N) :
  isNumeralRunChar c = true -> isHebrewChar c = false.
Proof.
  unfold isNumeralRunChar, isDigit, isWhiteSpace, isHebrewChar. intros H.
  destruct ((1424 <=? c) && (c <=? 1535))%N eqn:E; [| reflexivity].
  bool_facts; lia.
Qed.

Lemma includes_skip (x : N) (w pre s : jsstring) :
  forallb (fun c => negb (x =? c)%N) pre = true ->
  includes (pre ++ s) (x :: w) = includes s (x :: w).
Proof.
  induction pre as [| c pre IH]; [reflexivity |].
  cbn [forallb]. intros H. apply andb_true_iff in H as [Hc H].
  apply negb_true_iff in Hc.
  cbn [app includes startsWith]. rewrite Hc. cbn [andb orb]. exact (IH H).
Qed.

Lemma numerals_hold_no_hebrew_word (x : N) (w pre s : jsstring) :
  isHebrewChar x = true ->
  forallb isNumeralRunChar pre = true ->
  includes (pre ++ s) (x :: w) = includes s (x :: w).
Proof.
  intros Hx Hpre. apply includes_skip.
  apply forallb_forall. intros c Hc.
  rewrite forallb_forall in Hpre. specialize (Hpre c Hc).
  apply numeral_not_hebrew in Hpre.
  apply negb_true_iff, N.eqb_neq. intros ->. congruence.
Qed.

Lemma commentMatch_none (s : jsstring) :
  forallb notOpening s = true -> commentMatch s = None.
Proof.
  induction s as [| c s IH]; [reflexivity |].
  cbn [forallb commentMatch]. intros H. apply andb_true_iff in H as [Hc H].
  unfold notOpening in Hc. apply negb_true_iff in Hc. rewrite Hc. exact (IH H).
Qed.

Lemma numeral_notOpening (s : jsstring) :
  forallb isNumeralRunChar s = true -> forallb notOpening s = true.
Proof.
  intros H. apply forallb_forall. intros c Hc.
  rewrite forallb_forall in H. specialize (H c Hc).
  destruct (numeral_char_range _ H) as (Hr & H43 & H45).
  unfold notOpening. apply negb_true_iff, N.eqb_neq. intros ->.
  unfold isNumeralRunChar in H. vm_compute in H. discriminate.
Qed.

Lemma digits_numerals (ds : jsstring) :
  forallb isDigit ds = true -> forallb isNumeralRunChar ds = true.
Proof.
  intros H. apply forallb_forall. intros c Hc.
  rewrite forallb_forall in H. unfold isNumeralRunChar. now rewrite (H c Hc).
Qed.

Lemma spaces_numerals (sep : jsstring) :
  forallb isWhiteSpace sep = true -> forallb isNumeralRunChar sep = true.
Proof.
  intros H. apply forallb_forall. intros c Hc.
  rewrite forallb_forall in H. unfold isNumeralRunChar. rewrite (H c Hc).
  now rewrite orb_true_r.
Qed.

Lemma digits_isTrimmed (ds : jsstring) :
  forallb isDigit ds = true -> isTrimmed ds = true.
Proof.
  destruct ds as [| c r]; [reflexivity |]. intros H.
  unfold isTrimmed.
  assert (Hc : isDigit c = true) by (cbn in H; now apply andb_true_iff in H).
  assert (Hl : isDigit (last (c :: r) 0%N) = true).
  { rewrite forallb_forall in H. apply H.
    rewrite (app_removelast_last 0%N (l := c :: r)) at 2 by discriminate.
    apply in_or_app. right. now left. }
  now rewrite (digit_not_space _ Hc), (digit_not_space _ Hl).
Qed.

Lemma parseHebrewNumber_digits
    (toLowerCase : jsstring -> jsstring) (n : N) (sep : jsstring) :
  keepsNumerals toLowerCase ->
  (Z.of_N n < 2 ^ 53)%Z ->
  forallb isWhiteSpace sep = true ->
  parseHebrewNumber toLowerCase (digitsOf n ++ sep)
  = Some (Finite (inject_Z (Z.of_N n))).
Proof.
  intros Hlc Hbound Hsep.
  pose proof (digitsOf_digits n) as Hd.
  pose proof (digitsOf_nonempty n) as Hne.
  assert (Et : trim (digitsOf n ++ sep) = digitsOf n).
  { rewrite <- (isTrimmed_trim _ (digits_isTrimmed _ Hd)) at 2.
    exact (@trim_surrounded [] (digitsOf n) sep eq_refl Hsep). }
  unfold parseHebrewNumber. cbv zeta. rewrite Et.
  rewrite (Hlc _ (digits_numerals _ Hd)).
  rewrite firstEntry_none.
  2:{ intros w v Hin.
      destruct (proj1 table_words_start_hebrew _ _ Hin) as (x & w' & -> & Hx).
      rewrite <- (app_nil_r (digitsOf n)).
      now rewrite (@numerals_hold_no_hebrew_word x w' (digitsOf n) [] Hx
                     (digits_numerals _ Hd)). }
  rewrite firstEntry_none.
  2:{ intros w v Hin.
      destruct (proj2 table_words_start_hebrew _ _ Hin) as (x & w' & -> & Hx).
      apply str_eqb_false. intros E.
      destruct (digitsOf n) as [| c r]; [discriminate |].
      inversion E; subst.
      cbn in Hd. apply andb_true_iff in Hd as [Hc _].
      assert (Hn : isNumeralRunChar x = true)
        by (unfold isNumeralRunChar; now rewrite Hc).
      apply numeral_not_hebrew in Hn. congruence. }
  pose proof (@parseFloat_digits false (digitsOf n) Hne Hd) as Ef.
  cbn [app] in Ef. rewrite Ef, digitsValue_digitsOf.
  rewrite roundToDouble_whole by lia. reflexivity.
Qed.

(** X21: a whole number at the start of an ingredient line is its
    quantity.  The line is the decimal digits of [n] (a number doubles hold
    exactly), any white space, and a name that does not begin with a digit,
    white space, "/" or ".", does not end in white space, and holds no
    opening parenthesis and no Hebrew fraction word. *)
Theorem parseIngredient_reads_leading_number
    (toLowerCase : jsstring -> jsstring)
    (n : N) (sep : jsstring) (c : N) (name : jsstring) :
  keepsNumerals toLowerCase ->
  (n < 2 ^ 53)%N ->
  forallb isWhiteSpace sep = true ->
  isNumeralRunChar c = false ->
  isWhiteSpace (last (c :: name) 0%N) = false ->
  forallb notOpening (c :: name) = true ->
  hasFractionWord (c :: name) = false ->
  quantity (parseIngredient toLowerCase (digitsOf n ++ sep ++ c :: name))
  = Some (Finite (inject_Z (Z.of_N n))).
Proof.
  intros Hlc Hn Hsep Hc Hlast Hopen Hfrac.
  apply N2Z.inj_lt in Hn. rewrite N2Z.inj_pow in Hn.
  change (Z.of_N 2 ^ Z.of_N 53)%Z with (2 ^ 53)%Z in Hn.
  pose proof (digitsOf_digits n) as Hd.
  pose proof (digitsOf_nonempty n) as Hne.
  set (run := digitsOf n ++ sep).
  assert (Hrun : forallb isNumeralRunChar run = true).
  { unfold run. rewrite forallb_app.
    now rewrite (digits_numerals _ Hd), (spaces_numerals _ Hsep). }
  assert (El : digitsOf n ++ sep ++ c :: name = run ++ c :: name)
    by (unfold run; now rewrite <- app_assoc).
  rewrite El.
  assert (Et : trim (run ++ c :: name) = run ++ c :: name).
  { apply isTrimmed_trim. unfold run.
    destruct (digitsOf n) as [| d ds]; [congruence |].
    cbn in Hd. apply andb_true_iff in Hd as [Hd0 _].
    unfold isTrimmed. cbn [app].
    rewrite (digit_not_space _ Hd0).
    change (d :: (ds ++ sep) ++ c :: name)
      with ((d :: ds ++ sep) ++ c :: name).
    now rewrite last_app_cons, Hlast. }
  assert (Ec : extractComment (run ++ c :: name) = (None, run ++ c :: name)).
  { unfold extractComment. rewrite commentMatch_none; [reflexivity |].
    rewrite forallb_app. now rewrite (numeral_notOpening _ Hrun), Hopen. }
  assert (Ef : firstEntry (fun word => includes (run ++ c :: name) word)
                 HEBREW_FRACTION_MAP = None).
  { apply firstEntry_none. intros w v Hin.
    destruct (proj1 table_words_start_hebrew _ _ Hin) as (x & w' & -> & Hx).
    rewrite (@numerals_hold_no_hebrew_word x w' run (c :: name) Hx Hrun).
    unfold hasFractionWord in Hfrac.
    destruct (includes (c :: name) (x :: w')) eqn:E; [| reflexivity].
    assert (existsb (fun e => includes (c :: name) (fst e)) HEBREW_FRACTION_MAP
            = true); [| congruence].
    apply existsb_exists. exists (x :: w', v). auto. }
  assert (En : numMatch (run ++ c :: name) = Some run).
  { unfold numMatch.
    rewrite (@takeWhile_run isNumeralRunChar run (c :: name) Hrun Hc).
    unfold run. destruct (digitsOf n); [congruence | reflexivity]. }
  unfold parseIngredient. rewrite Et, Ec.
  unfold extractQuantity. rewrite Ef, En.
  unfold run at 1.
  rewrite (@parseHebrewNumber_digits toLowerCase n sep Hlc Hn Hsep).
  reflexivity.
Qed.

Lemma parseIngredient_reads_leading_number_witness :
  quantity (parseIngredient toLowerCaseBasic (js "250 גרם קמח"))
  = Some (Finite (inject_Z 250)).
Proof.
  apply (@parseIngredient_reads_leading_number toLowerCaseBasic
           250%N (js " ") 1490%N (List.tl (js "גרם קמח"))
           toLowerCaseBasic_keepsNumerals);
    vm_compute; reflexivity.
Defined.

(* ================================================================= *)
(** ** The relative time of src/lib/format.ts *)

(** X22: what [formatRelativeTime] shows for a date [d] milliseconds back:
    "just now" below one minute (and for a date ahead), 1 to 59 minutes,
    1 to 23 hours, "yesterday" for the second day, 2 to 6 days, and the
    date itself from a week on; each count is the elapsed time rounded
    down.  A text that is no date shows as the date string. *)
Theorem formatRelativeTime_cases (date now : Z) (localeDateString : jsstring) :
  let d := (now - date)%Z in
  let shown := formatRelativeTime (Some date) now localeDateString in
  ((d < 60000)%Z /\ shown = js "just now")
  \/ (exists n, (1 <= n <= 59)%Z /\ (60000 * n <= d < 60000 * (n + 1))%Z
                /\ shown = integerToString n ++ js "m ago")
  \/ (exists n, (1 <= n <= 23)%Z /\ (3600000 * n <= d < 3600000 * (n + 1))%Z
                /\ shown = integerToString n ++ js "h ago")
  \/ ((86400000 <= d < 172800000)%Z /\ shown = js "yesterday")
  \/ (exists n, (2 <= n <= 6)%Z /\ (86400000 * n <= d < 86400000 * (n + 1))%Z
                /\ shown = integerToString n ++ js "d ago")
  \/ ((604800000 <= d)%Z /\ shown = localeDateString).
Proof.
  cbv zeta. unfold formatRelativeTime. cbv zeta.
  set (d := (now - date)%Z).
  change (1000 * 60 * 60 * 24)%Z with 86400000%Z.
  change (1000 * 60 * 60)%Z with 3600000%Z.
  change (1000 * 60)%Z with 60000%Z.
  pose proof (Z.div_mod d 60000 ltac:(lia)) as M1.
  pose proof (Z.mod_pos_bound d 60000 ltac:(lia)) as M2.
  pose proof (Z.div_mod d 3600000 ltac:(lia)) as H1.
  pose proof (Z.mod_pos_bound d 3600000 ltac:(lia)) as H2.
  pose proof (Z.div_mod d 86400000 ltac:(lia)) as D1.
  pose proof (Z.mod_pos_bound d 86400000 ltac:(lia)) as D2.
  destruct (d / 60000 <? 1)%Z eqn:E1.
  { apply Z.ltb_lt in E1. left. split; [lia | reflexivity]. }
  apply Z.ltb_ge in E1.
  destruct (d / 60000 <? 60)%Z eqn:E2.
  { apply Z.ltb_lt in E2. right; left. exists (d / 60000)%Z.
    split; [lia |]. split; [lia | reflexivity]. }
  apply Z.ltb_ge in E2.
  destruct (d / 3600000 <? 24)%Z eqn:E3.
  { apply Z.ltb_lt in E3. right; right; left. exists (d / 3600000)%Z.
    split; [lia |]. split; [lia | reflexivity]. }
  apply Z.ltb_ge in E3.
  destruct (d / 86400000 =? 1)%Z eqn:E4.
  { apply Z.eqb_eq in E4. right; right; right; left.
    split; [lia | reflexivity]. }
  apply Z.eqb_neq in E4.
  destruct (d / 86400000 <? 7)%Z eqn:E5.
  { apply Z.ltb_lt in E5. right; right; right; right; left.
    exists (d / 86400000)%Z. split; [lia |]. split; [lia | reflexivity]. }
  apply Z.ltb_ge in E5. right; right; right; right; right.
  split; [lia | reflexivity].
Qed.

(* ================================================================= *)
(** ** The batch command *)

Lemma sanitizeFilename_chars (toLowerCase : jsstring -> jsstring) (name : jsstring) :
  forallb isSafeFilenameChar (sanitizeFilename toLowerCase name) = true.
Proof.
  unfold sanitizeFilename. apply forallb_firstn.
  pose proof (@dashRuns_chars isFilenameChar false
                (filter isFilenameChar (toLowerCase name))
                (forallb_filter_same _ _) eq_refl) as H.
  rewrite forallb_forall in H. apply forallb_forall. intros c Hc.
  specialize (H c Hc). apply andb_true_iff in H as [Hk Hw].
  unfold isSafeFilenameChar. rewrite Hw, andb_true_r.
  unfold isFilenameChar in Hk. apply negb_true_iff in Hw. rewrite Hw in Hk.
  now rewrite orb_false_r in Hk.
Qed.

Section BatchProperties.

Variable toLowerCase : jsstring -> jsstring.
Variable extractOne : jsstring -> Exc ExtractionResult.
Variable join : jsstring -> jsstring -> jsstring.
Variable writeFileSync : jsstring -> Recipe -> Exc Datatypes.unit.

Lemma processUrl_file outputDir url path r :
  processUrl toLowerCase extractOne join writeFileSync outputDir url
  = Returned (Some (path, r)) ->
  isBatchPath join outputDir path
  /\ exists result, extractOne url = Returned result
                    /\ success result = true /\ recipe result = Some r.
Proof.
  unfold processUrl. destruct (extractOne url) as [result | e];
    cbn [bind]; [| discriminate].
  destruct (success result) eqn:Es; [| discriminate].
  destruct (recipe result) as [r0 |] eqn:Er; [| discriminate].
  cbv zeta. destruct (writeFileSync _ r0); cbn [bind]; [| discriminate].
  intros H. inversion H; subst. split; [| eauto].
  exists (sanitizeFilename toLowerCase (title r)).
  split; [reflexivity |]. split.
  - unfold sanitizeFilename. apply firstn_le_length.
  - apply sanitizeFilename_chars.
Qed.

Lemma batch_invariant outputDir urls st :
  let st' := fold_left (batchStep toLowerCase extractOne join writeFileSync outputDir)
                       urls st in
  (successCount st' + failCount st'
   = successCount st + failCount st + N.of_nat (List.length urls))%N
  /\ (N.of_nat (List.length (written st')) - N.of_nat (List.length (written st))
      = successCount st' - successCount st)%N
  /\ (successCount st <= successCount st')%N
  /\ List.length (written st) <= List.length (written st')
  /\ (Forall (fun f => isBatchPath join outputDir (fst f)) (written st) ->
      Forall (fun f => isBatchPath join outputDir (fst f)) (written st')).
Proof.
  revert st. induction urls as [| url urls IH]; intros st; cbn [fold_left].
  - cbv zeta. cbn [List.length]. repeat split; auto; lia.
  - specialize (IH (batchStep toLowerCase extractOne join writeFileSync
                      outputDir st url)).
    cbv zeta in IH |- *.
    destruct IH as (I1 & I2 & I3 & I4 & I5).
    set (st1 := batchStep toLowerCase extractOne join writeFileSync
                  outputDir st url) in *.
    assert (Hstep :
      (successCount st1 + failCount st1 = successCount st + failCount st + 1)%N
      /\ (N.of_nat (List.length (written st1))
          = N.of_nat (List.length (written st))
            + (successCount st1 - successCount st))%N
      /\ (successCount st <= successCount st1)%N
      /\ (Forall (fun f => isBatchPath join outputDir (fst f)) (written st) ->
          Forall (fun f => isBatchPath join outputDir (fst f)) (written st1))).
    { unfold st1, batchStep.
      destruct (processUrl toLowerCase extractOne join writeFileSync outputDir url)
        as [[[path r] |] | e] eqn:E; cbn [successCount failCount written].
      - rewrite length_app. cbn [List.length].
        repeat split; try lia.
        intros HF. apply Forall_app. split; [exact HF |].
        constructor; [| constructor].
        exact (proj1 (processUrl_file _ _ E)).
      - repeat split; auto; lia.
      - repeat split; auto; lia. }
    destruct Hstep as (S1 & S2 & S3 & S4).
    cbn [List.length].
    repeat split; auto; lia.
Qed.

(** X23: the loop of the [batch] command accounts for every address once:
    the successes and the failures add up to the number of addresses, each
    success wrote one file, and every file was written directly under the
    output directory's join with a safe name ending in ".json". *)
Theorem batch_counts_every_url (outputDir : jsstring) (urls : list jsstring) :
  let done := batch toLowerCase extractOne join writeFileSync outputDir urls in
  (successCount done + failCount done = N.of_nat (List.length urls))%N
  /\ N.of_nat (List.length (written done)) = successCount done
  /\ Forall (fun f => isBatchPath join outputDir (fst f)) (written done).
Proof.
  cbv zeta. unfold batch.
  destruct (batch_invariant outputDir urls
              {| successCount := 0; failCount := 0; written := [] |})
    as (I1 & I2 & I3 & I4 & I5).
  cbn [successCount failCount written List.length] in *.
  repeat split; [lia | lia | apply I5; constructor].
Qed.

End BatchProperties.

(* ================================================================= *)
(** ** The record built from the structured data *)

Lemma extractInstructions_clean (instructions : json) (steps : list jsstring) :
  extractInstructions instructions = Returned steps ->
  forallb (fun s => nonEmpty s && isTrimmed s) steps = true.
Proof.
  unfold extractInstructions.
  destruct (json_truthy instructions); cbn [negb];
    [| intros H; inversion H; reflexivity].
  destruct instructions; try (intros H; inversion H; reflexivity).
  - intros H. inversion H; subst. apply filter_nonEmpty_trimmed.
    induction (splitSteps s) as [| p ps IH]; simpl; [reflexivity |].
    now rewrite trim_isTrimmed, IH.
  - unfold bind. destruct (itemsSteps items) as [l |] eqn:E; [| discriminate].
    intros H. inversion H; subst. apply filter_nonEmpty_trimmed.
    exact (itemsSteps_trimmed _ E).
Qed.

Lemma titleOf_cases (name : json) :
  (textOrFalsy name = true
   /\ exists t, titleOf name = Returned t
                /\ (t <> [] <-> json_truthy name = true)
                /\ (forall s, name = JString s -> t = s))
  \/ (textOrFalsy name = false /\ exists e, titleOf name = Threw e).
Proof.
  assert (Hempty : forall v : json,
             json_truthy v = false -> (forall s, v <> JString s) ->
             exists t : jsstring,
               Returned (A := jsstring) [] = Returned t
               /\ (t <> [] <-> json_truthy v = true)
               /\ (forall s, v = JString s -> t = s)).
  { intros v Hv Hs. exists []. split; [reflexivity |]. split.
    - rewrite Hv. split; [congruence | discriminate].
    - intros s E. now apply Hs in E. }
  destruct name as [| | b | x | s | items | fields].
  - left. split; [reflexivity |].
    apply (Hempty JUndefined); [reflexivity | discriminate].
  - left. split; [reflexivity |].
    apply (Hempty JNull); [reflexivity | discriminate].
  - destruct b; [right; split; [reflexivity | eexists; reflexivity] |].
    left. split; [reflexivity |].
    apply (Hempty (JBool false)); [reflexivity | discriminate].
  - destruct (num_falsy x) eqn:Ex.
    + left. split; [cbn; now rewrite Ex |].
      assert (Ht : titleOf (JNumber x) = Returned [])
        by (unfold titleOf; cbn; now rewrite Ex).
      rewrite Ht. apply (Hempty (JNumber x)); [cbn; now rewrite Ex | discriminate].
    + right. split; [cbn; now rewrite Ex |].
      unfold titleOf. cbn. rewrite Ex. eexists; reflexivity.
  - left. split; [reflexivity |]. exists s.
    destruct s as [| c s]; (split; [reflexivity |]); split;
      try (split; [congruence | discriminate]);
      try (split; [reflexivity | discriminate]);
      intros s' E; now inversion E.
  - right. split; [reflexivity | eexists; reflexivity].
  - right. split; [reflexivity | eexists; reflexivity].
Qed.

Ltac field_case :=
  first [ left; split; [reflexivity | eexists; reflexivity]
        | right; split; [reflexivity | eexists; reflexivity] ].

Lemma durationOf_cases (v : json) :
  (textOrFalsy v = true /\ exists x, durationOf v = Returned x)
  \/ (textOrFalsy v = false /\ exists e, durationOf v = Threw e).
Proof.
  destruct v as [| | b | x | s | items | fields]; try field_case.
  - destruct b; field_case.
  - unfold durationOf, textOrFalsy. cbn [json_truthy].
    destruct (num_falsy x); cbn [negb]; field_case.
  - destruct s; field_case.
Qed.

Lemma nutritionValueOf_cases (v : json) :
  (textOrFalsy v = true /\ exists x, nutritionValueOf v = Returned x)
  \/ (textOrFalsy v = false /\ exists e, nutritionValueOf v = Threw e).
Proof.
  destruct v as [| | b | x | s | items | fields]; try field_case.
  - destruct b; field_case.
  - unfold nutritionValueOf, textOrFalsy. cbn [json_truthy].
    destruct (num_falsy x); cbn [negb]; field_case.
  - destruct s; field_case.
Qed.

Lemma parseNutrition_cases (nutrition : json) :
  (nutritionReadable nutrition = true
   /\ exists x, parseNutrition nutrition = Returned x)
  \/ (nutritionReadable nutrition = false
      /\ exists e, parseNutrition nutrition = Threw e).
Proof.
  unfold nutritionReadable, parseNutrition.
  destruct (json_truthy nutrition); cbn [negb orb];
    [| left; split; [reflexivity | eauto]].
  cbn [nutritionFields forallb].
  repeat match goal with
         | |- context [nutritionValueOf ?v] =>
             destruct (nutritionValueOf_cases v) as [[-> [? ->]] | [-> [? ->]]];
             cbn [bind andb];
             [| right; rewrite ?andb_false_r; split; [reflexivity | eauto]]
         end.
  left. split; [reflexivity | eauto].
Qed.

Section RecipeFromJsonLdProperties.

Variable toLowerCase : jsstring -> jsstring.
Variable jsonLdScripts : jsstring -> list (option json).

Lemma ingredientsOf_cases (items : list json) :
  (forallb isText items = true
   /\ ingredientsOf toLowerCase items
      = Returned (map (parseIngredient toLowerCase) (textsOf (JArray items))))
  \/ (forallb isText items = false
      /\ exists e, ingredientsOf toLowerCase items = Threw e).
Proof.
  induction items as [| i items IH]; [left; split; reflexivity |].
  cbn [forallb ingredientsOf].
  destruct i as [| | b | x | s | l | fields]; cbn [isText ingredientOf bind andb];
    try (right; split; [reflexivity | eauto]; fail).
  destruct IH as [[-> ->] | [-> [e ->]]]; cbn [bind].
  - left. split; reflexivity.
  - right. split; [reflexivity | eauto].
Qed.

Lemma parseIngredients_cases (v : json) :
  (textsOrFalsy v = true
   /\ parseIngredients toLowerCase v
      = Returned (map (parseIngredient toLowerCase) (textsOf v)))
  \/ (textsOrFalsy v = false
      /\ exists e, parseIngredients toLowerCase v = Threw e).
Proof.
  unfold parseIngredients, textsOrFalsy.
  destruct v as [| | b | x | s | items | fields]; cbn [json_truthy negb];
    try (left; split; reflexivity);
    try (right; split; [reflexivity | eauto]; fail).
  - destruct b; [right; split; [reflexivity | eauto] | left; split; reflexivity].
  - destruct (num_falsy x); cbn [negb];
      [left; split; reflexivity | right; split; [reflexivity | eauto]].
  - destruct s; [left; split; reflexivity | right; split; [reflexivity | eauto]].
  - apply ingredientsOf_cases.
Qed.

Lemma original_of_parseIngredient (lines : list jsstring) :
  map original (map (parseIngredient toLowerCase) lines) = map trim lines.
Proof.
  rewrite map_map. apply map_ext. intros line. unfold parseIngredient.
  destruct (extractComment (trim line)) as [cm item0].
  now destruct (extractQuantity toLowerCase item0).
Qed.

(** X24: what [parseRecipeFromHtml] makes of the structured data of a
    page.  Without a recipe item it returns null.  With one it throws a
    TypeError unless the markup is readable: a text or nothing for the
    name, the three durations and the six nutrition values, an array of
    texts or nothing for the ingredients, and instructions that
    [extractInstructions] reads.  On readable markup it returns a record
    with the address asked for, the structured method tag and confidence
    0.9, one ingredient per ingredient line, each keeping its trimmed
    line, clean steps, the language Hebrew or English by the name, and
    image, author, description and date as the markup has them; read as a
    [Partial<Recipe>], that record passes [isValidRecipe] exactly when
    the item has a non-empty name, at least one ingredient line (blank or
    not) and at least one step. *)
Theorem parseRecipeFromHtml_validity (html sourceUrl : jsstring) :
  (extractJsonLd toLowerCase jsonLdScripts html = None ->
   parseRecipeFromHtml toLowerCase jsonLdScripts html sourceUrl = Returned None)
  /\ (forall jsonLd,
      extractJsonLd toLowerCase jsonLdScripts html = Some jsonLd ->
      (~ isReadable jsonLd ->
       exists e,
         parseRecipeFromHtml toLowerCase jsonLdScripts html sourceUrl = Threw e)
      /\ (isReadable jsonLd ->
          exists r steps,
            parseRecipeFromHtml toLowerCase jsonLdScripts html sourceUrl
            = Returned (Some r)
            /\ extractInstructions (json_get jsonLd (js "recipeInstructions"))
               = Returned steps
            /\ s_steps r = steps
            /\ forallb (fun s => nonEmpty s && isTrimmed s) steps = true
            /\ s_ingredients r
               = map (parseIngredient toLowerCase)
                     (textsOf (json_get jsonLd (js "recipeIngredient")))
            /\ map original (s_ingredients r)
               = map trim (textsOf (json_get jsonLd (js "recipeIngredient")))
            /\ (forall t, json_get jsonLd (js "name") = JString t -> s_title r = t)
            /\ (s_title r <> [] <-> json_truthy (json_get jsonLd (js "name")) = true)
            /\ s_language r = (if isHebrew (s_title r) then he else en)
            /\ s_sourceUrl r = sourceUrl
            /\ s_extractionMethod r = json_ld /\ s_confidence r = 0.9%Q
            /\ s_tips r = []
            /\ s_imageUrl r = extractImage (json_get jsonLd (js "image"))
            /\ s_author r = extractAuthor (json_get jsonLd (js "author"))
            /\ s_description r = json_orNull (json_get jsonLd (js "description"))
            /\ s_datePublished r
               = json_orNull (json_get jsonLd (js "datePublished"))
            /\ s_servings (s_meta r)
               = parseServings (json_get jsonLd (js "recipeYield"))
            /\ (forall view, agreesOnTypedFields view ->
                (isValidRecipe (Some (view r)) = true
                 <-> json_truthy (json_get jsonLd (js "name")) = true
                     /\ textsOf (json_get jsonLd (js "recipeIngredient")) <> []
                     /\ steps <> [])))).
Proof.
  unfold parseRecipeFromHtml. split; [now intros -> |].
  intros jsonLd ->. unfold recipeOfJsonLd, isReadable.
  destruct (titleOf_cases (json_get jsonLd (js "name")))
    as [[En (t & -> & Ht & Hname)] | [En [e ->]]];
    [| split; [intros _; eexists; reflexivity | intros (H & _); congruence]].
  destruct (parseIngredients_cases (json_get jsonLd (js "recipeIngredient")))
    as [[Ei ->] | [Ei [e ->]]];
    [| split; [intros _; eexists; reflexivity | intros (_ & H & _); congruence]].
  destruct (extractInstructions (json_get jsonLd (js "recipeInstructions")))
    as [steps | e] eqn:Es;
    [| split; [intros _; eexists; reflexivity | intros (_ & _ & [x H] & _); discriminate]].
  destruct (durationOf_cases (json_get jsonLd (js "prepTime")))
    as [[Ep [prep ->]] | [Ep [e ->]]];
    [| split; [intros _; eexists; reflexivity | intros (_ & _ & _ & H & _); congruence]].
  destruct (durationOf_cases (json_get jsonLd (js "cookTime")))
    as [[Ec [cook ->]] | [Ec [e ->]]];
    [| split; [intros _; eexists; reflexivity | intros (_ & _ & _ & _ & H & _); congruence]].
  destruct (durationOf_cases (json_get jsonLd (js "totalTime")))
    as [[Et [total ->]] | [Et [e ->]]];
    [| split; [intros _; eexists; reflexivity | intros (_ & _ & _ & _ & _ & H & _); congruence]].
  destruct (parseNutrition_cases (json_get jsonLd (js "nutrition")))
    as [[Enu [nutrition ->]] | [Enu [e ->]]];
    [| split; [intros _; eexists; reflexivity | intros (_ & _ & _ & _ & _ & _ & H); congruence]].
  cbn [bind]. split.
  { intros Hnot. exfalso. apply Hnot. repeat split; eauto. }
  intros _. eexists. exists steps. split; [reflexivity |]. cbn.
  split; [reflexivity |]. split; [reflexivity |].
  split; [exact (extractInstructions_clean _ Es) |].
  split; [reflexivity |].
  split; [apply original_of_parseIngredient |].
  split; [exact Hname |]. split; [exact Ht |].
  do 10 (split; [reflexivity |]).
  intros view Hview. unfold isValidRecipe.
  match goal with
  | |- context [view ?r] => destruct (Hview r) as (V1 & _ & V2 & V3 & _)
  end.
  rewrite V1, V2, V3. cbn [s_title s_ingredients s_steps].
  rewrite !andb_true_iff.
  assert (T : truthy (Some t) = true <-> t <> [])
    by (destruct t; cbn; split; congruence).
  assert (L : forall (A : Type) (l : list A),
             longerThan 0 (Some l) = true <-> l <> [])
    by (intros A [| a l]; cbn; split; congruence).
  rewrite T, !L, Ht.
  assert (M : map (parseIngredient toLowerCase)
                  (textsOf (json_get jsonLd (js "recipeIngredient"))) <> []
              <-> textsOf (json_get jsonLd (js "recipeIngredient")) <> []).
  { destruct (textsOf _); cbn; split; congruence. }
  rewrite M. tauto.
Qed.

End RecipeFromJsonLdProperties.

Lemma parseRecipeFromHtml_validity_witness :
  exists r,
    parseRecipeFromHtml toLowerCaseBasic Sample.scripts
      (js "<html></html>") Sample.address = Returned (Some r)
    /\ s_title r = js "Hummus"
    /\ map original (s_ingredients r)
       = [js "1 can chickpeas"; js "2 tbsp tahini (raw)"]
    /\ s_steps r = [js "Drain the chickpeas."; js "Blend until smooth."]
    /\ s_imageUrl r = JNull
    /\ isValidRecipe (Some (typedView r)) = true.
Proof.
  destruct (proj2 (@parseRecipeFromHtml_validity toLowerCaseBasic
                     Sample.scripts (js "<html></html>") Sample.address)
              Sample.markup eq_refl) as [_ H].
  destruct H as (r & steps & H1 & H2 & H3 & _ & _ & H6 & H7 & _ & _ & _ & _ & _
                 & _ & H14 & _ & _ & _ & _ & H19).
  { unfold isReadable.
    repeat split; try reflexivity.
    eexists. vm_compute. reflexivity. }
  exists r. split; [exact H1 |].
  split; [exact (H7 _ eq_refl) |].
  split; [exact H6 |].
  split; [rewrite H3; vm_compute in H2; now inversion H2 |].
  split; [exact H14 |].
  apply (H19 typedView).
  - intros x. repeat split; reflexivity.
  - split; [reflexivity |]. split; [discriminate |].
    vm_compute in H2. inversion H2. discriminate.
Defined.
